(** * Secure Messenger Desktop: store, sync broker and connection client

    A shallow embedding of
      - [src/server/database.ts]   (module [Db]),
      - [src/store/index.ts]       (module [Redux]),
      - [src/server/websocket.ts]  (module [Broker]),
      - [src/hooks/useWebSocket.ts] (module [Client]),
    followed by the properties of the specification that concern them.

    Numbers are JavaScript numbers holding integers (timestamps in
    milliseconds, counters, delays); they are modelled by [Z].  Strings
    are [string]; a string that goes into the store stands for the bytes
    of its UTF-8 encoding, which is what SQLite compares and what its
    LIKE reads (module [Sqlite]).  SQLite tables are lists of rows in
    rowid order. *)

From Stdlib Require Import ZArith List String Ascii Bool Lia.
From Stdlib Require Import Sorting.Sorted Permutation DecimalString.
Import ListNotations.
Open Scope string_scope.
Open Scope Z_scope.

(** ** Rows *)

(** Row of table [chats]. *)
Module ChatRow.
Record t := mk
  { id : string; title : string; lastMessageAt : Z;
    unreadCount : Z; createdAt : Z }.
End ChatRow.

(** Row of table [messages]. *)
Module MessageRow.
Record t := mk
  { id : string; chatId : string; ts : Z; sender : string;
    body : string; createdAt : Z }.
End MessageRow.

(** [Chat] of store/index.ts, also the projection selected by [getChats]. *)
Module Chat.
Record t := mk
  { id : string; title : string; lastMessageAt : Z; unreadCount : Z }.
End Chat.

(** [Message] of store/index.ts, also the projection selected by
    [getMessages] and [searchMessages]. *)
Module Message.
Record t := mk
  { id : string; chatId : string; ts : Z; sender : string; body : string }.
End Message.

(** ** Generic helpers *)

(** What a thrown exception carries. *)
Inductive Error :=
| SQLITE_CONSTRAINT_PRIMARYKEY
| SQLITE_CONSTRAINT_FOREIGNKEY
| SQLITE_ERROR.

Inductive Result (A : Type) :=
| Ok (a : A)
| Throw (e : Error).
Arguments Ok {A} a.
Arguments Throw {A} e.

(** JavaScript default parameter: [undefined] takes the default. *)
Definition default_arg (d : Z) (x : option Z) : Z :=
  match x with Some v => v | None => d end.

(** Insertion of [x] into a list ordered by [key] descending: [x] passes
    the rows whose key is larger than its own and stops before the first
    row whose key is not. *)
Fixpoint insert_desc {A} (key : A -> Z) (x : A) (l : list A) : list A :=
  match l with
  | [] => [x]
  | y :: l' => if key x <? key y then y :: insert_desc key x l'
               else x :: l
  end.

(** [ORDER BY key DESC] over rows met in storage order, and
    [Array.prototype.sort((a, b) => key b - key a)]: a stable sort, rows
    with equal keys keep their relative order. *)
Definition order_by_desc {A} (key : A -> Z) (l : list A) : list A :=
  fold_right (insert_desc key) [] l.

(** [LIMIT limit OFFSET offset].  SQLite reads a negative limit as no
    limit and a negative offset as zero. *)
Definition limit_offset {A} (limit offset : Z) (l : list A) : list A :=
  let rest := skipn (Z.to_nat offset) l in
  if limit <? 0 then rest else firstn (Z.to_nat limit) rest.

(** [x || d] on a number that may be [undefined]: [0] and [undefined]
    are falsy. *)
Definition js_or (x : option Z) (d : Z) : Z :=
  match x with
  | Some v => if v =? 0 then d else v
  | None => d
  end.

(** The ASCII capitals made small, on a byte of a text. *)
Definition lower (c : ascii) : ascii :=
  let n := nat_of_ascii c in
  if ((65 <=? n) && (n <=? 90))%nat then ascii_of_nat (n + 32) else c.

(** ** The LIKE operator of SQLite

    [body LIKE ?] is SQLite's [likeFunc] (func.c), which hands the
    pattern and the text to [patternCompare]; both are read character by
    character with [sqlite3Utf8Read] (utf.c).  A TEXT value is the
    sequence of bytes of its UTF-8 encoding, which is what better-sqlite3
    binds for a JavaScript string and what a [string] of the store
    stands for: one [ascii] is one byte. *)

Module Sqlite.

Definition byte (a : ascii) : Z := Z.of_N (N_of_ascii a).

(** [sqlite3Utf8Trans1[b - 0xc0]]: the payload bits of a lead byte. *)
Definition utf8_trans1 (b : Z) : Z :=
  if b <? 0xe0 then b - 0xc0
  else if b <? 0xf0 then b - 0xe0
  else if b <? 0xf8 then b - 0xf0
  else if b <? 0xfc then b - 0xf8
  else if b <? 0xfe then b - 0xfc
  else 0.

(** What [sqlite3Utf8Read] returns for a character that began with a
    lead byte from [0xc0] on, once its continuation bytes are read:
    over-long forms, surrogates and [0xFFFE], [0xFFFF] become [0xFFFD]. *)
Definition utf8_close (c : Z) : Z :=
  if (c <? 0x80) || (Z.land c 0xFFFFF800 =? 0xD800)
     || (Z.land c 0xFFFFFFFE =? 0xFFFE)
  then 0xFFFD else c.

Definition is_continuation (b : Z) : bool := Z.land b 0xc0 =? 0x80.

(** The characters [Utf8Read] hands out one after the other until it
    returns 0, which is at the first NUL byte or at the end of the text.
    [open] is the value of a character whose continuation bytes are
    being read, kept in 32 bits.  A byte below [0xc0] is a character of
    its own. *)
Fixpoint chars_from (open : option Z) (s : string) : list Z :=
  match s with
  | EmptyString =>
      match open with Some c => [utf8_close c] | None => [] end
  | String a s' =>
      let b := byte a in
      let start :=
        if b =? 0 then []
        else if b <? 0xc0 then b :: chars_from None s'
        else chars_from (Some (utf8_trans1 b)) s' in
      match open with
      | Some c =>
          if is_continuation b
          then chars_from (Some ((c * 64 + Z.land b 0x3f) mod 2 ^ 32)) s'
          else utf8_close c :: start
      | None => start
      end
  end.

Definition chars (s : string) : list Z := chars_from None s.

(** [sqlite3Tolower] and [sqlite3Toupper]: the 26 ASCII letters only. *)
Definition tolower (c : Z) : Z :=
  if (65 <=? c) && (c <=? 90) then c + 32 else c.

Definition toupper (c : Z) : Z :=
  if (97 <=? c) && (c <=? 122) then c - 32 else c.

Inductive Outcome := MATCH | NOMATCH | NOWILDCARDMATCH.

(** A pattern character and a text character agree:
    [c == c2 || (noCase && tolower(c) == tolower(c2) && c < 0x80 && c2 < 0x80)]. *)
Definition same (c c2 : Z) : bool :=
  (c =? c2) || ((tolower c =? tolower c2) && (c <? 0x80) && (c2 <? 0x80)).

(** The scan after a [%] stops at [c2]: for [c] below [0x80] the bytes
    [toupper(c)] and [tolower(c)] are looked for, otherwise the
    character [c] itself. *)
Definition stops (c c2 : Z) : bool :=
  if c <? 0x80 then (c2 =? toupper c) || (c2 =? tolower c) else c2 =? c.

(** The scan after a [%] for the pattern character [c]: at every place
    it stops, the rest of the pattern is tried on the rest of the text,
    and anything but [NOMATCH] ends the scan. *)
Definition search (rest : list Z -> Outcome) (c : Z)
  : list Z -> Outcome :=
  fix search (s : list Z) : Outcome :=
    match s with
    | [] => NOWILDCARDMATCH
    | c2 :: s' =>
        if stops c c2
        then match rest s' with
             | NOMATCH => search s'
             | r => r
             end
        else search s'
    end.

(** [patternCompare] for LIKE without ESCAPE: [%] is character 37 and
    [_] is character 95.  [star] is set inside the loop that follows a
    [%], which skips further [%] and takes one character of the text for
    each [_] before the scan starts. *)
Fixpoint patternCompare_from (star : bool) (p s : list Z) {struct p}
  : Outcome :=
  match p with
  | [] =>
      if star then MATCH
      else match s with [] => MATCH | _ :: _ => NOMATCH end
  | c :: p' =>
      if c =? 37 then patternCompare_from true p' s
      else if star then
        if c =? 95
        then match s with
             | [] => NOWILDCARDMATCH
             | _ :: s' => patternCompare_from true p' s'
             end
        else search (patternCompare_from false p') c s
      else
        match s with
        | [] => NOMATCH
        | c2 :: s' =>
            if same c c2 || (c =? 95)
            then patternCompare_from false p' s'
            else NOMATCH
        end
  end.

Definition patternCompare (p s : list Z) : Outcome :=
  patternCompare_from false p s.

(** [s LIKE p] when the function returns. *)
Definition like (p s : string) : bool :=
  match patternCompare (chars p) (chars s) with
  | MATCH => true
  | _ => false
  end.

Definition SQLITE_MAX_LIKE_PATTERN_LENGTH : Z := 50000.

(** [likeFunc]: a pattern of more bytes than the limit is the error
    ["LIKE or GLOB pattern too complex"]. *)
Definition likeFunc (p s : string) : Result bool :=
  if SQLITE_MAX_LIKE_PATTERN_LENGTH <? Z.of_nat (String.length p)
  then Throw SQLITE_ERROR
  else Ok (like p s).

End Sqlite.

(** Template literal [`${n}`] of a natural number. *)
Definition decimal (n : nat) : string := NilEmpty.string_of_uint (Nat.to_uint n).

(** What the runtime hands out: [uuidv4 k] is the result of the [k]-th
    call of [uuidv4()], [random k] the numerator over [2^53] of the
    [k]-th [Math.random()]. *)
Record Entropy := mkEntropy { uuidv4 : nat -> string; random : nat -> Z }.

(** [Math.floor(Math.random() * n)] for the draw [r]. *)
Definition floor_mul (r n : Z) : Z := (r mod 2 ^ 53) * n / 2 ^ 53.

(** [arr[Math.floor(Math.random() * arr.length)]]. *)
Definition pick (arr : list string) (r : Z) : string :=
  nth (Z.to_nat (floor_mul r (Z.of_nat (List.length arr)))) arr "".

(** ** server/database.ts *)

Module Db.

Record Database := mkDb
  { chats : list ChatRow.t; messages : list MessageRow.t }.

Definition empty : Database := mkDb [] [].

Definition has_chat (d : Database) (cid : string) : bool :=
  existsb (fun c => String.eqb (ChatRow.id c) cid) (chats d).

Definition has_message (d : Database) (mid : string) : bool :=
  existsb (fun m => String.eqb (MessageRow.id m) mid) (messages d).

(** A prepared statement that writes. *)
Definition Statement := Database -> Result Database.

(** [INSERT INTO chats (id, title, lastMessageAt, unreadCount, createdAt)];
    [id] is the primary key. *)
Definition insertChat (c : ChatRow.t) : Statement := fun d =>
  if has_chat d (ChatRow.id c) then Throw SQLITE_CONSTRAINT_PRIMARYKEY
  else Ok (mkDb (chats d ++ [c])%list (messages d)).

(** [INSERT INTO messages (id, chatId, ts, sender, body, createdAt)];
    [id] is the primary key and [chatId] references [chats(id)], which
    better-sqlite3 enforces. *)
Definition insertMessage (m : MessageRow.t) : Statement := fun d =>
  if has_message d (MessageRow.id m) then Throw SQLITE_CONSTRAINT_PRIMARYKEY
  else if has_chat d (MessageRow.chatId m) then
    Ok (mkDb (chats d) (messages d ++ [m])%list)
  else Throw SQLITE_CONSTRAINT_FOREIGNKEY.

(** [SET lastMessageAt = ?, unreadCount = unreadCount + 1] on one row. *)
Definition bump (ts : Z) (c : ChatRow.t) : ChatRow.t :=
  ChatRow.mk (ChatRow.id c) (ChatRow.title c) ts
             (ChatRow.unreadCount c + 1) (ChatRow.createdAt c).

(** [UPDATE chats SET lastMessageAt = ?, unreadCount = unreadCount + 1
     WHERE id = ?], run with [(ts, chatId)]. *)
Definition updateChat (ts : Z) (cid : string) : Statement := fun d =>
  Ok (mkDb (map (fun c => if String.eqb (ChatRow.id c) cid then bump ts c else c)
                (chats d))
           (messages d)).

(** *** Connection and transactions

    A connection holds the committed database, which is what every read
    outside the running transaction sees (a later call on this
    connection, or another WAL reader), and the working copy of the
    transaction in progress, if any. *)
Record Connection := mkConn
  { committed : Database; working : option Database }.

Definition idle (d : Database) : Connection := mkConn d None.

Inductive Op :=
| BEGIN
| RUN (s : Statement)
| COMMIT.

(** One operation on the connection.  A statement outside a transaction
    commits by itself. *)
Definition exec (o : Op) (c : Connection) : Result Connection :=
  match o with
  | BEGIN => Ok (mkConn (committed c) (Some (committed c)))
  | RUN s =>
      match working c with
      | Some w =>
          match s w with
          | Ok w' => Ok (mkConn (committed c) (Some w'))
          | Throw e => Throw e
          end
      | None =>
          match s (committed c) with
          | Ok d' => Ok (mkConn d' None)
          | Throw e => Throw e
          end
      end
  | COMMIT =>
      match working c with
      | Some w => Ok (mkConn w None)
      | None => Ok c
      end
  end.

(** [ROLLBACK], also what recovery does after the process died with a
    transaction open: the working copy is dropped. *)
Definition rollback (c : Connection) : Connection :=
  mkConn (committed c) None.

(** Runs [ops] in order.  [crash] is the number of operations after
    which the process is killed ([None]: it is not); a statement that
    throws ends the run with a rollback.  Returns every connection state
    passed through, oldest first, the last one, and the exception if
    one was thrown. *)
Fixpoint exec_all (ops : list Op) (crash : option nat) (c : Connection)
  : list Connection * (Connection * option Error) :=
  match crash with
  | Some O => ([rollback c], (rollback c, None))
  | _ =>
      match ops with
      | [] => ([], (c, None))
      | o :: ops' =>
          match exec o c with
          | Ok c' =>
              let '(tr, r) := exec_all ops' (option_map Nat.pred crash) c' in
              (c' :: tr, r)
          | Throw e => ([rollback c], (rollback c, Some e))
          end
      end
  end.

(** [database.transaction(fn)()] where [fn] runs the statements [body]:
    BEGIN, the body, COMMIT; an exception rolls back and is rethrown. *)
Definition transaction_ops (body : list Statement) : list Op :=
  (BEGIN :: map RUN body ++ [COMMIT])%list.

Definition transaction (body : list Statement) (d : Database)
  : Result unit * Database :=
  match snd (exec_all (transaction_ops body) None (idle d)) with
  | (c, None) => (Ok tt, committed c)
  | (c, Some e) => (Throw e, committed c)
  end.

(** The statements of [addMessage]'s transaction; [uuid] is what
    [uuidv4()] returned and [now] what [Date.now()] returned. *)
Definition addMessage_body (uuid : string) (now : Z)
           (chatId sender body : string) (ts : Z) : list Statement :=
  [ insertMessage (MessageRow.mk uuid chatId ts sender body now);
    updateChat ts chatId ].

Definition addMessage (uuid : string) (now : Z)
           (chatId sender body : string) (ts : Z) (d : Database)
  : Result unit * Database :=
  transaction (addMessage_body uuid now chatId sender body ts) d.

(** What readers can see while [addMessage] runs and after it, the
    process being killed after [crash] operations if [crash] is set. *)
Definition addMessage_observable (uuid : string) (now : Z)
           (chatId sender body : string) (ts : Z) (crash : option nat)
           (d : Database) : list Database :=
  map committed
      (fst (exec_all
              (transaction_ops (addMessage_body uuid now chatId sender body ts))
              crash (idle d))).

(** [addMessage]'s two statements run without [database.transaction]. *)
Definition addMessage_autocommit_observable (uuid : string) (now : Z)
           (chatId sender body : string) (ts : Z) (crash : option nat)
           (d : Database) : list Database :=
  map committed
      (fst (exec_all
              (map RUN (addMessage_body uuid now chatId sender body ts))
              crash (idle d))).

Definition chat_of_row (c : ChatRow.t) : Chat.t :=
  Chat.mk (ChatRow.id c) (ChatRow.title c) (ChatRow.lastMessageAt c)
          (ChatRow.unreadCount c).

Definition message_of_row (m : MessageRow.t) : Message.t :=
  Message.mk (MessageRow.id m) (MessageRow.chatId m) (MessageRow.ts m)
             (MessageRow.sender m) (MessageRow.body m).

(** [SELECT id, title, lastMessageAt, unreadCount FROM chats
     ORDER BY lastMessageAt DESC LIMIT ? OFFSET ?]. *)
Definition getChats (limit offset : option Z) (d : Database) : list Chat.t :=
  map chat_of_row
      (limit_offset (default_arg 50 limit) (default_arg 0 offset)
         (order_by_desc ChatRow.lastMessageAt (chats d))).

(** [SELECT id, chatId, ts, sender, body FROM messages WHERE chatId = ?
     ORDER BY ts DESC LIMIT ? OFFSET ?]. *)
Definition getMessages (chatId : string) (limit offset : option Z)
           (d : Database) : list Message.t :=
  map message_of_row
      (limit_offset (default_arg 50 limit) (default_arg 0 offset)
         (order_by_desc MessageRow.ts
            (filter (fun m => String.eqb (MessageRow.chatId m) chatId) (messages d)))).

(** [UPDATE chats SET unreadCount = 0 WHERE id = ?]. *)
Definition markChatAsRead (chatId : string) (d : Database) : Database :=
  mkDb (map (fun c => if String.eqb (ChatRow.id c) chatId
                      then ChatRow.mk (ChatRow.id c) (ChatRow.title c)
                             (ChatRow.lastMessageAt c) 0 (ChatRow.createdAt c)
                      else c) (chats d))
       (messages d).

(** [WHERE ... AND body LIKE ?] over the rows of the chat, met one after
    the other: a row whose LIKE fails ends the query with its error. *)
Fixpoint where_body_like (pattern : string) (rows : list MessageRow.t)
  : Result (list MessageRow.t) :=
  match rows with
  | [] => Ok []
  | m :: rows' =>
      match Sqlite.likeFunc pattern (MessageRow.body m) with
      | Throw e => Throw e
      | Ok b =>
          match where_body_like pattern rows' with
          | Throw e => Throw e
          | Ok l => Ok (if b then m :: l else l)
          end
      end
  end.

(** [SELECT id, chatId, ts, sender, body FROM messages
     WHERE chatId = ? AND body LIKE ? ORDER BY ts DESC LIMIT 50], run
    with [(chatId, `%${query}%`)]. *)
Definition searchMessages (chatId query : string) (d : Database)
  : Result (list Message.t) :=
  match where_body_like ("%" ++ query ++ "%")
          (filter (fun m => String.eqb (MessageRow.chatId m) chatId)
                  (messages d)) with
  | Throw e => Throw e
  | Ok rows =>
      Ok (map message_of_row
              (limit_offset 50 0 (order_by_desc MessageRow.ts rows)))
  end.

(** *** Seeding *)

Definition senders : list string :=
  ["Alice"; "Bob"; "Charlie"; "Diana"; "Eve"].

Definition seed_texts : list string :=
  [ "Hey, how are you?"; "Just finished the project";
    "Let's sync up tomorrow"; "Did you see the update?";
    "Looks good to me"; "I agree completely"; "When are you free?";
    "Can we schedule a meeting?"; "Thanks for the help";
    "No problem, happy to assist"; "See you at 3pm";
    "Perfect, see you then"; "What do you think?"; "Sounds like a plan";
    "Let me know ASAP" ].

(** The inner loop of [seedData]: [n] messages for chat [chatId], the
    next [uuidv4()] being call [u] and the next [Math.random()] call
    [r].  The timestamp is a real number in the source; its fraction of
    a millisecond is dropped here. *)
Fixpoint seed_messages (e : Entropy) (now : Z) (chatId : string)
         (n u r : nat) : list Statement :=
  match n with
  | O => []
  | S n' =>
      let sender := pick senders (random e r) in
      let body := pick seed_texts (random e (r + 1)) in
      let ts := now - floor_mul (random e (r + 2)) (7 * 24 * 60 * 60 * 1000) in
      insertMessage (MessageRow.mk (uuidv4 e u) chatId ts sender body now)
      :: seed_messages e now chatId n' (S u) (r + 3)
  end.

(** [Math.floor(Math.random() * 50) + 100]. *)
Definition messageCountPerChat (e : Entropy) (r : nat) : nat :=
  Z.to_nat (floor_mul (random e r) 50 + 100).

(** The outer loop of [seedData] over the generated chats
    [(id, title)]. *)
Fixpoint seed_chats (e : Entropy) (now : Z) (cs : list (string * string))
         (u r : nat) : list Statement :=
  match cs with
  | [] => []
  | (cid, ctitle) :: cs' =>
      let n := messageCountPerChat e r in
      (insertChat (ChatRow.mk cid ctitle now 0 now)
       :: seed_messages e now cid n u (S r)
          ++ seed_chats e now cs' (u + n) (S r + 3 * n))%list
  end.

(** [SELECT MAX(ts) as ts FROM messages WHERE chatId = ?]; [None] is
    NULL. *)
Definition getLastMessage (cid : string) (d : Database) : option Z :=
  fold_left (fun acc m =>
               if String.eqb (MessageRow.chatId m) cid
               then match acc with
                    | Some t => Some (Z.max t (MessageRow.ts m))
                    | None => Some (MessageRow.ts m)
                    end
               else acc)
            (messages d) None.

(** [if (lastMessage?.ts) updateChat.run(lastMessage.ts, chat.id)] with
    [UPDATE chats SET lastMessageAt = ? WHERE id = ?]. *)
Definition refreshLastMessageAt (cid : string) : Statement := fun d =>
  match getLastMessage cid d with
  | Some t =>
      if t =? 0 then Ok d
      else Ok (mkDb (map (fun c => if String.eqb (ChatRow.id c) cid
                                   then ChatRow.mk (ChatRow.id c) (ChatRow.title c)
                                          t (ChatRow.unreadCount c)
                                          (ChatRow.createdAt c)
                                   else c) (chats d))
                    (messages d))
  | None => Ok d
  end.

(** [Array.from({ length: n }, (_, i) => ({ id: uuidv4(), title:
    `Chat ${i + 1}` }))]. *)
Definition generated_chats (e : Entropy) (n : nat) : list (string * string) :=
  map (fun i => (uuidv4 e i, "Chat " ++ decimal (i + 1))) (seq 0 n).

Definition seedData_body (e : Entropy) (now : Z) : list Statement :=
  let cs := generated_chats e 200 in
  (seed_chats e now cs 200 0 ++ map (fun c => refreshLastMessageAt (fst c)) cs)%list.

Definition seedData (e : Entropy) (now : Z) (d : Database)
  : Result unit * Database :=
  transaction (seedData_body e now) d.

(** [initializeDatabase]: the tables are created if missing, then
    [SELECT COUNT( * ) FROM chats] decides whether to seed. *)
Definition initializeDatabase (e : Entropy) (now : Z) (d : Database)
  : Result unit * Database :=
  if Z.of_nat (List.length (chats d)) =? 0 then seedData e now d
  else (Ok tt, d).

End Db.

(** ** main.ts: what the renderer reaches through IPC *)

Module Ipc.

(** [ipcMain.handle('db:getChats', (_, limit = 50, offset = 0) => ...)]. *)
Definition getChats (limit offset : option Z) (d : Db.Database) : list Chat.t :=
  Db.getChats (Some (default_arg 50 limit)) (Some (default_arg 0 offset)) d.

Definition getMessages (chatId : string) (limit offset : option Z)
           (d : Db.Database) : list Message.t :=
  Db.getMessages chatId (Some (default_arg 50 limit))
                 (Some (default_arg 0 offset)) d.

Definition searchMessages (chatId query : string) (d : Db.Database)
  : Result (list Message.t) :=
  Db.searchMessages chatId query d.

Definition markChatAsRead (chatId : string) (d : Db.Database) : Db.Database :=
  Db.markChatAsRead chatId d.

(** [ipcMain.handle('db:seedData', ...)] calls [seedData] itself. *)
Definition seedData (e : Entropy) (now : Z) (d : Db.Database)
  : Result unit * Db.Database :=
  Db.seedData e now d.

End Ipc.

(** ** store/index.ts *)

Module Redux.

Inductive ConnectionState := connected | reconnecting | offline.

Module ConnectionSlice.
Record t := mk
  { state : ConnectionState; reconnectAttempt : Z; backoffDelay : Z }.
Definition initialState : t := mk offline 0 1000.
End ConnectionSlice.

Module ChatsSlice.
Record t := mk
  { items : list Chat.t; selectedId : option string; isLoading : bool;
    offset : Z; hasMore : bool }.
Definition initialState : t := mk [] None false 0 true.
End ChatsSlice.

Module MessagesSlice.
Record t := mk
  { items : list Message.t; isLoading : bool; offset : Z; hasMore : bool }.
Definition initialState : t := mk [] false 0 true.
End MessagesSlice.

Module SearchSlice.
Record t := mk
  { query : string; results : list Message.t; isSearching : bool }.
Definition initialState : t := mk "" [] false.
End SearchSlice.

Record AppState := mkState
  { connection : ConnectionSlice.t; chats : ChatsSlice.t;
    messages : MessagesSlice.t; search : SearchSlice.t }.

Definition initialState : AppState :=
  mkState ConnectionSlice.initialState ChatsSlice.initialState
          MessagesSlice.initialState SearchSlice.initialState.

(** [Math.min(1000 * Math.pow(2, attempt - 1), 30000)].  The exponent is
    never negative where the source evaluates this: [attempt] has just
    been incremented from a counter that starts at 0. *)
Definition backoff (attempt : Z) : Z :=
  Z.min (1000 * 2 ^ (attempt - 1)) 30000.

(** *** connectionSlice *)

Definition setConnectionState (p : ConnectionState) (s : ConnectionSlice.t)
  : ConnectionSlice.t :=
  match p with
  | connected => ConnectionSlice.mk p 0 1000
  | _ => ConnectionSlice.mk p (ConnectionSlice.reconnectAttempt s)
                       (ConnectionSlice.backoffDelay s)
  end.

Definition incrementReconnectAttempt (s : ConnectionSlice.t) : ConnectionSlice.t :=
  let attempt := ConnectionSlice.reconnectAttempt s + 1 in
  ConnectionSlice.mk (ConnectionSlice.state s) attempt (backoff attempt).

(** *** chatsSlice *)

(** Assignment to a field of [items.find(p)], when there is one. *)
Fixpoint update_first {A} (p : A -> bool) (f : A -> A) (l : list A) : list A :=
  match l with
  | [] => []
  | x :: l' => if p x then f x :: l' else x :: update_first p f l'
  end.

Definition is_chat (chatId : string) (c : Chat.t) : bool :=
  String.eqb (Chat.id c) chatId.

Definition setChats (p : list Chat.t) (s : ChatsSlice.t) : ChatsSlice.t :=
  ChatsSlice.mk p (ChatsSlice.selectedId s) false (ChatsSlice.offset s)
                (ChatsSlice.hasMore s).

Definition appendChats (p : list Chat.t) (s : ChatsSlice.t) : ChatsSlice.t :=
  ChatsSlice.mk (ChatsSlice.items s ++ p)%list (ChatsSlice.selectedId s) false
           (ChatsSlice.offset s + Z.of_nat (List.length p))
           (Z.of_nat (List.length p) >=? 50).

Definition selectChat (p : string) (s : ChatsSlice.t) : ChatsSlice.t :=
  ChatsSlice.mk (ChatsSlice.items s) (Some p) (ChatsSlice.isLoading s)
                (ChatsSlice.offset s) (ChatsSlice.hasMore s).

Definition with_items (f : list Chat.t -> list Chat.t) (s : ChatsSlice.t)
  : ChatsSlice.t :=
  ChatsSlice.mk (f (ChatsSlice.items s)) (ChatsSlice.selectedId s)
                (ChatsSlice.isLoading s) (ChatsSlice.offset s)
                (ChatsSlice.hasMore s).

Definition updateChatUnreadCount (chatId : string) (unreadCount : Z)
           (s : ChatsSlice.t) : ChatsSlice.t :=
  with_items
    (update_first (is_chat chatId)
       (fun c => Chat.mk (Chat.id c) (Chat.title c) (Chat.lastMessageAt c)
                         unreadCount))
    s.

Definition updateChatLastMessage (chatId : string) (ts : Z) (s : ChatsSlice.t)
  : ChatsSlice.t :=
  match find (is_chat chatId) (ChatsSlice.items s) with
  | Some _ =>
      with_items
        (fun l =>
           order_by_desc Chat.lastMessageAt
             (update_first (is_chat chatId)
                (fun c => Chat.mk (Chat.id c) (Chat.title c) ts
                                  (Chat.unreadCount c))
                l))
        s
  | None => s
  end.

Definition setChatsLoading (p : bool) (s : ChatsSlice.t) : ChatsSlice.t :=
  ChatsSlice.mk (ChatsSlice.items s) (ChatsSlice.selectedId s) p (ChatsSlice.offset s)
           (ChatsSlice.hasMore s).

(** *** messagesSlice *)

Definition setMessages (p : list Message.t) (s : MessagesSlice.t) : MessagesSlice.t :=
  MessagesSlice.mk (rev p) false 0 (MessagesSlice.hasMore s).

Definition prependMessages (p : list Message.t) (s : MessagesSlice.t) : MessagesSlice.t :=
  MessagesSlice.mk (rev p ++ MessagesSlice.items s)%list false
              (MessagesSlice.offset s + Z.of_nat (List.length p))
              (Z.of_nat (List.length p) >=? 50).

Definition appendMessage (p : Message.t) (s : MessagesSlice.t) : MessagesSlice.t :=
  MessagesSlice.mk (MessagesSlice.items s ++ [p])%list (MessagesSlice.isLoading s)
              (MessagesSlice.offset s) (MessagesSlice.hasMore s).

Definition setMessagesLoading (p : bool) (s : MessagesSlice.t) : MessagesSlice.t :=
  MessagesSlice.mk (MessagesSlice.items s) p (MessagesSlice.offset s)
                   (MessagesSlice.hasMore s).

Definition clearMessages (s : MessagesSlice.t) : MessagesSlice.t :=
  MessagesSlice.mk [] (MessagesSlice.isLoading s) 0 true.

(** *** The actions the connection client and the chat list dispatch *)

Inductive Action :=
| SetConnectionState (p : ConnectionState)
| IncrementReconnectAttempt
| SetChats (p : list Chat.t)
| AppendChats (p : list Chat.t)
| SelectChat (p : string)
| UpdateChatUnreadCount (chatId : string) (unreadCount : Z)
| UpdateChatLastMessage (chatId : string) (ts : Z)
| SetChatsLoading (p : bool)
| SetMessages (p : list Message.t)
| PrependMessages (p : list Message.t)
| AppendMessage (p : Message.t)
| SetMessagesLoading (p : bool)
| ClearMessages.

Definition on_connection (f : ConnectionSlice.t -> ConnectionSlice.t) (s : AppState) :=
  mkState (f (connection s)) (chats s) (messages s) (search s).
Definition on_chats (f : ChatsSlice.t -> ChatsSlice.t) (s : AppState) :=
  mkState (connection s) (f (chats s)) (messages s) (search s).
Definition on_messages (f : MessagesSlice.t -> MessagesSlice.t) (s : AppState) :=
  mkState (connection s) (chats s) (f (messages s)) (search s).

Definition dispatch (a : Action) (s : AppState) : AppState :=
  match a with
  | SetConnectionState p => on_connection (setConnectionState p) s
  | IncrementReconnectAttempt => on_connection incrementReconnectAttempt s
  | SetChats p => on_chats (setChats p) s
  | AppendChats p => on_chats (appendChats p) s
  | SelectChat p => on_chats (selectChat p) s
  | UpdateChatUnreadCount c n => on_chats (updateChatUnreadCount c n) s
  | UpdateChatLastMessage c t => on_chats (updateChatLastMessage c t) s
  | SetChatsLoading p => on_chats (setChatsLoading p) s
  | SetMessages p => on_messages (setMessages p) s
  | PrependMessages p => on_messages (prependMessages p) s
  | AppendMessage p => on_messages (appendMessage p) s
  | SetMessagesLoading p => on_messages (setMessagesLoading p) s
  | ClearMessages => on_messages clearMessages s
  end.

End Redux.

(** ** Sockets, as both ends use them *)

Inductive ReadyState := CONNECTING | OPEN | CLOSING | CLOSED.

Definition is_open (r : option ReadyState) : bool :=
  match r with Some OPEN => true | _ => false end.

Fixpoint set_nth {A} (n : nat) (x : A) (l : list A) : list A :=
  match l, n with
  | [], _ => []
  | _ :: l', O => x :: l'
  | y :: l', S n' => y :: set_nth n' x l'
  end.

(** [newMessage] frame on the wire. *)
Record NewMessage := mkNewMessage
  { ev_chatId : string; ev_messageId : string; ev_ts : Z;
    ev_sender : string; ev_body : string }.

(** ** server/websocket.ts *)

Module Broker.

Definition senders : list string :=
  ["Alice"; "Bob"; "Charlie"; "Diana"; "Eve"].

Definition messageTexts : list string :=
  [ "Hey, how are you?"; "Just finished the project";
    "Let's sync up tomorrow"; "Did you see the update?";
    "Looks good to me"; "I agree completely"; "When are you free?";
    "Can we schedule a meeting?"; "Thanks for the help";
    "No problem, happy to assist" ].

(** [clients] is [wss.clients] ([None] while [wss] is null); [sent]
    records every [client.send], newest last, as (client, frame). *)
Record Server := mkServer
  { db : Db.Database;
    clients : option (list ReadyState);
    isEmittingMessages : bool;
    sent : list (nat * NewMessage) }.

(** What one run of the emitter's callback draws from the runtime, in
    the order the source asks for it. *)
Record Tick := mkTick
  { random_chat : Z;        (* ORDER BY RANDOM() LIMIT 1 *)
    random_sender : Z;      (* Math.random() *)
    random_text : Z;        (* Math.random() *)
    tick_now : Z;           (* const ts = Date.now() *)
    tick_uuid : string;     (* const messageId = uuidv4() *)
    addMessage_uuid : string;  (* uuidv4() inside addMessage *)
    addMessage_now : Z }.      (* Date.now() inside addMessage *)

(** [SELECT id FROM chats ORDER BY RANDOM() LIMIT 1]. *)
Definition random_chat_id (r : Z) (d : Db.Database) : option string :=
  option_map ChatRow.id
    (nth_error (Db.chats d)
       (Z.to_nat (floor_mul r (Z.of_nat (List.length (Db.chats d)))))).

(** [wss.clients.forEach(client => { if (client.readyState === OPEN)
    client.send(JSON.stringify(event)) })]. *)
Fixpoint broadcast_from (i : nat) (cs : list ReadyState) (ev : NewMessage)
  : list (nat * NewMessage) :=
  match cs with
  | [] => []
  | r :: cs' =>
      if is_open (Some r) then (i, ev) :: broadcast_from (S i) cs' ev
      else broadcast_from (S i) cs' ev
  end.

Definition broadcast (ev : NewMessage) (s : Server) : Server :=
  match clients s with
  | Some cs =>
      mkServer (db s) (clients s) (isEmittingMessages s)
               (sent s ++ broadcast_from 0 cs ev)%list
  | None => s
  end.

(** The callback of [startMessageEmitter]'s interval. *)
Definition emit (t : Tick) (s : Server) : Server :=
  if negb (isEmittingMessages s) then s
  else
    match random_chat_id (random_chat t) (db s) with
    | None => s
    | Some chatId =>
        let sender := pick senders (random_sender t) in
        let body := pick messageTexts (random_text t) in
        let ts := tick_now t in
        let messageId := tick_uuid t in
        match Db.addMessage (addMessage_uuid t) (addMessage_now t)
                            chatId sender body ts (db s) with
        | (Ok _, d') =>
            broadcast (mkNewMessage chatId messageId ts sender body)
                      (mkServer d' (clients s) (isEmittingMessages s) (sent s))
        | (Throw _, d') =>
            mkServer d' (clients s) (isEmittingMessages s) (sent s)
        end
    end.

(** [simulateConnectionDrop]: [client.close()] on every client. *)
Definition simulateConnectionDrop (s : Server) : Server :=
  mkServer (db s)
           (option_map (map (fun r => match r with
                                      | CONNECTING | OPEN => CLOSING
                                      | _ => r
                                      end)) (clients s))
           (isEmittingMessages s) (sent s).

End Broker.

(** ** hooks/useWebSocket.ts *)

Module Client.

Inductive TimerKind :=
| Heartbeat    (* the callback set by resetHeartbeat *)
| Reconnect.   (* the callback set by scheduleReconnect *)

Record Timer := mkTimer { timer_id : nat; kind : TimerKind; delay : Z }.

(** What the client sends: [JSON.stringify({ type: 'ping' })]. *)
Inductive ClientFrame := PingFrame.

(** What [JSON.parse(event.data)] gives the message handler: an
    exception, or an object with its [type] and the fields the handler
    reads. *)
Inductive Data :=
| Malformed
| Json (type : string) (fields : NewMessage).

(** The one Redux store of the renderer. *)
Inductive StoreRef := the_store.

Record WebSocketClient := mkClient
  { ws : option nat;
    reconnectAttempt : Z;
    heartbeatTimeout : option nat;
    reconnectTimeout : option nat;
    store : option StoreRef;
    maxReconnectAttempts : Z }.

(** [new WebSocketClient()]. *)
Definition new_client : WebSocketClient := mkClient None 0 None None None 10.

(** The renderer as far as the client touches it: the client object,
    the state held by the Redux store, the sockets constructed so far
    (a socket is named by its position), the timeouts that are pending,
    the frames sent (socket, payload), and whether [new WebSocket]
    throws. *)
Record World := mkWorld
  { client : WebSocketClient;
    redux : Redux.AppState;
    sockets : list ReadyState;
    timers : list Timer;
    next_timer : nat;
    frames : list (nat * ClientFrame);
    WebSocket_throws : bool }.

Definition boot : World :=
  mkWorld new_client Redux.initialState [] [] 1 [] false.

Definition with_client (f : WebSocketClient -> WebSocketClient) (w : World) :=
  mkWorld (f (client w)) (redux w) (sockets w) (timers w) (next_timer w)
          (frames w) (WebSocket_throws w).

Definition with_redux (f : Redux.AppState -> Redux.AppState) (w : World) :=
  mkWorld (client w) (f (redux w)) (sockets w) (timers w) (next_timer w)
          (frames w) (WebSocket_throws w).

Definition with_sockets (f : list ReadyState -> list ReadyState) (w : World) :=
  mkWorld (client w) (redux w) (f (sockets w)) (timers w) (next_timer w)
          (frames w) (WebSocket_throws w).

Definition readyState (w : World) (s : nat) : option ReadyState :=
  nth_error (sockets w) s.

(** [if (this.store) this.store.dispatch(a)]. *)
Definition dispatch_if_store (a : Redux.Action) (w : World) : World :=
  match store (client w) with
  | Some _ => with_redux (Redux.dispatch a) w
  | None => w
  end.

(** [setTimeout(callback, delay)]; the new id is returned. *)
Definition setTimeout (k : TimerKind) (d : Z) (w : World) : nat * World :=
  (next_timer w,
   mkWorld (client w) (redux w) (sockets w)
           (timers w ++ [mkTimer (next_timer w) k d])%list
           (S (next_timer w)) (frames w) (WebSocket_throws w)).

Definition clearTimeout (t : nat) (w : World) : World :=
  mkWorld (client w) (redux w) (sockets w)
          (filter (fun x => negb (Nat.eqb (timer_id x) t)) (timers w))
          (next_timer w) (frames w) (WebSocket_throws w).

(** [socket.send(payload)]. *)
Definition send (s : nat) (payload : ClientFrame) (w : World) : World :=
  mkWorld (client w) (redux w) (sockets w) (timers w) (next_timer w)
          (frames w ++ [(s, payload)])%list (WebSocket_throws w).

(** [socket.close()]: a socket that is connecting or open starts
    closing, its close event follows later. *)
Definition socket_close (s : nat) (w : World) : World :=
  match readyState w s with
  | Some CONNECTING | Some OPEN => with_sockets (set_nth s CLOSING) w
  | _ => w
  end.

Definition set_ws (x : option nat) (c : WebSocketClient) :=
  mkClient x (reconnectAttempt c) (heartbeatTimeout c) (reconnectTimeout c)
           (store c) (maxReconnectAttempts c).
Definition set_reconnectAttempt (x : Z) (c : WebSocketClient) :=
  mkClient (ws c) x (heartbeatTimeout c) (reconnectTimeout c)
           (store c) (maxReconnectAttempts c).
Definition set_heartbeatTimeout (x : option nat) (c : WebSocketClient) :=
  mkClient (ws c) (reconnectAttempt c) x (reconnectTimeout c)
           (store c) (maxReconnectAttempts c).
Definition set_reconnectTimeout (x : option nat) (c : WebSocketClient) :=
  mkClient (ws c) (reconnectAttempt c) (heartbeatTimeout c) x
           (store c) (maxReconnectAttempts c).
Definition set_store (x : option StoreRef) (c : WebSocketClient) :=
  mkClient (ws c) (reconnectAttempt c) (heartbeatTimeout c)
           (reconnectTimeout c) x (maxReconnectAttempts c).

Definition clearHeartbeat (w : World) : World :=
  match heartbeatTimeout (client w) with
  | Some t => with_client (set_heartbeatTimeout None) (clearTimeout t w)
  | None => w
  end.

Definition resetHeartbeat (w : World) : World :=
  let '(t, w1) := setTimeout Heartbeat 10000 (clearHeartbeat w) in
  with_client (set_heartbeatTimeout (Some t)) w1.

(** The callback of the heartbeat timeout. *)
Definition heartbeat_callback (w : World) : World :=
  match ws (client w) with
  | Some s => if is_open (readyState w s) then send s PingFrame w
              else w
  | None => w
  end.

(** [Math.min(1000 * Math.pow(2, this.reconnectAttempt - 1), 30000)];
    the counter has just been incremented from a value that is never
    negative. *)
Definition reconnect_delay (attempt : Z) : Z :=
  Z.min (1000 * 2 ^ (attempt - 1)) 30000.

Definition scheduleReconnect (w : World) : World :=
  if maxReconnectAttempts (client w) <=? reconnectAttempt (client w) then w
  else
    let attempt := reconnectAttempt (client w) + 1 in
    let w1 := with_client (set_reconnectAttempt attempt) w in
    let w2 := dispatch_if_store Redux.IncrementReconnectAttempt w1 in
    let '(t, w3) := setTimeout Reconnect (reconnect_delay attempt) w2 in
    with_client (set_reconnectTimeout (Some t)) w3.

(** [new WebSocket(url)] and the assignment of the four handlers, or
    the catch block when the constructor throws. *)
Definition attemptConnection (w : World) : World :=
  if WebSocket_throws w then scheduleReconnect w
  else
    let s := List.length (sockets w) in
    with_client (set_ws (Some s))
                (with_sockets (fun l => l ++ [CONNECTING])%list w).

(** The callback of the reconnect timeout. *)
Definition reconnect_callback (w : World) : World :=
  let seen :=
    match store (client w) with
    | Some _ => Some (Redux.ConnectionSlice.reconnectAttempt
                        (Redux.connection (redux w)))
    | None => None
    end in
  attemptConnection (with_client (set_reconnectAttempt (js_or seen 0)) w).

Definition connect (w : World) : World :=
  attemptConnection (with_client (set_store (Some the_store)) w).

Definition onopen (w : World) : World :=
  resetHeartbeat
    (dispatch_if_store (Redux.SetConnectionState Redux.connected) w).

(** [state.chats.selectedId === chatId]. *)
Definition selected_is (chatId : string) (state : Redux.AppState) : bool :=
  match Redux.ChatsSlice.selectedId (Redux.chats state) with
  | Some sel => String.eqb sel chatId
  | None => false
  end.

(** The [newMessage] branch of the message handler; [state] is the
    snapshot [this.store.getState()] taken before the dispatches. *)
Definition on_newMessage (data : NewMessage) (w : World) : World :=
  let state := redux w in
  let message :=
    Message.mk (ev_messageId data) (ev_chatId data) (ev_ts data)
               (ev_sender data) (ev_body data) in
  let w1 := with_redux (Redux.dispatch
              (Redux.UpdateChatLastMessage (ev_chatId data) (ev_ts data))) w in
  if selected_is (ev_chatId data) state
  then with_redux (Redux.dispatch (Redux.AppendMessage message)) w1
  else with_redux (Redux.dispatch
         (Redux.UpdateChatUnreadCount (ev_chatId data)
            (js_or (option_map Chat.unreadCount
                      (find (Redux.is_chat (ev_chatId data))
                            (Redux.ChatsSlice.items (Redux.chats state))))
                   (0 + 1)))) w1.

Definition onmessage (d : Data) (w : World) : World :=
  match d with
  | Malformed => w
  | Json type data =>
      if String.eqb type "connected" then w
      else
        resetHeartbeat
          (match store (client w) with
           | Some _ => if String.eqb type "newMessage"
                       then on_newMessage data w else w
           | None => w
           end)
  end.

Definition onerror (w : World) : World :=
  dispatch_if_store (Redux.SetConnectionState Redux.offline) w.

Definition onclose (w : World) : World :=
  scheduleReconnect
    (dispatch_if_store (Redux.SetConnectionState Redux.reconnecting)
       (clearHeartbeat w)).

Definition disconnect (w : World) : World :=
  let w1 := clearHeartbeat w in
  let w2 := match reconnectTimeout (client w1) with
            | Some t => clearTimeout t w1
            | None => w1
            end in
  match ws (client w2) with
  | Some s => with_client (set_ws None) (socket_close s w2)
  | None => w2
  end.

Definition simulateConnectionDrop (w : World) : World :=
  match ws (client w) with
  | Some s => socket_close s w
  | None => w
  end.

Definition isConnected (w : World) : bool :=
  match ws (client w) with
  | Some s => is_open (readyState w s)
  | None => false
  end.

(** *** What can happen to the client

    Calls made by the application, events of a socket the client
    constructed (every socket carries the same four handlers, which act
    on the client and not on the socket they are attached to), and
    timeouts running out. *)
Inductive Event :=
| CallConnect
| CallDisconnect
| CallSimulateConnectionDrop
| SocketOpen (s : nat)
| SocketMessage (s : nat) (d : Data)
| SocketError (s : nat)
| SocketClose (s : nat)
| TimerElapsed (t : nat).

Definition fire (t : nat) (w : World) : World :=
  match find (fun x => Nat.eqb (timer_id x) t) (timers w) with
  | Some x =>
      match kind x with
      | Heartbeat => heartbeat_callback (clearTimeout t w)
      | Reconnect => reconnect_callback (clearTimeout t w)
      end
  | None => w
  end.

(** An event that the socket's state rules out changes nothing: a
    socket opens once, from connecting; messages come on an open
    socket; a closed socket is silent. *)
Definition step (e : Event) (w : World) : World :=
  match e with
  | CallConnect => connect w
  | CallDisconnect => disconnect w
  | CallSimulateConnectionDrop => simulateConnectionDrop w
  | SocketOpen s =>
      match readyState w s with
      | Some CONNECTING => onopen (with_sockets (set_nth s OPEN) w)
      | _ => w
      end
  | SocketMessage s d =>
      match readyState w s with
      | Some OPEN => onmessage d w
      | _ => w
      end
  | SocketError s =>
      match readyState w s with
      | Some CONNECTING | Some OPEN | Some CLOSING => onerror w
      | _ => w
      end
  | SocketClose s =>
      match readyState w s with
      | Some CONNECTING | Some OPEN | Some CLOSING =>
          onclose (with_sockets (set_nth s CLOSED) w)
      | _ => w
      end
  | TimerElapsed t => fire t w
  end.

Definition run (es : list Event) (w : World) : World :=
  fold_left (fun w e => step e w) es w.

(** The delays of the reconnect timeouts that are pending. *)
Definition pending_reconnects (w : World) : list Z :=
  map delay (filter (fun x => match kind x with
                              | Reconnect => true
                              | Heartbeat => false
                              end) (timers w)).

End Client.

(** * Statements

    The vocabulary in which the properties below are stated. *)

Module Spec.

(** [SELECT * FROM chats WHERE id = ?]. *)
Definition getChat (cid : string) (d : Db.Database) : option ChatRow.t :=
  find (fun c => String.eqb (ChatRow.id c) cid) (Db.chats d).

(** The database in which both effects of [addMessage] are visible. *)
Definition inserted_and_updated (uuid : string) (now : Z)
           (chatId sender body : string) (ts : Z) (d : Db.Database)
  : Db.Database :=
  Db.mkDb (map (fun c => if String.eqb (ChatRow.id c) chatId
                         then Db.bump ts c else c) (Db.chats d))
          (Db.messages d ++ [MessageRow.mk uuid chatId ts sender body now])%list.

(** The message row is there and the chat row is still the old one. *)
Definition torn (uuid chatId : string) (d v : Db.Database) : Prop :=
  Db.has_message v uuid = true /\ getChat chatId v = getChat chatId d.

(** The specification's rule for [lastMessageAt] and [unreadCount]. *)
Definition max_rule (uuid : string) (now : Z) (chatId sender body : string)
           (ts : Z) (d : Db.Database) : Prop :=
  forall c, getChat chatId d = Some c ->
    exists c',
      getChat chatId (snd (Db.addMessage uuid now chatId sender body ts d))
      = Some c'
      /\ ChatRow.lastMessageAt c' = Z.max (ChatRow.lastMessageAt c) ts
      /\ ChatRow.unreadCount c' = ChatRow.unreadCount c + 1.


(** Order of a message page as the specification has it: [ts]
    descending, then [id] ascending. *)
Definition message_before (a b : Message.t) : Prop :=
  Message.ts a > Message.ts b
  \/ (Message.ts a = Message.ts b
      /\ String.leb (Message.id a) (Message.id b) = true).

(** Order as the queries have it. *)
Definition chat_not_older (a b : Chat.t) : Prop :=
  Chat.lastMessageAt a >= Chat.lastMessageAt b.

Definition message_not_older (a b : Message.t) : Prop :=
  Message.ts a >= Message.ts b.

(** [q] is at the head of [s], up to the case of ASCII letters; both
    are sequences of characters. *)
Fixpoint prefix_ci (q s : list Z) : bool :=
  match q with
  | [] => true
  | c :: q' =>
      match s with
      | [] => false
      | d :: s' => (Sqlite.tolower c =? Sqlite.tolower d) && prefix_ci q' s'
      end
  end.

(** Some suffix of [s] satisfies [f]. *)
Fixpoint any_suffix (f : list Z -> bool) (s : list Z) : bool :=
  f s || match s with
         | [] => false
         | _ :: s' => any_suffix f s'
         end.

(** [s] contains [q], up to the case of ASCII letters. *)
Definition contains_ci (q s : list Z) : bool := any_suffix (prefix_ci q) s.

(** The text [s] contains the text [q] up to the case of ASCII letters,
    both taken character by character as SQLite reads them, a text
    ending at its first NUL. *)
Definition text_contains (q s : string) : bool :=
  contains_ci (Sqlite.chars q) (Sqlite.chars s).

Definition is_special (a : ascii) : bool :=
  Ascii.eqb a "%"%char || Ascii.eqb a "_"%char || Ascii.eqb a zero.

(** A character of a pattern that is no wildcard. *)
Definition literal (c : Z) : bool := negb (c =? 37) && negb (c =? 95).

(** A query with no [%], no [_] and no NUL in it. *)
Fixpoint plain (q : string) : bool :=
  match q with
  | EmptyString => true
  | String a q' => negb (is_special a) && plain q'
  end.

(** A query whose pattern [%q%] is within the length LIKE accepts. *)
Definition fits (q : string) : Prop :=
  Z.of_nat (String.length q) + 2 <= Sqlite.SQLITE_MAX_LIKE_PATTERN_LENGTH.

(** A text of ASCII characters other than NUL, and its bytes. *)
Fixpoint is_ascii (s : string) : bool :=
  match s with
  | EmptyString => true
  | String a s' =>
      (0 <? Sqlite.byte a) && (Sqlite.byte a <? 128) && is_ascii s'
  end.

Fixpoint bytes (s : string) : list Z :=
  match s with
  | EmptyString => []
  | String a s' => Sqlite.byte a :: bytes s'
  end.

(** The specification's rule for [searchMessages]. *)
Definition search_rule (chatId q : string) (d : Db.Database) : Prop :=
  exists rs,
    Db.searchMessages chatId q d = Ok rs
    /\ Forall (fun m => Message.chatId m = chatId
                        /\ text_contains q (Message.body m) = true) rs
    /\ Z.of_nat (List.length rs) <= 50
    /\ (q = "" -> rs = []).

(** *** Pages *)

(** The rows of a table, each with its position in the table. *)
Definition numbered {A} (rows : list A) : list (nat * A) :=
  combine (seq 0 (List.length rows)) rows.

(** The order of the queries: the row with the larger key goes first,
    and of two rows with the same key the one that is first in the
    table. *)
Definition goes_before {A} (key : A -> Z) (a b : nat * A) : Prop :=
  key (snd a) > key (snd b)
  \/ (key (snd a) = key (snd b) /\ (fst a < fst b)%nat).

(** [l] holds every row of the table once, in the order of the query. *)
Definition in_query_order {A} (key : A -> Z) (rows : list A)
           (l : list (nat * A)) : Prop :=
  Permutation l (numbered rows) /\ StronglySorted (goes_before key) l.

(** [page] is what [LIMIT limit OFFSET offset] leaves of the table in
    the order of the query: the rows after the first [offset] ones, up
    to [limit] of them, fewer only when the table ends. *)
Definition is_page {A} (key : A -> Z) (rows : list A) (limit offset : Z)
           (page : list A) : Prop :=
  exists pre mid post,
    in_query_order key rows (pre ++ mid ++ post)
    /\ page = map snd mid
    /\ List.length pre = Nat.min (Z.to_nat offset) (List.length rows)
    /\ Z.of_nat (List.length mid) <= limit
    /\ (Z.of_nat (List.length mid) = limit \/ post = []).


(** The chat's unread counter as the chat list shows it. *)
Definition unread_of (chatId : string) (w : Client.World) : option Z :=
  option_map Chat.unreadCount
    (find (Redux.is_chat chatId)
          (Redux.ChatsSlice.items (Redux.chats (Client.redux w)))).

Definition connection_state (w : Client.World) : Redux.ConnectionState :=
  Redux.ConnectionSlice.state (Redux.connection (Client.redux w)).

Definition reported_attempt (w : Client.World) : Z :=
  Redux.ConnectionSlice.reconnectAttempt (Redux.connection (Client.redux w)).

Definition reported_backoff (w : Client.World) : Z :=
  Redux.ConnectionSlice.backoffDelay (Redux.connection (Client.redux w)).

(** The socket in use errors and closes. *)
Definition connection_fails (w : Client.World) : Client.World :=
  match Client.ws (Client.client w) with
  | Some s => Client.run [Client.SocketError s; Client.SocketClose s] w
  | None => w
  end.

(** The socket in use opens. *)
Definition connection_opens (w : Client.World) : Client.World :=
  match Client.ws (Client.client w) with
  | Some s => Client.step (Client.SocketOpen s) w
  | None => w
  end.

(** The reconnect timeout set last runs out, if it is pending. *)
Definition backoff_elapses (w : Client.World) : Client.World :=
  match Client.reconnectTimeout (Client.client w) with
  | Some t => Client.step (Client.TimerElapsed t) w
  | None => w
  end.

(** The client right after its [n]-th failure in a row, starting from
    [w]: each failure is followed by the wait and the next attempt. *)
Fixpoint after_failures (n : nat) (w : Client.World) : Client.World :=
  match n with
  | O => w
  | S n' => connection_fails (backoff_elapses (after_failures n' w))
  end.

(** The client of a fresh renderer after [connect(store)]; with
    [opened], the first socket has opened and received the server's
    greeting before anything fails. *)
Definition started (opened : bool) : Client.World :=
  if opened
  then Client.run [ Client.CallConnect; Client.SocketOpen 0;
                    Client.SocketMessage 0
                      (Client.Json "connected" (mkNewMessage "" "" 0 "" "")) ]
                  Client.boot
  else Client.run [ Client.CallConnect ] Client.boot.

Definition backoffMillis (n : nat) : Z :=
  Z.min (1000 * 2 ^ (Z.of_nat n - 1)) 30000.

(** The statements of a transaction body on its working copy. *)
Fixpoint run_statements (body : list Db.Statement) (d : Db.Database)
  : Result Db.Database :=
  match body with
  | [] => Ok d
  | s :: rest =>
      match s d with
      | Ok d' => run_statements rest d'
      | Throw e => Throw e
      end
  end.

Definition chat_ids (d : Db.Database) : list string :=
  map ChatRow.id (Db.chats d).

Definition message_ids (d : Db.Database) : list string :=
  map MessageRow.id (Db.messages d).

(** An entropy source whose [k]-th uuid is ["u"] followed by [k] times
    ["x"], and whose random draws are all 0. *)
Fixpoint xs (k : nat) : string :=
  match k with
  | O => ""
  | S k' => String "x"%char (xs k')
  end.

Definition tally : Entropy := mkEntropy (fun k => String "u"%char (xs k)) (fun _ => 0).

Definition one_chat_store : Db.Database :=
  Db.mkDb [ChatRow.mk "c1" "Chat 1" 2000 0 0] [].

End Spec.

(** * Scenarios

    The concrete stores, servers and renderers the properties are tried on. *)

Definition two_chats_one_message : Db.Database :=
  Db.mkDb [ ChatRow.mk "b" "Chat b" 1000 0 0; ChatRow.mk "a" "Chat a" 1000 0 0 ]
          [ MessageRow.mk "m1" "a" 1000 "Alice" "Hi there" 1000 ].

(** Three chats of which two tie on [lastMessageAt], and four messages
    of which two of chat ["a"] tie on [ts]; in both ties the row with
    the larger id is first in the table. *)
Definition tied_store : Db.Database :=
  Db.mkDb [ ChatRow.mk "b" "Chat b" 1000 0 0; ChatRow.mk "c" "Chat c" 2000 0 0;
            ChatRow.mk "a" "Chat a" 1000 0 0 ]
          [ MessageRow.mk "m3" "a" 1000 "Bob" "second" 1000;
            MessageRow.mk "m0" "b" 1000 "Eve" "hello" 1000;
            MessageRow.mk "m1" "a" 1000 "Alice" "third" 1000;
            MessageRow.mk "m2" "a" 2000 "Alice" "first" 2000 ].

(** A NUL character, and the two bytes of the letter e with an acute
    accent. *)
Definition nul : string := String zero "".

Definition e_acute : string :=
  String (ascii_of_nat 195) (String (ascii_of_nat 169) "").

(** The renderer with the first socket open and the greeting received. *)
Definition connected_world : Client.World := Spec.started true.

(** A connected renderer whose chat list shows chat ["c1"] with [k]
    unread messages and chat ["c2"], which is the one selected. *)
Definition showing_unread (k : Z) : Client.World :=
  Client.with_redux
    (fun s => Redux.dispatch (Redux.SelectChat "c2")
                (Redux.dispatch
                   (Redux.SetChats [ Chat.mk "c1" "Chat 1" 2000 k;
                                     Chat.mk "c2" "Chat 2" 1000 0 ]) s))
    connected_world.

Definition incoming_for_c1 : Client.Event :=
  Client.SocketMessage 0
    (Client.Json "newMessage" (mkNewMessage "c1" "m9" 3000 "Bob" "Hello")).

Definition one_chat_server : Broker.Server :=
  Broker.mkServer (Db.mkDb [ChatRow.mk "c1" "Chat 1" 2000 0 0] [])
                  (Some [OPEN; CLOSED; OPEN]) true [].

Definition a_tick : Broker.Tick :=
  Broker.mkTick 0 0 0 7000 "uuid-A" "uuid-B" 7001.

(** * Further code

    The rest of the modules above, the chat list and message view
    components that drive them, and the logging helper of the security
    service. *)

(** ** Vocabulary for the store *)

Module Store.

(** Primary keys are unique and every message refers to a chat. *)
Definition well_formed (d : Db.Database) : Prop :=
  NoDup (Spec.chat_ids d)
  /\ NoDup (Spec.message_ids d)
  /\ Forall (fun m => In (MessageRow.chatId m) (Spec.chat_ids d)) (Db.messages d).

(** The rows of one chat, in table order. *)
Definition messages_of (chatId : string) (d : Db.Database) : list MessageRow.t :=
  filter (fun m => String.eqb (MessageRow.chatId m) chatId) (Db.messages d).

(** The rows [searchMessages] selects before ordering and capping. *)
Definition matching (chatId query : string) (d : Db.Database) : list MessageRow.t :=
  filter (fun m => String.eqb (MessageRow.chatId m) chatId
                   && Sqlite.like ("%" ++ query ++ "%") (MessageRow.body m))
         (Db.messages d).

(** A statement that keeps [P] whenever it succeeds. *)
Definition keeps (P : Db.Database -> Prop) (s : Db.Statement) : Prop :=
  forall d d', P d -> s d = Ok d' -> P d'.

End Store.

(** ** components/ChatList.tsx and components/MessageView.tsx

    The handlers, run to completion: each [await] of an IPC call is
    followed at once by its continuation.  The values a handler closes
    over ([offset], [isLoading], [hasMore], [selectedChatId]) are those of
    the state it is called in. *)

Module Ui.

(** The renderer's Redux state and the store its IPC calls reach. *)
Record App := mkApp { db : Db.Database; state : Redux.AppState }.

Definition dispatch (a : Redux.Action) (x : App) : App :=
  mkApp (db x) (Redux.dispatch a (state x)).

(** [loadChats] of the chat list. *)
Definition loadChats (x : App) : App :=
  let cs := Redux.chats (state x) in
  if Redux.ChatsSlice.isLoading cs || negb (Redux.ChatsSlice.hasMore cs) then x
  else
    let x1 := dispatch (Redux.SetChatsLoading true) x in
    let chats := Ipc.getChats (Some 50) (Some (Redux.ChatsSlice.offset cs)) (db x1) in
    if Redux.ChatsSlice.offset cs =? 0
    then dispatch (Redux.SetChats chats) x1
    else dispatch (Redux.AppendChats chats) x1.

(** [handleSelectChat(chat)] of the chat list. *)
Definition handleSelectChat (chat : Chat.t) (x : App) : App :=
  let x1 := dispatch (Redux.SelectChat (Chat.id chat)) x in
  let x2 := dispatch Redux.ClearMessages x1 in
  let x3 :=
    if 0 <? Chat.unreadCount chat
    then dispatch (Redux.UpdateChatUnreadCount (Chat.id chat) 0)
                  (mkApp (Ipc.markChatAsRead (Chat.id chat) (db x2)) (state x2))
    else x2 in
  dispatch (Redux.SetMessages
              (Ipc.getMessages (Chat.id chat) (Some 50) (Some 0) (db x3))) x3.

(** [handleLoadOlderMessages] of the message view; an empty id is falsy
    like [null]. *)
Definition handleLoadOlderMessages (x : App) : App :=
  let ms := Redux.messages (state x) in
  match Redux.ChatsSlice.selectedId (Redux.chats (state x)) with
  | None => x
  | Some selectedChatId =>
      if String.eqb selectedChatId ""
         || Redux.MessagesSlice.isLoading ms
         || negb (Redux.MessagesSlice.hasMore ms)
      then x
      else
        let x1 := dispatch (Redux.SetMessagesLoading true) x in
        dispatch (Redux.PrependMessages
                    (Ipc.getMessages selectedChatId (Some 50)
                       (Some (Redux.MessagesSlice.offset ms)) (db x1))) x1
  end.

(** The messages on display. *)
Definition shown (x : App) : list Message.t :=
  Redux.MessagesSlice.items (Redux.messages (state x)).

(** The chat list on display. *)
Definition listed (x : App) : list Chat.t :=
  Redux.ChatsSlice.items (Redux.chats (state x)).

End Ui.

(** ** services/security.ts: the logging helper *)

Module Security.

(** [sanitizeForLogging(data, maxLength = 20)].  [substring(0, n)] reads
    a negative [n] as 0.  A string is the sequence of its code units, one
    character of [string] each. *)
Definition sanitizeForLogging (data : string) (maxLength : option Z) : string :=
  let n := default_arg 20 maxLength in
  if String.eqb data "" then "[empty]"
  else substring 0 (Z.to_nat n) data
       ++ (if n <? Z.of_nat (String.length data) then "..." else "").

End Security.

(** ** server/websocket.ts: starting and stopping the emitter *)

Module Emitter.

(** The module's state: the server, [messageEmitterInterval], the
    intervals that are running, and the id the next [setInterval]
    returns. *)
Record t := mk
  { server : Broker.Server;
    messageEmitterInterval : option nat;
    running : list nat;
    next_interval : nat }.

Definition set_emitting (b : bool) (s : Broker.Server) : Broker.Server :=
  Broker.mkServer (Broker.db s) (Broker.clients s) b (Broker.sent s).

Definition startMessageEmitter (m : t) : t :=
  match messageEmitterInterval m with
  | Some _ => m
  | None => mk (server m) (Some (next_interval m))
               (running m ++ [next_interval m])%list (S (next_interval m))
  end.

Definition stopMessageEmitter (m : t) : t :=
  let s := set_emitting false (server m) in
  match messageEmitterInterval m with
  | Some i => mk s None (filter (fun j => negb (Nat.eqb j i)) (running m))
                 (next_interval m)
  | None => mk s None (running m) (next_interval m)
  end.

Definition resumeMessageEmitter (m : t) : t :=
  let m1 := mk (set_emitting true (server m)) (messageEmitterInterval m)
               (running m) (next_interval m) in
  match messageEmitterInterval m1 with
  | Some _ => m1
  | None => startMessageEmitter m1
  end.

(** The module as loaded: no server yet, no interval, emitting. *)
Definition loaded (d : Db.Database) : t :=
  mk (Broker.mkServer d None true []) None [] 1.

(** [startWebSocketServer]: the server is created and the emitter
    started. *)
Definition startWebSocketServer (m : t) : t :=
  startMessageEmitter
    (mk (Broker.mkServer (Broker.db (server m)) (Some [])
                         (Broker.isEmittingMessages (server m))
                         (Broker.sent (server m)))
        (messageEmitterInterval m) (running m) (next_interval m)).

(** Interval [i] runs out: its callback runs if the interval has not
    been cleared. *)
Definition tick (i : nat) (k : Broker.Tick) (m : t) : t :=
  if existsb (Nat.eqb i) (running m)
  then mk (Broker.emit k (server m)) (messageEmitterInterval m) (running m)
          (next_interval m)
  else m.

(** What the operator and the clock can do once the server runs. *)
Inductive Call :=
| Stop
| Resume
| Elapsed (i : nat) (k : Broker.Tick).

Definition call (c : Call) (m : t) : t :=
  match c with
  | Stop => stopMessageEmitter m
  | Resume => resumeMessageEmitter m
  | Elapsed i k => tick i k m
  end.

Definition calls (cs : list Call) (m : t) : t :=
  fold_left (fun m c => call c m) cs m.

End Emitter.

(** ** Vocabulary for the connection client *)

Module Health.

(** The renderer before [connect], with a [WebSocket] constructor that
    throws or not. *)
Definition fresh (throws : bool) : Client.World :=
  Client.mkWorld Client.new_client Redux.initialState [] [] 1 [] throws.

Definition is_heartbeat (x : Client.Timer) : bool :=
  match Client.kind x with Client.Heartbeat => true | Client.Reconnect => false end.

(** The heartbeat timeouts that are pending. *)
Definition pending_heartbeats (w : Client.World) : list Client.Timer :=
  filter is_heartbeat (Client.timers w).

(** The two attempt counters and the reported delay are in range. *)
Definition counters_ok (c : Client.WebSocketClient) (r : Redux.AppState) : Prop :=
  Client.maxReconnectAttempts c = 10
  /\ 0 <= Redux.ConnectionSlice.reconnectAttempt (Redux.connection r)
     <= Client.reconnectAttempt c
  /\ Client.reconnectAttempt c <= 10
  /\ (Client.store c = None ->
      Redux.ConnectionSlice.reconnectAttempt (Redux.connection r) = 0)
  /\ 1000 <= Redux.ConnectionSlice.backoffDelay (Redux.connection r) <= 30000.

(** Every pending timeout has an id that was handed out, a heartbeat
    timeout is the one the client remembers and lasts 10000 ms, a
    reconnect timeout lasts between 1000 and 30000 ms, and no id is
    pending twice. *)
Definition timer_ok (hb : option nat) (next : nat) (x : Client.Timer) : Prop :=
  (Client.timer_id x < next)%nat
  /\ match Client.kind x with
     | Client.Heartbeat => Client.delay x = 10000 /\ hb = Some (Client.timer_id x)
     | Client.Reconnect => 1000 <= Client.delay x <= 30000
     end.

Definition timers_ok (hb : option nat) (next : nat) (ts : list Client.Timer)
  : Prop :=
  Forall (timer_ok hb next) ts /\ NoDup (map Client.timer_id ts).

Definition ok (w : Client.World) : Prop :=
  counters_ok (Client.client w) (Client.redux w)
  /\ timers_ok (Client.heartbeatTimeout (Client.client w)) (Client.next_timer w)
               (Client.timers w).

End Health.

(** ** Vocabulary for search *)

Module Text.

(** The string with its ASCII capitals made small. *)
Fixpoint lower_string (s : string) : string :=
  match s with
  | EmptyString => EmptyString
  | String c s' => String (lower c) (lower_string s')
  end.

End Text.

(** * Properties *)

(** ** Lists, ordering and paging *)

Section Ordering.
Context {A : Type} (key : A -> Z).

Let not_older (a b : A) : Prop := key a >= key b.

Lemma insert_desc_In x y l :
  In y (insert_desc key x l) <-> y = x \/ In y l.
Proof.
  induction l as [|z l IH]; simpl.
  - intuition congruence.
  - destruct (key x <? key z); simpl; rewrite ?IH; intuition congruence.
Qed.

Lemma order_by_desc_In y l : In y (order_by_desc key l) <-> In y l.
Proof.
  induction l as [|x l IH]; simpl; [tauto|].
  rewrite insert_desc_In, IH. intuition congruence.
Qed.

Lemma insert_desc_length x l :
  List.length (insert_desc key x l) = S (List.length l).
Proof.
  induction l as [|z l IH]; simpl; [reflexivity|].
  destruct (key x <? key z); simpl; congruence.
Qed.

Lemma order_by_desc_length l :
  List.length (order_by_desc key l) = List.length l.
Proof.
  induction l as [|x l IH]; simpl; [reflexivity|].
  rewrite insert_desc_length. congruence.
Qed.

Lemma insert_desc_sorted x l :
  StronglySorted not_older l -> StronglySorted not_older (insert_desc key x l).
Proof.
  induction 1 as [|z l Hs IH Hz]; simpl.
  - repeat constructor.
  - destruct (Z.ltb_spec (key x) (key z)).
    + constructor; [assumption|].
      rewrite Forall_forall in *. intros y Hy.
      apply insert_desc_In in Hy. destruct Hy as [->|Hy].
      * unfold not_older. lia.
      * auto.
    + constructor; [constructor; assumption|].
      constructor; [unfold not_older; lia|].
      rewrite Forall_forall in *. intros y Hy.
      specialize (Hz y Hy). unfold not_older in *. lia.
Qed.

Lemma order_by_desc_sorted l : StronglySorted not_older (order_by_desc key l).
Proof.
  induction l as [|x l IH]; simpl; [constructor|].
  apply insert_desc_sorted, IH.
Qed.

End Ordering.

Section Paging.
Context {A : Type}.

Lemma firstn_incl n (l : list A) x : In x (firstn n l) -> In x l.
Proof.
  revert n. induction l as [|y l IH]; intros [|n]; simpl; try tauto.
  intros [->|H]; eauto.
Qed.

Lemma skipn_incl n (l : list A) x : In x (skipn n l) -> In x l.
Proof.
  revert l. induction n as [|n IH]; intros [|y l]; simpl; auto.
Qed.

Lemma StronglySorted_skipn (R : A -> A -> Prop) n l :
  StronglySorted R l -> StronglySorted R (skipn n l).
Proof.
  revert l. induction n as [|n IH]; intros l H; [exact H|].
  destruct l as [|x l]; [exact H|]. simpl. apply IH.
  inversion H; assumption.
Qed.

Lemma StronglySorted_firstn (R : A -> A -> Prop) n l :
  StronglySorted R l -> StronglySorted R (firstn n l).
Proof.
  intros H. revert n. induction H as [|x l Hs IH Hx]; intros n.
  - rewrite firstn_nil. constructor.
  - destruct n as [|n]; simpl; constructor; [apply IH|].
    rewrite Forall_forall in *. intros y Hy. eapply Hx, firstn_incl, Hy.
Qed.

Lemma limit_offset_sorted (R : A -> A -> Prop) limit offset l :
  StronglySorted R l -> StronglySorted R (limit_offset limit offset l).
Proof.
  intros H. unfold limit_offset. destruct (limit <? 0).
  - apply StronglySorted_skipn, H.
  - apply StronglySorted_firstn, StronglySorted_skipn, H.
Qed.

Lemma limit_offset_length limit offset (l : list A) :
  0 <= limit -> Z.of_nat (List.length (limit_offset limit offset l)) <= limit.
Proof.
  intros H. unfold limit_offset.
  destruct (Z.ltb_spec limit 0); [lia|].
  rewrite length_firstn. lia.
Qed.


Lemma limit_offset_In limit offset (l : list A) x :
  In x (limit_offset limit offset l) -> In x l.
Proof.
  unfold limit_offset. intros H.
  destruct (limit <? 0).
  - eapply skipn_incl; eauto.
  - eapply skipn_incl, firstn_incl; eauto.
Qed.

End Paging.

Lemma StronglySorted_map {A B} (f : A -> B) (R : A -> A -> Prop)
      (S : B -> B -> Prop) l :
  (forall a b, R a b -> S (f a) (f b)) ->
  StronglySorted R l -> StronglySorted S (map f l).
Proof.
  intros HRS. induction 1 as [|x l Hs IH Hx]; simpl; constructor; auto.
  rewrite Forall_forall in *. intros y Hy.
  apply in_map_iff in Hy. destruct Hy as [a [<- Ha]]. auto.
Qed.

(** ** The store: writes *)

Section AddMessage.
Variables (uuid : string) (now : Z) (chatId sender body : string) (ts : Z).

Let after := Spec.inserted_and_updated uuid now chatId sender body ts.

Lemma addMessage_outcome d :
  Db.addMessage uuid now chatId sender body ts d =
  if Db.has_message d uuid then (Throw SQLITE_CONSTRAINT_PRIMARYKEY, d)
  else if Db.has_chat d chatId then (Ok tt, after d)
  else (Throw SQLITE_CONSTRAINT_FOREIGNKEY, d).
Proof.
  unfold Db.addMessage, Db.transaction, Db.transaction_ops, Db.addMessage_body.
  simpl. unfold Db.insertMessage. simpl.
  destruct (Db.has_message d uuid); [reflexivity|].
  destruct (Db.has_chat d chatId); reflexivity.
Qed.

(** C1.  [addMessage] is atomic.  Whatever the database, the arguments
    and the point at which the process is killed (if it is), every state
    a reader can see while the call runs and after it is either the
    database as it was, or the database with both the new message row
    and the updated chat row; and the call itself ends in the second if
    it returns and in the first if it throws. *)
Theorem addMessage_atomic (crash : option nat) (d : Db.Database) :
  Forall (fun v => v = d \/ v = after d)
         (Db.addMessage_observable uuid now chatId sender body ts crash d)
  /\ match Db.addMessage uuid now chatId sender body ts d with
     | (Ok _, v) => v = after d
     | (Throw _, v) => v = d
     end.
Proof.
  split.
  - unfold Db.addMessage_observable, Db.transaction_ops, Db.addMessage_body.
    destruct crash as [[|[|[|[|[|k]]]]]|]; simpl; unfold Db.insertMessage; simpl;
      destruct (Db.has_message d uuid); simpl;
      try destruct (Db.has_chat d chatId); simpl;
      repeat (apply Forall_cons || apply Forall_nil);
      solve [left; reflexivity | right; reflexivity].
  - rewrite addMessage_outcome.
    destruct (Db.has_message d uuid); [reflexivity|].
    destruct (Db.has_chat d chatId); reflexivity.
Qed.

End AddMessage.

(** The transaction is what makes it so: the same two statements run
    one by one let a reader see the message without the chat update. *)
Example addMessage_autocommit_tears :
  let d := Db.mkDb [ChatRow.mk "c1" "Chat 1" 2000 0 0] [] in
  exists v,
    In v (Db.addMessage_autocommit_observable "m1" 5000 "c1" "Alice" "hi" 3000
                                              (Some 1%nat) d)
    /\ Spec.torn "m1" "c1" d v.
Proof.
  simpl. eexists. split; [left; reflexivity|]. split; reflexivity.
Qed.

Lemma getChat_map_bump chatId ts l c :
  find (fun c => String.eqb (ChatRow.id c) chatId) l = Some c ->
  find (fun c => String.eqb (ChatRow.id c) chatId)
       (map (fun c => if String.eqb (ChatRow.id c) chatId
                      then Db.bump ts c else c) l)
  = Some (Db.bump ts c).
Proof.
  induction l as [|x l IH]; simpl; [discriminate|].
  destruct (String.eqb (ChatRow.id x) chatId) eqn:E; simpl.
  - rewrite E. congruence.
  - rewrite E. exact IH.
Qed.

Lemma getChat_has_chat chatId d c :
  Spec.getChat chatId d = Some c -> Db.has_chat d chatId = true.
Proof.
  unfold Spec.getChat, Db.has_chat. intros H.
  apply find_some in H. apply existsb_exists. exists c. exact H.
Qed.

(** C2, as the code has it.  A call of [addMessage] on an existing chat
    with an id that is not taken returns, and afterwards the chat's
    [lastMessageAt] is [ts] itself and its [unreadCount] is one more than
    before; so [lastMessageAt] is the maximum of its old value and [ts]
    exactly when [ts] is not older than the old value. *)
Theorem addMessage_sets_lastMessageAt
        uuid now chatId sender body ts (d : Db.Database) (c : ChatRow.t) :
  Spec.getChat chatId d = Some c ->
  Db.has_message d uuid = false ->
  exists c',
    fst (Db.addMessage uuid now chatId sender body ts d) = Ok tt
    /\ Spec.getChat chatId (snd (Db.addMessage uuid now chatId sender body ts d))
       = Some c'
    /\ ChatRow.lastMessageAt c' = ts
    /\ ChatRow.unreadCount c' = ChatRow.unreadCount c + 1
    /\ (ChatRow.lastMessageAt c' = Z.max (ChatRow.lastMessageAt c) ts
        <-> ChatRow.lastMessageAt c <= ts).
Proof.
  intros Hc Hfresh. exists (Db.bump ts c).
  rewrite addMessage_outcome, Hfresh, (getChat_has_chat _ _ _ Hc). simpl.
  split; [reflexivity|]. split.
  - unfold Spec.getChat, Spec.inserted_and_updated. simpl.
    apply getChat_map_bump, Hc.
  - simpl. repeat split; lia.
Qed.

Lemma addMessage_sets_lastMessageAt_witness :
  let d := Db.mkDb [ChatRow.mk "c1" "Chat 1" 2000 4 0] [] in
  exists c',
    fst (Db.addMessage "m1" 5000 "c1" "Alice" "hi" 3000 d) = Ok tt
    /\ Spec.getChat "c1" (snd (Db.addMessage "m1" 5000 "c1" "Alice" "hi" 3000 d))
       = Some c'
    /\ ChatRow.lastMessageAt c' = 3000
    /\ ChatRow.unreadCount c' = 4 + 1
    /\ (ChatRow.lastMessageAt c' = Z.max 2000 3000 <-> 2000 <= 3000).
Proof.
  exact (addMessage_sets_lastMessageAt "m1" 5000 "c1" "Alice" "hi" 3000
           (Db.mkDb [ChatRow.mk "c1" "Chat 1" 2000 4 0] [])
           (ChatRow.mk "c1" "Chat 1" 2000 4 0) eq_refl eq_refl).
Defined.

(** C2 as stated fails: a message older than the chat's [lastMessageAt]
    moves [lastMessageAt] back. *)
Lemma addMessage_max_rule_fails :
  ~ Spec.max_rule "m1" 5000 "c1" "Alice" "hi" 1000
      (Db.mkDb [ChatRow.mk "c1" "Chat 1" 2000 0 0] []).
Proof.
  intros H. destruct (H _ eq_refl) as [c' [Hc' [Hmax _]]].
  vm_compute in Hc'. injection Hc' as <-. vm_compute in Hmax. discriminate.
Qed.

(** ** The store: paged reads *)


Lemma getMessages_sorted chatId limit offset d :
  StronglySorted Spec.message_not_older (Db.getMessages chatId limit offset d).
Proof.
  unfold Db.getMessages.
  apply StronglySorted_map
    with (R := fun a b => MessageRow.ts a >= MessageRow.ts b).
  - intros a b H. exact H.
  - apply limit_offset_sorted, order_by_desc_sorted.
Qed.

Lemma getMessages_chatId chatId limit offset d :
  Forall (fun m => Message.chatId m = chatId)
         (Db.getMessages chatId limit offset d).
Proof.
  apply Forall_forall. intros m Hm. unfold Db.getMessages in Hm.
  apply in_map_iff in Hm. destruct Hm as [r [<- Hr]].
  apply limit_offset_In, order_by_desc_In, filter_In in Hr.
  destruct Hr as [_ Hr]. apply String.eqb_eq in Hr. exact Hr.
Qed.

(** *** The order of a query, ties included *)

Lemma insert_desc_perm {A} (key : A -> Z) x l :
  Permutation (insert_desc key x l) (x :: l).
Proof.
  induction l as [|y l IH]; simpl; [reflexivity|].
  destruct (key x <? key y); [|reflexivity].
  rewrite IH. apply perm_swap.
Qed.

Lemma order_by_desc_perm {A} (key : A -> Z) l :
  Permutation (order_by_desc key l) l.
Proof.
  induction l as [|x l IH]; simpl; [reflexivity|].
  rewrite insert_desc_perm. constructor. exact IH.
Qed.








Lemma goes_before_asym {A} (key : A -> Z) a b :
  Spec.goes_before key a b -> Spec.goes_before key b a -> False.
Proof. unfold Spec.goes_before. lia. Qed.

(** There is one order of the query only. *)
Lemma in_query_order_unique {A} (key : A -> Z) (l1 : list (nat * A)) :
  forall l2,
    Permutation l1 l2 ->
    StronglySorted (Spec.goes_before key) l1 ->
    StronglySorted (Spec.goes_before key) l2 ->
    l1 = l2.
Proof.
  induction l1 as [|x l1 IH]; intros l2 Hp H1 H2.
  - apply Permutation_nil in Hp. congruence.
  - destruct l2 as [|y l2];
      [apply Permutation_sym, Permutation_nil in Hp; discriminate|].
    inversion H1 as [|? ? H1' Hx]; subst.
    inversion H2 as [|? ? H2' Hy]; subst.
    assert (E : x = y).
    { assert (Hxin : In x (y :: l2))
        by (eapply Permutation_in; [exact Hp|left; reflexivity]).
      assert (Hyin : In y (x :: l1))
        by (eapply Permutation_in;
            [apply Permutation_sym; exact Hp|left; reflexivity]).
      destruct Hxin as [E|Hxin]; [congruence|].
      destruct Hyin as [E|Hyin]; [congruence|].
      rewrite Forall_forall in Hx, Hy.
      exfalso. eapply goes_before_asym; [apply Hx, Hyin|apply Hy, Hxin]. }
    subst y. f_equal. apply IH; [|assumption|assumption].
    eapply Permutation_cons_inv. exact Hp.
Qed.

Lemma app_same_length {A} (a1 a2 b1 b2 : list A) :
  (a1 ++ b1)%list = (a2 ++ b2)%list -> List.length a1 = List.length a2 ->
  a1 = a2 /\ b1 = b2.
Proof.
  revert a2. induction a1 as [|x a1 IH]; intros [|y a2] E L;
    try discriminate; simpl in *; [auto|].
  injection E as -> E. injection L as L.
  destruct (IH _ E L) as [-> ->]. auto.
Qed.

(** A page is what [Spec.is_page] says and nothing else. *)
Lemma is_page_unique {A} (key : A -> Z) rows limit offset (p1 p2 : list A) :
  Spec.is_page key rows limit offset p1 ->
  Spec.is_page key rows limit offset p2 ->
  p1 = p2.
Proof.
  intros [pre1 [mid1 [post1 [[P1 S1] [-> [L1 [B1 F1]]]]]]]
         [pre2 [mid2 [post2 [[P2 S2] [-> [L2 [B2 F2]]]]]]].
  assert (E : (pre1 ++ mid1 ++ post1)%list = (pre2 ++ mid2 ++ post2)%list).
  { apply (in_query_order_unique key); [|assumption|assumption].
    rewrite P1, P2. reflexivity. }
  destruct (app_same_length _ _ _ _ E) as [_ E']; [congruence|].
  assert (Hlen : List.length (mid1 ++ post1) = List.length (mid2 ++ post2))
    by (rewrite E'; reflexivity).
  rewrite !length_app in Hlen.
  assert (Hm : List.length mid1 = List.length mid2).
  { destruct F1 as [F1| ->], F2 as [F2| ->]; simpl in Hlen; lia. }
  destruct (app_same_length _ _ _ _ E' Hm) as [-> _]. reflexivity.
Qed.





(** The pages of the witness: the two chats that tie come in the order
    of the table, ["b"] before ["a"], and so do the two messages that
    tie, ["m3"] before ["m1"]; a limit of 0 gives nothing; an offset
    past the one message of chat ["b"] gives nothing, in a table of four
    messages. *)
Example tied_pages :
  Db.getChats (Some 2) (Some 1) tied_store
  = [ Chat.mk "b" "Chat b" 1000 0; Chat.mk "a" "Chat a" 1000 0 ]
  /\ Db.getMessages "a" (Some 2) (Some 1) tied_store
     = [ Message.mk "m3" "a" 1000 "Bob" "second";
         Message.mk "m1" "a" 1000 "Alice" "third" ]
  /\ Db.getChats (Some 0) (Some 0) tied_store = []
  /\ Db.getMessages "b" (Some 50) (Some 1) tied_store = []
  /\ Db.getChats None None tied_store
     = [ Chat.mk "c" "Chat c" 2000 0; Chat.mk "b" "Chat b" 1000 0;
         Chat.mk "a" "Chat a" 1000 0 ].
Proof. vm_compute. repeat split. Qed.

(** What the renderer makes of such pages: the message view of chat
    ["c"], which has no message in a table of four, has [hasMore] set
    after the chat is selected, asks for older messages at offset 0,
    gets the empty page and learns that there are no more; the chat list
    of an empty store gets an empty page at offset 0 and still takes it
    that there are more. *)
Example hasMore_after_empty_pages :
  let selected :=
    Ui.handleSelectChat (Chat.mk "c" "Chat c" 2000 0)
      (Ui.mkApp tied_store Redux.initialState) in
  let view := Ui.handleLoadOlderMessages selected in
  let list := Ui.loadChats (Ui.mkApp (Db.mkDb [] []) Redux.initialState) in
  Redux.MessagesSlice.hasMore (Redux.messages (Ui.state selected)) = true
  /\ Redux.MessagesSlice.hasMore (Redux.messages (Ui.state view)) = false
  /\ Ui.shown view = []
  /\ Ui.listed list = []
  /\ Redux.ChatsSlice.hasMore (Redux.chats (Ui.state list)) = true.
Proof. vm_compute. repeat split. Qed.


(** ** The store: search *)

(** *** Bytes and characters *)

Ltac by_bytes a := destruct a as [[] [] [] [] [] [] [] []]; reflexivity.

Ltac compare_all :=
  repeat (match goal with
          | |- context [?a <=? ?b] => destruct (Z.leb_spec a b)
          | |- context [?a <? ?b] => destruct (Z.ltb_spec a b)
          | |- context [?a =? ?b] => destruct (Z.eqb_spec a b)
          end; simpl).

Lemma byte_range a : (0 <=? Sqlite.byte a) && (Sqlite.byte a <? 256) = true.
Proof. by_bytes a. Qed.

Lemma byte_percent a : Ascii.eqb a "%"%char = (Sqlite.byte a =? 37).
Proof. by_bytes a. Qed.

Lemma byte_underscore a : Ascii.eqb a "_"%char = (Sqlite.byte a =? 95).
Proof. by_bytes a. Qed.

Lemma byte_zero a : Ascii.eqb a zero = (Sqlite.byte a =? 0).
Proof. by_bytes a. Qed.

Lemma byte_lower a : Sqlite.byte (lower a) = Sqlite.tolower (Sqlite.byte a).
Proof. by_bytes a. Qed.

Lemma byte_continuation a :
  Sqlite.is_continuation (Sqlite.byte a)
  = (128 <=? Sqlite.byte a) && (Sqlite.byte a <? 192).
Proof. by_bytes a. Qed.

Lemma utf8_close_high c : 128 <= Sqlite.utf8_close c.
Proof.
  unfold Sqlite.utf8_close.
  destruct (Z.ltb_spec c 0x80); simpl; [lia|].
  destruct (_ || _); lia.
Qed.

(** Texts of ASCII characters are read byte by byte. *)
Lemma chars_ascii s : Spec.is_ascii s = true -> Sqlite.chars s = Spec.bytes s.
Proof.
  unfold Sqlite.chars. induction s as [|a s IH]; intros H; [reflexivity|].
  simpl in H. apply andb_true_iff in H. destruct H as [H Hs].
  apply andb_true_iff in H. destruct H as [H0 H1].
  apply Z.ltb_lt in H0, H1. simpl.
  destruct (Z.eqb_spec (Sqlite.byte a) 0); [lia|].
  destruct (Z.ltb_spec (Sqlite.byte a) 0xc0); [|lia].
  rewrite IH by exact Hs. reflexivity.
Qed.

(** *** What the two characters of a comparison may differ in *)

Lemma same_fold c d : Sqlite.same c d = (Sqlite.tolower c =? Sqlite.tolower d).
Proof.
  unfold Sqlite.same, Sqlite.tolower.
  compare_all; try reflexivity; exfalso; lia.
Qed.

Lemma stops_same c d : Sqlite.stops c d = Sqlite.same c d.
Proof.
  unfold Sqlite.stops, Sqlite.same, Sqlite.tolower, Sqlite.toupper.
  compare_all; try reflexivity; exfalso; lia.
Qed.

Lemma tolower_tolower c : Sqlite.tolower (Sqlite.tolower c) = Sqlite.tolower c.
Proof.
  unfold Sqlite.tolower.
  destruct ((65 <=? c) && (c <=? 90)) eqn:E; [|rewrite E; reflexivity].
  apply andb_true_iff in E. destruct E as [E1 E2].
  apply Z.leb_le in E1, E2. compare_all; lia.
Qed.

Lemma tolower_percent c : (Sqlite.tolower c =? 37) = (c =? 37).
Proof. unfold Sqlite.tolower. compare_all; try reflexivity; exfalso; lia. Qed.

Lemma tolower_underscore c : (Sqlite.tolower c =? 95) = (c =? 95).
Proof. unfold Sqlite.tolower. compare_all; try reflexivity; exfalso; lia. Qed.

Lemma tolower_high c : 128 <= c -> Sqlite.tolower c = c.
Proof. intros H. unfold Sqlite.tolower. compare_all; lia. Qed.

(** *** Patterns without wildcards between two [%] *)

Lemma literal_inv c : Spec.literal c = true -> (c =? 37) = false /\ (c =? 95) = false.
Proof.
  unfold Spec.literal. intros H. apply andb_true_iff in H. destruct H as [H1 H2].
  apply negb_true_iff in H1, H2. auto.
Qed.

Lemma literal_prefix q :
  forallb Spec.literal q = true ->
  forall s, Sqlite.patternCompare_from false (q ++ [37]) s
            = if Spec.prefix_ci q s then Sqlite.MATCH else Sqlite.NOMATCH.
Proof.
  induction q as [|c q IH]; intros Hq s; [reflexivity|].
  simpl in Hq. apply andb_true_iff in Hq. destruct Hq as [Hc Hq].
  apply literal_inv in Hc. destruct Hc as [H1 H2].
  simpl. rewrite H1. destruct s as [|d s]; [reflexivity|].
  rewrite H2, orb_false_r, same_fold.
  destruct (Sqlite.tolower c =? Sqlite.tolower d); simpl;
    [apply IH, Hq|reflexivity].
Qed.

Lemma literal_contains q s :
  forallb Spec.literal q = true ->
  Sqlite.patternCompare (37 :: q ++ [37]) s = Sqlite.MATCH
  <-> Spec.contains_ci q s = true.
Proof.
  intros Hq. unfold Sqlite.patternCompare. simpl.
  destruct q as [|c q].
  - simpl. destruct s; simpl; tauto.
  - simpl in Hq. apply andb_true_iff in Hq. destruct Hq as [Hc Hq].
    apply literal_inv in Hc. destruct Hc as [H1 H2].
    simpl. rewrite H1, H2. unfold Spec.contains_ci.
    induction s as [|d s IHs]; [simpl; split; discriminate|].
    simpl. rewrite stops_same, same_fold, literal_prefix by exact Hq.
    destruct (Sqlite.tolower c =? Sqlite.tolower d); simpl; [|exact IHs].
    destruct (Spec.prefix_ci q s); simpl; [tauto|exact IHs].
Qed.

(** *** The characters of a pattern [%q%] *)

Lemma is_special_inv a :
  Spec.is_special a = false ->
  Sqlite.byte a <> 0 /\ Sqlite.byte a <> 37 /\ Sqlite.byte a <> 95.
Proof.
  unfold Spec.is_special. rewrite byte_percent, byte_underscore, byte_zero.
  intros H. apply orb_false_iff in H. destruct H as [H H0].
  apply orb_false_iff in H. destruct H as [H1 H2].
  apply Z.eqb_neq in H0, H1, H2. auto.
Qed.

Lemma literal_close c : Spec.literal (Sqlite.utf8_close c) = true.
Proof.
  pose proof (utf8_close_high c). unfold Spec.literal.
  destruct (Z.eqb_spec (Sqlite.utf8_close c) 37); [lia|].
  destruct (Z.eqb_spec (Sqlite.utf8_close c) 95); [lia|]. reflexivity.
Qed.

Lemma chars_plain q :
  Spec.plain q = true ->
  forall open,
    Sqlite.chars_from open (q ++ "%") = (Sqlite.chars_from open q ++ [37])%list
    /\ forallb Spec.literal (Sqlite.chars_from open q) = true.
Proof.
  induction q as [|a q IH]; intros Hq open.
  - destruct open as [c|]; simpl; [|auto].
    split; [reflexivity|]. rewrite literal_close. reflexivity.
  - simpl in Hq. apply andb_true_iff in Hq. destruct Hq as [Ha Hq].
    apply negb_true_iff, is_special_inv in Ha. destruct Ha as [H0 [H1 H2]].
    specialize (IH Hq).
    change (String a q ++ "%")%string with (String a (q ++ "%")).
    cbn [Sqlite.chars_from].
    destruct (Z.eqb_spec (Sqlite.byte a) 0) as [E|_]; [contradiction|].
    assert (Hstart :
      (if Sqlite.byte a <? 0xc0
       then Sqlite.byte a :: Sqlite.chars_from None (q ++ "%")
       else Sqlite.chars_from (Some (Sqlite.utf8_trans1 (Sqlite.byte a))) (q ++ "%"))
      = ((if Sqlite.byte a <? 0xc0
          then Sqlite.byte a :: Sqlite.chars_from None q
          else Sqlite.chars_from (Some (Sqlite.utf8_trans1 (Sqlite.byte a))) q)
         ++ [37])%list
      /\ forallb Spec.literal
           (if Sqlite.byte a <? 0xc0
            then Sqlite.byte a :: Sqlite.chars_from None q
            else Sqlite.chars_from (Some (Sqlite.utf8_trans1 (Sqlite.byte a))) q)
         = true).
    { destruct (Sqlite.byte a <? 0xc0).
      - destruct (IH None) as [E L]. rewrite E. split; [reflexivity|].
        simpl. rewrite L. unfold Spec.literal.
        apply Z.eqb_neq in H1, H2. rewrite H1, H2. reflexivity.
      - apply IH. }
    destruct Hstart as [E L].
    destruct open as [c|]; [|split; assumption].
    destruct (Sqlite.is_continuation (Sqlite.byte a)); [apply IH|].
    rewrite E. split; [reflexivity|]. simpl. rewrite literal_close. exact L.
Qed.

Lemma pattern_chars q :
  Spec.plain q = true ->
  Sqlite.chars ("%" ++ q ++ "%") = (37 :: Sqlite.chars q ++ [37])%list.
Proof.
  intros Hq. unfold Sqlite.chars.
  change ("%" ++ q ++ "%")%string with (String "%"%char (q ++ "%")).
  cbn [Sqlite.chars_from].
  change (Sqlite.byte "%"%char) with 37.
  change (37 =? 0) with false. change (37 <? 0xc0) with true. cbv iota.
  destruct (chars_plain q Hq None) as [E _]. rewrite E. reflexivity.
Qed.

(** For a query without [%], [_] and NUL, [body LIKE '%q%'] says that
    the body contains the query. *)
Lemma like_contains q s :
  Spec.plain q = true ->
  Sqlite.like ("%" ++ q ++ "%") s = Spec.text_contains q s.
Proof.
  intros Hq. unfold Sqlite.like, Spec.text_contains.
  rewrite pattern_chars by exact Hq.
  destruct (chars_plain q Hq None) as [_ L]. fold (Sqlite.chars q) in L.
  pose proof (literal_contains (Sqlite.chars q) (Sqlite.chars s) L) as H.
  destruct (Spec.contains_ci (Sqlite.chars q) (Sqlite.chars s)).
  - rewrite (proj2 H eq_refl). reflexivity.
  - destruct (Sqlite.patternCompare _ _); try reflexivity.
    destruct H as [H _]. discriminate (H eq_refl).
Qed.

Lemma like_empty_query s : Sqlite.like ("%" ++ "" ++ "%") s = true.
Proof. reflexivity. Qed.

(** *** The query as a whole *)

Lemma pattern_length q :
  Z.of_nat (String.length ("%" ++ q ++ "%")) = Z.of_nat (String.length q) + 2.
Proof.
  change ("%" ++ q ++ "%")%string with (String "%"%char (q ++ "%")).
  cbn [String.length].
  assert (E : String.length (q ++ "%") = S (String.length q))
    by (induction q as [|a q IH]; simpl; congruence).
  rewrite E. lia.
Qed.

Lemma where_body_like_fits p rows :
  Z.of_nat (String.length p) <= Sqlite.SQLITE_MAX_LIKE_PATTERN_LENGTH ->
  Db.where_body_like p rows
  = Ok (filter (fun m => Sqlite.like p (MessageRow.body m)) rows).
Proof.
  intros Hp. induction rows as [|m rows IH]; [reflexivity|].
  simpl. unfold Sqlite.likeFunc.
  destruct (Z.ltb_spec Sqlite.SQLITE_MAX_LIKE_PATTERN_LENGTH
                       (Z.of_nat (String.length p))); [lia|].
  rewrite IH. reflexivity.
Qed.

Lemma where_body_like_long p rows :
  Sqlite.SQLITE_MAX_LIKE_PATTERN_LENGTH < Z.of_nat (String.length p) ->
  Db.where_body_like p rows
  = match rows with [] => Ok [] | _ :: _ => Throw SQLITE_ERROR end.
Proof.
  intros Hp. destruct rows as [|m rows]; [reflexivity|].
  simpl. unfold Sqlite.likeFunc.
  destruct (Z.ltb_spec Sqlite.SQLITE_MAX_LIKE_PATTERN_LENGTH
                       (Z.of_nat (String.length p))); [reflexivity|lia].
Qed.

Lemma filter_filter {A} (f g : A -> bool) l :
  filter g (filter f l) = filter (fun x => f x && g x) l.
Proof.
  induction l as [|x l IH]; [reflexivity|].
  simpl. destruct (f x); simpl; [destruct (g x)|]; rewrite IH; reflexivity.
Qed.

(** With a pattern that LIKE accepts the query returns: the matching
    rows of the chat, newest first, the first 50 of them. *)
Lemma searchMessages_fits chatId q d :
  Spec.fits q ->
  Db.searchMessages chatId q d
  = Ok (map Db.message_of_row
            (limit_offset 50 0
               (order_by_desc MessageRow.ts (Store.matching chatId q d)))).
Proof.
  intros Hq. unfold Db.searchMessages, Spec.fits in *.
  rewrite where_body_like_fits by (rewrite pattern_length; exact Hq).
  rewrite filter_filter. reflexivity.
Qed.

(** With a longer pattern it throws as soon as the chat has a message. *)
Lemma searchMessages_long chatId q d :
  ~ Spec.fits q ->
  Db.searchMessages chatId q d
  = match Store.messages_of chatId d with
    | [] => Ok []
    | _ :: _ => Throw SQLITE_ERROR
    end.
Proof.
  intros Hq. unfold Db.searchMessages, Spec.fits in *.
  rewrite where_body_like_long by (rewrite pattern_length; lia).
  unfold Store.messages_of.
  destruct (filter _ (Db.messages d)); reflexivity.
Qed.

Lemma fits_dec q : Spec.fits q \/ ~ Spec.fits q.
Proof. unfold Spec.fits. lia. Qed.

Lemma matching_ok chatId q d m :
  In m (map Db.message_of_row
            (limit_offset 50 0
               (order_by_desc MessageRow.ts (Store.matching chatId q d)))) ->
  Message.chatId m = chatId
  /\ Sqlite.like ("%" ++ q ++ "%") (Message.body m) = true.
Proof.
  intros Hm. apply in_map_iff in Hm. destruct Hm as [r [<- Hr]].
  apply limit_offset_In, order_by_desc_In, filter_In in Hr.
  destruct Hr as [_ Hr]. apply andb_true_iff in Hr. destruct Hr as [H1 H2].
  apply String.eqb_eq in H1. split; assumption.
Qed.

(** C7, as the code has it.  [searchMessages] throws exactly when the
    pattern [%q%] has more than 50000 bytes and the chat has a message.
    When it returns, it returns at most 50 messages, newest first, all
    of the chat asked for and all with a body that matches the LIKE
    pattern [%q%]; when [q] has no [%], no [_] and no NUL, this means
    that the body, read up to its first NUL, contains [q] character by
    character up to the case of ASCII letters.  For the empty query the
    pattern matches every body and the result is the first page of the
    chat's messages. *)
Theorem searchMessages_like (chatId q : string) (d : Db.Database) :
  match Db.searchMessages chatId q d with
  | Throw e =>
      e = SQLITE_ERROR /\ ~ Spec.fits q /\ Store.messages_of chatId d <> []
  | Ok rs =>
      (Spec.fits q \/ Store.messages_of chatId d = [])
      /\ Z.of_nat (List.length rs) <= 50
      /\ StronglySorted Spec.message_not_older rs
      /\ Forall (fun m => Message.chatId m = chatId
                          /\ Sqlite.like ("%" ++ q ++ "%") (Message.body m)
                             = true) rs
      /\ (Spec.plain q = true ->
          Forall (fun m => Spec.text_contains q (Message.body m) = true) rs)
  end
  /\ Db.searchMessages chatId "" d
     = Ok (Db.getMessages chatId (Some 50) (Some 0) d).
Proof.
  split.
  - destruct (fits_dec q) as [Hq|Hq].
    + rewrite searchMessages_fits by exact Hq.
      assert (Hall : Forall (fun m => Message.chatId m = chatId
                          /\ Sqlite.like ("%" ++ q ++ "%") (Message.body m)
                             = true)
                       (map Db.message_of_row
                          (limit_offset 50 0
                             (order_by_desc MessageRow.ts
                                (Store.matching chatId q d))))).
      { apply Forall_forall. intros m Hm. eapply matching_ok, Hm. }
      split; [left; exact Hq|]. split; [|split; [|split]].
      * rewrite length_map. apply limit_offset_length. lia.
      * apply StronglySorted_map
          with (R := fun a b => MessageRow.ts a >= MessageRow.ts b).
        -- intros a b H. exact H.
        -- apply limit_offset_sorted, order_by_desc_sorted.
      * exact Hall.
      * intros Hp. eapply Forall_impl; [|exact Hall]. intros m [_ Hm].
        rewrite <- like_contains by exact Hp. exact Hm.
    + rewrite searchMessages_long by exact Hq.
      destruct (Store.messages_of chatId d) as [|m ms] eqn:E.
      * split; [right; reflexivity|]. simpl.
        split; [lia|]. split; [constructor|]. split; [constructor|].
        intros _. constructor.
      * split; [reflexivity|]. split; [exact Hq|]. discriminate.
  - rewrite searchMessages_fits by (unfold Spec.fits; simpl; vm_compute; discriminate).
    unfold Store.matching, Db.getMessages. simpl default_arg.
    do 4 f_equal. apply filter_ext. intros m.
    rewrite like_empty_query. apply andb_true_r.
Qed.

(** C7 as stated fails on the empty query, which returns the messages of
    the chat instead of nothing, and on a query with a wildcard, which
    returns bodies that do not contain it. *)
Lemma searchMessages_rule_fails :
  Db.searchMessages "a" "" two_chats_one_message
  = Ok [ Message.mk "m1" "a" 1000 "Alice" "Hi there" ]
  /\ ~ Spec.search_rule "a" "" two_chats_one_message
  /\ ~ Spec.search_rule "a" "_" two_chats_one_message.
Proof.
  split; [reflexivity|]. split.
  - intros [rs [E [_ [_ H]]]]. specialize (H eq_refl). subst rs.
    vm_compute in E. discriminate.
  - intros [rs [E [H _]]]. vm_compute in E. injection E as <-.
    inversion H as [|x l [_ Hx] _]; subst. vm_compute in Hx. discriminate.
Qed.

(** How LIKE reads its texts: [_] stands for one character, here the two
    bytes of a letter with an accent; a NUL ends the body and the
    pattern; and an ASCII letter stands for both its cases. *)
Example like_reads_characters :
  Sqlite.chars ("a" ++ e_acute ++ "b") = [97; 233; 98]
  /\ Sqlite.like "%a_b%" ("a" ++ e_acute ++ "b") = true
  /\ Sqlite.like "%b%" ("a" ++ nul ++ "b") = false
  /\ Sqlite.like ("%" ++ "z" ++ nul ++ "%") "xyz" = true
  /\ Sqlite.like "%THERE%" "Hi there" = true
  /\ Sqlite.like "%h_%" "oh" = false.
Proof. vm_compute. repeat split. Qed.

(** A query of 49999 bytes makes a pattern of 50001: the search throws
    in a chat that has a message and returns nothing in one that has
    none. *)
Example searchMessages_long_query :
  Db.searchMessages "a" (Spec.xs (Z.to_nat 49999)) two_chats_one_message
  = Throw SQLITE_ERROR
  /\ Db.searchMessages "b" (Spec.xs (Z.to_nat 49999)) two_chats_one_message
     = Ok [].
Proof.
  assert (L : forall k, String.length (Spec.xs k) = k)
    by (induction k as [|k IH]; simpl; congruence).
  assert (Hq : ~ Spec.fits (Spec.xs (Z.to_nat 49999))).
  { unfold Spec.fits. rewrite L.
    change Sqlite.SQLITE_MAX_LIKE_PATTERN_LENGTH with 50000. lia. }
  rewrite !searchMessages_long by exact Hq. split; reflexivity.
Qed.

(** ** The connection client: backoff *)

(** Each call of [scheduleReconnect] below the attempt limit waits the
    delay of the client's own counter, and the store reports the delay of
    the store's counter. *)
Lemma scheduleReconnect_delays (w : Client.World) :
  Client.reconnectAttempt (Client.client w)
  < Client.maxReconnectAttempts (Client.client w) ->
  Client.store (Client.client w) = Some Client.the_store ->
  let w' := Client.scheduleReconnect w in
  Client.pending_reconnects w'
  = (Client.pending_reconnects w
     ++ [Client.reconnect_delay (Client.reconnectAttempt (Client.client w) + 1)])%list
  /\ Spec.reported_backoff w' = Redux.backoff (Spec.reported_attempt w + 1)
  /\ Spec.reported_attempt w' = Spec.reported_attempt w + 1.
Proof.
  intros Hlt Hs. unfold Client.scheduleReconnect.
  destruct (Z.leb_spec (Client.maxReconnectAttempts (Client.client w))
                       (Client.reconnectAttempt (Client.client w))); [lia|].
  unfold Client.dispatch_if_store. simpl. rewrite Hs. simpl.
  repeat split. unfold Client.pending_reconnects. simpl.
  rewrite filter_app, map_app. reflexivity.
Qed.

(** The client and the store compute the same function of the attempt
    number, which is the specification's. *)
Lemma delay_formulas_agree (n : nat) :
  Client.reconnect_delay (Z.of_nat n) = Spec.backoffMillis n
  /\ Redux.backoff (Z.of_nat n) = Spec.backoffMillis n.
Proof. split; reflexivity. Qed.

(** From a client that has just been started (whether its first socket
    had opened or not) the delays are those of the specification: for
    every [n] from 1 to 10, after [n] failed attempts in a row the
    reconnect timeout that is pending has the delay
    [min(1000 * 2^(n-1), 30000)], the store reports the same value as
    [backoffDelay], and both attempt counters are [n]; the ten delays,
    waited and reported, are 1000, 2000, 4000, 8000, 16000 and then
    30000 five times. *)
Theorem backoff_sequence (opened : bool) (n : nat) :
  (1 <= n <= 10)%nat ->
  let w := Spec.after_failures n (Spec.started opened) in
  Client.pending_reconnects w = [Spec.backoffMillis n]
  /\ Spec.reported_backoff w = Spec.backoffMillis n
  /\ Spec.reported_attempt w = Z.of_nat n
  /\ Client.reconnectAttempt (Client.client w) = Z.of_nat n
  /\ Spec.connection_state w = Redux.reconnecting
  /\ map (fun k => Client.pending_reconnects
                     (Spec.after_failures k (Spec.started opened)))
         (seq 1 10)
     = map (fun d => [d])
           [1000; 2000; 4000; 8000; 16000; 30000; 30000; 30000; 30000; 30000]
  /\ map (fun k => Spec.reported_backoff
                     (Spec.after_failures k (Spec.started opened)))
         (seq 1 10)
     = [1000; 2000; 4000; 8000; 16000; 30000; 30000; 30000; 30000; 30000].
Proof.
  intros Hn.
  assert (Hcases : In n (seq 1 10)) by (apply in_seq; lia).
  destruct opened; simpl in Hcases;
    repeat (destruct Hcases as [<-|Hcases]; [vm_compute; repeat split|]);
    destruct Hcases.
Qed.

Lemma backoff_sequence_witness :
  let w := Spec.after_failures 6 (Spec.started true) in
  Client.pending_reconnects w = [Spec.backoffMillis 6]
  /\ Spec.reported_backoff w = Spec.backoffMillis 6
  /\ Spec.reported_attempt w = 6
  /\ Client.reconnectAttempt (Client.client w) = 6
  /\ Spec.connection_state w = Redux.reconnecting
  /\ map (fun k => Client.pending_reconnects
                     (Spec.after_failures k (Spec.started true)))
         (seq 1 10)
     = map (fun d => [d])
           [1000; 2000; 4000; 8000; 16000; 30000; 30000; 30000; 30000; 30000]
  /\ map (fun k => Spec.reported_backoff
                     (Spec.after_failures k (Spec.started true)))
         (seq 1 10)
     = [1000; 2000; 4000; 8000; 16000; 30000; 30000; 30000; 30000; 30000].
Proof.
  apply (backoff_sequence true 6). lia.
Defined.

(** After the tenth failure in a row nothing more is scheduled. *)
Example no_eleventh_attempt :
  let w := Spec.after_failures 11 (Spec.started false) in
  Client.pending_reconnects w = []
  /\ Spec.connection_state w = Redux.reconnecting
  /\ Spec.reported_attempt w = 10.
Proof. vm_compute. repeat split. Qed.

(** C4 fails on the code once the client has recovered.  [onopen] resets
    the store's attempt counter and delay and leaves the client's own
    counter, which the last retry had set to the number [k] of failures
    before the recovery.  So after [k] failures (1 to 9), a recovery and
    then [n] failures in a row (1 to 10), the store reports
    [min(1000 * 2^(n-1), 30000)], while the client waits the delay of
    attempt [k + 1] after the first of these failures, which is more
    than the 1000 ms reported, and the delay of attempt [n] after the
    others. *)
Theorem backoff_not_reset_on_open (opened : bool) (k n : nat) :
  (1 <= k <= 9)%nat ->
  (1 <= n <= 10)%nat ->
  let recovered :=
    Spec.connection_opens
      (Spec.backoff_elapses (Spec.after_failures k (Spec.started opened))) in
  let w := Spec.after_failures n recovered in
  Spec.connection_state recovered = Redux.connected
  /\ Spec.reported_attempt recovered = 0
  /\ Spec.reported_backoff recovered = 1000
  /\ Client.reconnectAttempt (Client.client recovered) = Z.of_nat k
  /\ Spec.reported_attempt w = Z.of_nat n
  /\ Spec.reported_backoff w = Spec.backoffMillis n
  /\ Client.pending_reconnects w
     = [Spec.backoffMillis (if Nat.eqb n 1 then S k else n)]
  /\ Spec.backoffMillis (S k) > Spec.backoffMillis 1.
Proof.
  intros Hk Hn.
  assert (Ck : In k (seq 1 9)) by (apply in_seq; lia).
  assert (Cn : In n (seq 1 10)) by (apply in_seq; lia).
  clear Hk Hn. simpl in Ck, Cn.
  destruct opened;
    repeat (destruct Ck as [<-|Ck];
            [repeat (destruct Cn as [<-|Cn]; [vm_compute; repeat split|]);
             destruct Cn|]);
    destruct Ck.
Qed.

Lemma backoff_not_reset_on_open_witness :
  let recovered :=
    Spec.connection_opens
      (Spec.backoff_elapses (Spec.after_failures 1 (Spec.started true))) in
  let w := Spec.after_failures 1 recovered in
  Spec.connection_state recovered = Redux.connected
  /\ Spec.reported_attempt recovered = 0
  /\ Spec.reported_backoff recovered = 1000
  /\ Client.reconnectAttempt (Client.client recovered) = 1
  /\ Spec.reported_attempt w = 1
  /\ Spec.reported_backoff w = Spec.backoffMillis 1
  /\ Client.pending_reconnects w = [Spec.backoffMillis 2]
  /\ Spec.backoffMillis 2 > Spec.backoffMillis 1.
Proof.
  apply (backoff_not_reset_on_open true 1 1); lia.
Defined.

(** The same in numbers, for a client that failed once and recovered:
    the first wait is 2000 ms while the store reports 1000, and the ten
    waits of a row of failures are 2000, 2000, 4000 and so on. *)
Example backoff_after_recovery :
  let recovered :=
    Client.step (Client.SocketOpen 1)
      (Spec.backoff_elapses (Spec.connection_fails (Spec.started true))) in
  let w := Spec.connection_fails recovered in
  Spec.connection_state recovered = Redux.connected
  /\ Spec.reported_attempt recovered = 0
  /\ Spec.reported_backoff recovered = 1000
  /\ Client.reconnectAttempt (Client.client recovered) = 1
  /\ Client.pending_reconnects w = [2000]
  /\ Spec.reported_backoff w = 1000
  /\ Spec.reported_attempt w = 1
  /\ map (fun n => Client.pending_reconnects (Spec.after_failures n recovered))
         (seq 1 10)
     = map (fun d => [d])
           [2000; 2000; 4000; 8000; 16000; 30000; 30000; 30000; 30000; 30000]
  /\ map (fun n => Spec.reported_backoff (Spec.after_failures n recovered))
         (seq 1 10)
     = [1000; 2000; 4000; 8000; 16000; 30000; 30000; 30000; 30000; 30000].
Proof. vm_compute. repeat split. Qed.

(** ** The connection client: disconnect and heartbeat *)

Example connected_world_shape :
  Spec.connection_state connected_world = Redux.connected
  /\ Client.isConnected connected_world = true
  /\ Client.timers connected_world = [Client.mkTimer 1 Client.Heartbeat 10000]
  /\ Client.ws (Client.client connected_world) = Some 0%nat.
Proof. vm_compute. repeat split. Qed.

(** What [disconnect] does do: no timeout is left pending, the socket in
    use starts closing and the client lets go of it.  The store is not
    told. *)
Lemma disconnect_cancels_and_closes :
  let w := Client.disconnect connected_world in
  Client.timers w = []
  /\ Client.readyState w 0 = Some CLOSING
  /\ Client.ws (Client.client w) = None
  /\ Client.redux w = Client.redux connected_world.
Proof. vm_compute. repeat split. Qed.

Lemma nth_error_set_nth {A} (l : list A) n x y :
  nth_error l n = Some y -> nth_error (set_nth n x l) n = Some x.
Proof.
  revert n. induction l as [|z l IH]; intros [|n]; simpl; try discriminate; auto.
Qed.

(** From every state in which the client holds an open socket and the
    store, and has attempts left: [disconnect()] does not touch the
    store, and the close event that follows reports [reconnecting] and
    leaves a reconnection pending. *)
Lemma disconnect_then_close (w : Client.World) (s : nat) :
  Client.ws (Client.client w) = Some s ->
  Client.readyState w s = Some OPEN ->
  Client.store (Client.client w) = Some Client.the_store ->
  Client.reconnectAttempt (Client.client w)
  < Client.maxReconnectAttempts (Client.client w) ->
  let w1 := Client.step Client.CallDisconnect w in
  let w2 := Client.step (Client.SocketClose s) w1 in
  Client.redux w1 = Client.redux w
  /\ Spec.connection_state w2 = Redux.reconnecting
  /\ In (Client.reconnect_delay (Client.reconnectAttempt (Client.client w) + 1))
        (Client.pending_reconnects w2).
Proof.
  destruct w as [[ws ra hb rt st mx] rx socks tms nt fr th].
  unfold Client.readyState. simpl. intros -> Hopen -> Hlt.
  assert (Hclosing : nth_error (set_nth s CLOSING socks) s = Some CLOSING)
    by (eapply nth_error_set_nth; eauto).
  unfold Client.disconnect, Client.clearHeartbeat.
  destruct hb as [h|], rt as [t|]; simpl;
    unfold Client.socket_close, Client.readyState; simpl; rewrite Hopen; simpl;
    (split; [reflexivity|]);
    unfold Client.readyState; simpl; rewrite Hclosing;
    unfold Client.onclose, Client.clearHeartbeat, Client.scheduleReconnect; simpl;
    (destruct (Z.leb_spec mx ra); [lia|]); simpl;
    (split; [reflexivity|]);
    unfold Client.pending_reconnects; simpl;
    rewrite filter_app, map_app; apply in_or_app; right; left; reflexivity.
Qed.

(** C5 fails on the code.  [disconnect()] on a connected client leaves
    the reported state at [connected]; when the close event of the socket
    it closed arrives, the close handler reports [reconnecting] and
    schedules a reconnection after 1000 ms, and when that timeout runs
    out a new socket is opened. *)
Theorem disconnect_is_not_terminal :
  let w1 := Client.step Client.CallDisconnect connected_world in
  let w2 := Client.step (Client.SocketClose 0) w1 in
  let w3 := Spec.backoff_elapses w2 in
  Spec.connection_state w1 = Redux.connected
  /\ Spec.connection_state w2 = Redux.reconnecting
  /\ Client.pending_reconnects w2 = [1000]
  /\ Client.ws (Client.client w3) = Some 1%nat
  /\ Client.readyState w3 1 = Some CONNECTING.
Proof. vm_compute. repeat split. Qed.

(** The heartbeat callback sends at most a ping: the store, the client
    object, the sockets and the pending timeouts are as they were. *)
Lemma heartbeat_callback_effect (w : Client.World) :
  let w' := Client.heartbeat_callback w in
  Client.redux w' = Client.redux w
  /\ Client.client w' = Client.client w
  /\ Client.sockets w' = Client.sockets w
  /\ Client.timers w' = Client.timers w
  /\ (Client.frames w' = Client.frames w
      \/ exists s, Client.frames w'
                   = (Client.frames w ++ [(s, Client.PingFrame)])%list).
Proof.
  unfold Client.heartbeat_callback.
  destruct (Client.ws (Client.client w)) as [s|]; simpl; [|tauto].
  destruct (is_open (Client.readyState w s)); simpl; [|tauto].
  repeat split. right. exists s. reflexivity.
Qed.

(** C6 fails on the code.  On a connected client that hears nothing for
    the whole heartbeat window, the timeout sends a ping and nothing
    else: the state stays [connected], no reconnection is scheduled, and
    no further heartbeat timeout is set. *)
Theorem heartbeat_timeout_stays_connected :
  let w := Client.step (Client.TimerElapsed 1) connected_world in
  Spec.connection_state w = Redux.connected
  /\ Client.pending_reconnects w = []
  /\ Client.timers w = []
  /\ Client.frames w = [(0%nat, Client.PingFrame)]
  /\ Client.isConnected w = true.
Proof. vm_compute. repeat split. Qed.

(** ** The connection client: incoming messages *)

Lemma js_or_default k d : js_or (Some k) d = if k =? 0 then d else k.
Proof. reflexivity. Qed.

(** C10 fails on the code.  For a chat that is not selected and shows [k]
    unread messages, a [newMessage] event leaves the counter at [k]
    unless [k] is 0, in which case it becomes 1: the handler passes
    [unreadCount || 0 + 1], which is [unreadCount || 1]. *)
Theorem newMessage_unread_count (k : Z) :
  Spec.unread_of "c1" (showing_unread k) = Some k
  /\ Spec.unread_of "c1" (Client.step incoming_for_c1 (showing_unread k))
     = Some (if k =? 0 then 1 else k).
Proof.
  split; [reflexivity|].
  unfold showing_unread, incoming_for_c1, Spec.unread_of. cbn.
  destruct (k =? 0); reflexivity.
Qed.

Example newMessage_unread_stays_3 :
  Spec.unread_of "c1" (Client.step incoming_for_c1 (showing_unread 3)) = Some 3.
Proof. reflexivity. Qed.

(** ** The broker *)

(** Every frame a tick sends carries the id drawn by the emitter, while
    the row the tick stores carries the id drawn inside [addMessage]. *)
Lemma emit_effect (t : Broker.Tick) (s : Broker.Server) :
  let s' := Broker.emit t s in
  (Broker.db s' = Broker.db s /\ Broker.sent s' = Broker.sent s)
  \/ exists chatId sender body new,
       Broker.db s'
       = Spec.inserted_and_updated (Broker.addMessage_uuid t)
           (Broker.addMessage_now t) chatId sender body (Broker.tick_now t)
           (Broker.db s)
       /\ Broker.sent s' = (Broker.sent s ++ new)%list
       /\ Forall (fun f => snd f = mkNewMessage chatId (Broker.tick_uuid t)
                                     (Broker.tick_now t) sender body) new.
Proof.
  unfold Broker.emit.
  destruct (Broker.isEmittingMessages s); simpl; [|tauto].
  destruct (Broker.random_chat_id _ _) as [chatId|]; [|tauto].
  rewrite addMessage_outcome.
  destruct (Db.has_message _ _); simpl; [tauto|].
  destruct (Db.has_chat _ _); simpl; [|tauto].
  right. exists chatId, (pick Broker.senders (Broker.random_sender t)),
                (pick Broker.messageTexts (Broker.random_text t)).
  unfold Broker.broadcast. simpl.
  destruct (Broker.clients s) as [cs|]; simpl.
  - eexists. split; [reflexivity|]. split; [reflexivity|].
    generalize 0%nat. induction cs as [|r cs IH]; intros i; simpl.
    + constructor.
    + destruct r; simpl; try constructor; auto.
  - exists []. rewrite app_nil_r. repeat split. constructor.
Qed.

(** C9 fails on the code.  A tick that stores its message broadcasts a
    [messageId] of its own to the open sessions; the row that
    [addMessage] stored has another id, and no message with the id that
    was broadcast exists in the store. *)
Theorem broadcast_messageId_not_stored :
  let s' := Broker.emit a_tick one_chat_server in
  let ev := mkNewMessage "c1" "uuid-A" 7000 "Alice" "Hey, how are you?" in
  Broker.sent s' = [(0%nat, ev); (2%nat, ev)]
  /\ Db.messages (Broker.db s')
     = [MessageRow.mk "uuid-B" "c1" 7000 "Alice" "Hey, how are you?" 7001]
  /\ Db.has_message (Broker.db s') "uuid-A" = false.
Proof. vm_compute. repeat split. Qed.

(** ** Seeding *)

Lemma exec_all_in_transaction body d w :
  snd (Db.exec_all (map Db.RUN body ++ [Db.COMMIT]) None (Db.mkConn d (Some w)))
  = match Spec.run_statements body w with
    | Ok w' => (Db.mkConn w' None, None)
    | Throw e => (Db.mkConn d None, Some e)
    end.
Proof.
  revert w. induction body as [|s body IH]; intros w.
  - reflexivity.
  - simpl. destruct (s w) as [w'|e]; [|reflexivity].
    specialize (IH w'). simpl in IH.
    destruct (Db.exec_all _ None _) as [tr r]. exact IH.
Qed.

Lemma transaction_run body d :
  Db.transaction body d
  = match Spec.run_statements body d with
    | Ok d' => (Ok tt, d')
    | Throw e => (Throw e, d)
    end.
Proof.
  unfold Db.transaction, Db.transaction_ops.
  change (Db.exec_all (Db.BEGIN :: map Db.RUN body ++ [Db.COMMIT]) None (Db.idle d))
    with (let '(tr, r) := Db.exec_all (map Db.RUN body ++ [Db.COMMIT]) None
                            (Db.mkConn d (Some d)) in
          (Db.mkConn d (Some d) :: tr, r)).
  pose proof (exec_all_in_transaction body d d) as H.
  destruct (Db.exec_all _ None _) as [tr r]. simpl in *. rewrite H.
  destruct (Spec.run_statements body d); reflexivity.
Qed.

Lemma run_statements_app a b d :
  Spec.run_statements (a ++ b) d
  = match Spec.run_statements a d with
    | Ok d' => Spec.run_statements b d'
    | Throw e => Throw e
    end.
Proof.
  revert d. induction a as [|s a IH]; intros d; simpl; [reflexivity|].
  destruct (s d); [apply IH|reflexivity].
Qed.

Lemma has_chat_false d x : Db.has_chat d x = false <-> ~ In x (Spec.chat_ids d).
Proof.
  unfold Db.has_chat, Spec.chat_ids. rewrite <- not_true_iff_false, existsb_exists.
  split; intros H C; apply H.
  - apply in_map_iff in C. destruct C as [c [<- Hc]]. exists c.
    split; [exact Hc|apply String.eqb_refl].
  - destruct C as [c [Hc E]]. apply String.eqb_eq in E. subst x.
    apply in_map, Hc.
Qed.

Lemma has_message_false d x :
  Db.has_message d x = false <-> ~ In x (Spec.message_ids d).
Proof.
  unfold Db.has_message, Spec.message_ids.
  rewrite <- not_true_iff_false, existsb_exists.
  split; intros H C; apply H.
  - apply in_map_iff in C. destruct C as [c [<- Hc]]. exists c.
    split; [exact Hc|apply String.eqb_refl].
  - destruct C as [c [Hc E]]. apply String.eqb_eq in E. subst x.
    apply in_map, Hc.
Qed.

Lemma has_chat_true d x : Db.has_chat d x = true <-> In x (Spec.chat_ids d).
Proof.
  destruct (Db.has_chat d x) eqn:E.
  - split; [intros _|reflexivity].
    destruct (in_dec string_dec x (Spec.chat_ids d)) as [H|H]; [exact H|].
    apply has_chat_false in H. congruence.
  - apply has_chat_false in E. split; [discriminate|contradiction].
Qed.

Section Seeding.
Variables (e : Entropy) (now : Z).
Hypothesis uuid_inj : forall i j, uuidv4 e i = uuidv4 e j -> i = j.

(** No uuid from call [u] on is the id of a message of [d]. *)
Let unused_from (u : nat) (d : Db.Database) : Prop :=
  forall i, (u <= i)%nat -> ~ In (uuidv4 e i) (Spec.message_ids d).

Lemma seed_messages_run chatId n : forall u r d,
  Db.has_chat d chatId = true ->
  unused_from u d ->
  exists d',
    Spec.run_statements (Db.seed_messages e now chatId n u r) d = Ok d'
    /\ Db.chats d' = Db.chats d
    /\ List.length (Db.messages d') = (List.length (Db.messages d) + n)%nat
    /\ unused_from (u + n) d'.
Proof.
  induction n as [|n IH]; intros u r d Hc Hu.
  - exists d. simpl. rewrite !Nat.add_0_r. auto.
  - simpl. unfold Db.insertMessage at 1. simpl.
    assert (Hf : Db.has_message d (uuidv4 e u) = false)
      by (apply has_message_false, Hu; lia).
    rewrite Hf, Hc.
    destruct (IH (S u) (r + 3)%nat
                 (Db.mkDb (Db.chats d)
                    (Db.messages d ++
                     [MessageRow.mk (uuidv4 e u) chatId
                        (now - floor_mul (random e (r + 2))
                                         (7 * 24 * 60 * 60 * 1000))
                        (pick Db.senders (random e r))
                        (pick Db.seed_texts (random e (r + 1))) now])%list))
      as [d' [Hrun [Hch [Hlen Hun]]]].
    + exact Hc.
    + intros i Hi C. unfold Spec.message_ids in C. simpl in C.
      rewrite map_app in C. apply in_app_or in C. destruct C as [C|C].
      * apply (Hu i); [lia|exact C].
      * simpl in C. destruct C as [C|[]]. apply uuid_inj in C. lia.
    + exists d'. split; [exact Hrun|]. split; [exact Hch|]. split.
      * rewrite Hlen. simpl. rewrite length_app. simpl. lia.
      * intros i Hi. apply Hun. lia.
Qed.

Lemma seed_chats_run cs : forall u r d,
  NoDup (map fst cs) ->
  (forall c, In c cs -> ~ In (fst c) (Spec.chat_ids d)) ->
  unused_from u d ->
  exists d',
    Spec.run_statements (Db.seed_chats e now cs u r) d = Ok d'
    /\ List.length (Db.chats d')
       = (List.length (Db.chats d) + List.length cs)%nat
    /\ (List.length (Db.messages d') >=
        List.length (Db.messages d) + 100 * List.length cs)%nat.
Proof.
  induction cs as [|[cid ctitle] cs IH]; intros u r d Hnd Hfresh Hu.
  - exists d. simpl. repeat split; lia.
  - cbn [Db.seed_chats Spec.run_statements app].
    unfold Db.insertChat at 1. cbn [ChatRow.id].
    assert (Hf : Db.has_chat d cid = false)
      by (apply has_chat_false, (Hfresh (cid, ctitle)); left; reflexivity).
    rewrite Hf, run_statements_app.
    set (d1 := Db.mkDb (Db.chats d ++ [ChatRow.mk cid ctitle now 0 now])%list
                       (Db.messages d)).
    set (n := Db.messageCountPerChat e r).
    destruct (seed_messages_run cid n u (S r) d1)
      as [d2 [Hrun [Hch [Hlen Hun]]]].
    + apply has_chat_true. unfold Spec.chat_ids, d1. simpl.
      rewrite map_app. apply in_or_app. right. left. reflexivity.
    + exact Hu.
    + rewrite Hrun. simpl in Hnd. apply NoDup_cons_iff in Hnd.
      destruct Hnd as [Hnotin Hnd].
      destruct (IH (u + n)%nat (S r + 3 * n)%nat d2 Hnd)
        as [d' [Hrun' [Hlc Hlm]]].
      * intros c Hc C. unfold Spec.chat_ids in C. rewrite Hch in C.
        unfold d1 in C. simpl in C. rewrite map_app in C.
        apply in_app_or in C. destruct C as [C|C].
        -- apply (Hfresh c); [right; exact Hc|exact C].
        -- simpl in C. destruct C as [C|[]]. apply Hnotin. rewrite C.
           apply in_map, Hc.
      * exact Hun.
      * exists d'. split; [exact Hrun'|]. split.
        -- rewrite Hlc, Hch. unfold d1. simpl. rewrite length_app. simpl. lia.
        -- assert (Hn : (100 <= n)%nat).
           { unfold n, Db.messageCountPerChat, floor_mul.
             assert (0 <= random e r mod 2 ^ 53 * 50 / 2 ^ 53).
             { apply Z.div_pos; [|lia].
               pose proof (Z.mod_pos_bound (random e r) (2 ^ 53)). lia. }
             lia. }
           rewrite Hlen in Hlm. unfold d1 in Hlm. simpl in Hlm. simpl. lia.
Qed.

Lemma refresh_run cs : forall d,
  exists d',
    Spec.run_statements
      (map (fun c : string * string => Db.refreshLastMessageAt (fst c)) cs) d
    = Ok d'
    /\ List.length (Db.chats d') = List.length (Db.chats d)
    /\ Db.messages d' = Db.messages d.
Proof.
  induction cs as [|c cs IH]; intros d.
  - exists d. auto.
  - simpl. unfold Db.refreshLastMessageAt at 1.
    destruct (Db.getLastMessage (fst c) d) as [t|]; [|apply IH].
    destruct (t =? 0); [apply IH|].
    match goal with |- context [Spec.run_statements _ ?x] =>
      destruct (IH x) as [d' [Hr [Hc Hm]]] end.
    exists d'. split; [exact Hr|]. split; [|exact Hm].
    rewrite Hc. simpl. apply length_map.
Qed.

(** [seedData] asks nothing about the store: with uuids that are new,
    it commits 200 more chats and at least 20000 more messages on
    whatever is there. *)
Lemma seedData_commits (d : Db.Database) :
  (forall i, ~ In (uuidv4 e i) (Spec.chat_ids d)) ->
  (forall i, ~ In (uuidv4 e i) (Spec.message_ids d)) ->
  exists d',
    Db.seedData e now d = (Ok tt, d')
    /\ List.length (Db.chats d') = (List.length (Db.chats d) + 200)%nat
    /\ (List.length (Db.messages d') >= List.length (Db.messages d) + 200 * 100)%nat.
Proof.
  intros Hc Hm. unfold Db.seedData. rewrite transaction_run.
  unfold Db.seedData_body. rewrite run_statements_app.
  destruct (seed_chats_run (Db.generated_chats e 200) 200 0 d)
    as [d1 [Hrun [Hlc Hlm]]].
  - unfold Db.generated_chats. rewrite map_map.
    apply Finite.Injective_map_NoDup; [|apply seq_NoDup].
    intros i j H. apply uuid_inj, H.
  - intros c Hin. unfold Db.generated_chats in Hin.
    apply in_map_iff in Hin. destruct Hin as [i [<- _]]. apply Hc.
  - intros i _. apply Hm.
  - rewrite Hrun.
    destruct (refresh_run (Db.generated_chats e 200) d1) as [d' [Hr [Hc' Hm']]].
    rewrite Hr. exists d'. split; [reflexivity|].
    unfold Db.generated_chats in *. rewrite length_map, length_seq in *.
    rewrite Hc', Hm'. split; lia.
Qed.

End Seeding.

Lemma xs_length k : String.length (Spec.xs k) = k.
Proof. induction k as [|k IH]; simpl; congruence. Qed.

Lemma tally_uuid_inj i j :
  uuidv4 Spec.tally i = uuidv4 Spec.tally j -> i = j.
Proof.
  simpl. intros H. injection H as H.
  rewrite <- (xs_length i), <- (xs_length j), H. reflexivity.
Qed.

(** C8 fails on the code.  On a store that already holds a chat,
    [initializeDatabase] leaves everything as it is, but the seed
    operation the renderer reaches through IPC is [seedData] itself,
    which has no guard: it commits 200 more chats and at least 20000 more
    messages. *)
Theorem seedData_not_idempotent :
  Db.initializeDatabase Spec.tally 5000 Spec.one_chat_store
  = (Ok tt, Spec.one_chat_store)
  /\ exists d',
       Ipc.seedData Spec.tally 5000 Spec.one_chat_store = (Ok tt, d')
       /\ List.length (Db.chats d') = 201%nat
       /\ (List.length (Db.messages d') >= 200 * 100)%nat.
Proof.
  split; [reflexivity|].
  destruct (seedData_commits Spec.tally 5000 tally_uuid_inj Spec.one_chat_store)
    as [d' [Hrun [Hc Hm]]].
  - intros i [C|[]]. discriminate.
  - intros i [].
  - exists d'. split; [exact Hrun|]. split; [exact Hc|exact Hm].
Qed.

(** * Further properties *)

(** ** The store: marking as read *)

Lemma markChatAsRead_rows chatId l :
  map ChatRow.id
      (map (fun c => if String.eqb (ChatRow.id c) chatId
                     then ChatRow.mk (ChatRow.id c) (ChatRow.title c)
                            (ChatRow.lastMessageAt c) 0 (ChatRow.createdAt c)
                     else c) l)
  = map ChatRow.id l.
Proof.
  rewrite map_map. apply map_ext. intros c.
  destruct (String.eqb (ChatRow.id c) chatId); reflexivity.
Qed.

(** X1.  [markChatAsRead] leaves the messages alone and goes through the
    chats row by row: every chat keeps its place, its id, its title, its
    [lastMessageAt] and its [createdAt]; a chat with the given id gets
    [unreadCount] 0 and every other chat keeps its [unreadCount], so it
    is the row it was.  Doing it twice is doing it once, and for an id
    no chat has, the store does not change. *)
Theorem markChatAsRead_effect (chatId : string) (d : Db.Database) :
  let d' := Db.markChatAsRead chatId d in
  Db.messages d' = Db.messages d
  /\ Forall2 (fun c c' =>
                ChatRow.id c' = ChatRow.id c
                /\ ChatRow.title c' = ChatRow.title c
                /\ ChatRow.lastMessageAt c' = ChatRow.lastMessageAt c
                /\ ChatRow.createdAt c' = ChatRow.createdAt c
                /\ (ChatRow.id c = chatId -> ChatRow.unreadCount c' = 0)
                /\ (ChatRow.id c <> chatId -> c' = c))
             (Db.chats d) (Db.chats d')
  /\ Spec.chat_ids d' = Spec.chat_ids d
  /\ Forall (fun c' => ChatRow.id c' = chatId -> ChatRow.unreadCount c' = 0)
            (Db.chats d')
  /\ Forall (fun c => ChatRow.id c <> chatId -> In c (Db.chats d')) (Db.chats d)
  /\ Db.markChatAsRead chatId d' = d'
  /\ (if Db.has_chat d chatId then True else d' = d).
Proof.
  destruct d as [cs ms]. unfold Db.markChatAsRead, Spec.chat_ids. simpl.
  split; [reflexivity|]. split.
  { induction cs as [|c cs IH]; simpl; constructor; [|exact IH].
    destruct (String.eqb (ChatRow.id c) chatId) eqn:E; simpl.
    - apply String.eqb_eq in E. repeat split; try reflexivity.
      intros N. contradiction.
    - apply String.eqb_neq in E. repeat split; try reflexivity.
      intros N. contradiction. }
  split; [apply markChatAsRead_rows|].
  split; [|split; [|split]].
  - apply Forall_forall. intros c' Hc' Hid. apply in_map_iff in Hc'.
    destruct Hc' as [c [<- _]].
    destruct (String.eqb (ChatRow.id c) chatId) eqn:E; [reflexivity|].
    apply String.eqb_neq in E. contradiction.
  - apply Forall_forall. intros c Hc Hid. apply in_map_iff. exists c.
    split; [|exact Hc]. apply String.eqb_neq in Hid. rewrite Hid. reflexivity.
  - f_equal. rewrite map_map. apply map_ext. intros c.
    destruct (String.eqb (ChatRow.id c) chatId) eqn:E; simpl; rewrite E;
      reflexivity.
  - unfold Db.has_chat. simpl.
    destruct (existsb _ cs) eqn:E; [exact I|]. f_equal.
    rewrite <- (map_id cs) at 2. apply map_ext_in. intros c Hc.
    destruct (String.eqb (ChatRow.id c) chatId) eqn:E'; [|reflexivity].
    assert (existsb (fun c => String.eqb (ChatRow.id c) chatId) cs = true)
      by (apply existsb_exists; exists c; auto).
    congruence.
Qed.

(** On a store with an unread chat: the counter of chat ["c1"] goes from
    3 to 0 and the row is otherwise what it was. *)
Example markChatAsRead_clears :
  Db.markChatAsRead "c1"
    (Db.mkDb [ ChatRow.mk "c1" "Chat 1" 2000 3 7; ChatRow.mk "c2" "Chat 2" 1000 5 8 ]
             [ MessageRow.mk "m1" "c1" 2000 "Alice" "Hi" 2000 ])
  = Db.mkDb [ ChatRow.mk "c1" "Chat 1" 2000 0 7; ChatRow.mk "c2" "Chat 2" 1000 5 8 ]
            [ MessageRow.mk "m1" "c1" 2000 "Alice" "Hi" 2000 ].
Proof. reflexivity. Qed.

(** ** The store: pages *)






(** ** The store: a new message read back *)

Section Newest.
Context {A : Type} (key : A -> Z).

Lemma insert_desc_front x l :
  Forall (fun y => key y <= key x) l -> insert_desc key x l = x :: l.
Proof.
  destruct l as [|y l]; [reflexivity|]. intros H. simpl.
  inversion H as [|? ? Hy _]; subst.
  destruct (Z.ltb_spec (key x) (key y)); [lia|reflexivity].
Qed.

(** A row whose key is larger than that of every row before it and not
    smaller than that of any row after it comes out first. *)
Lemma order_by_desc_newest l1 x l2 :
  Forall (fun y => key y < key x) l1 ->
  Forall (fun y => key y <= key x) l2 ->
  order_by_desc key (l1 ++ x :: l2) = x :: order_by_desc key (l1 ++ l2).
Proof.
  intros H1 H2. induction H1 as [|a l1 Ha H1 IH]; simpl.
  - apply insert_desc_front. apply Forall_forall. intros y Hy.
    apply order_by_desc_In in Hy. rewrite Forall_forall in H2. auto.
  - rewrite IH. simpl.
    destruct (Z.ltb_spec (key a) (key x)); [reflexivity|lia].
Qed.

End Newest.




Lemma find_split {A} (p : A -> bool) l x :
  find p l = Some x ->
  exists l1 l2, l = (l1 ++ x :: l2)%list
                /\ Forall (fun y => p y = false) l1 /\ p x = true.
Proof.
  induction l as [|y l IH]; simpl; [discriminate|].
  destruct (p y) eqn:E.
  - intros H. injection H as <-. exists [], l. repeat split; auto.
  - intros H. destruct (IH H) as [l1 [l2 [-> [H1 Hx]]]].
    exists (y :: l1), l2. repeat split; auto.
Qed.



(** ** The store: what every write keeps *)

Lemma keeps_insertChat c : Store.keeps Store.well_formed (Db.insertChat c).
Proof.
  intros d d' [Hc [Hm Hr]]. unfold Db.insertChat.
  destruct (Db.has_chat d (ChatRow.id c)) eqn:E; [discriminate|].
  intros H. injection H as <-. apply has_chat_false in E.
  unfold Store.well_formed, Spec.chat_ids, Spec.message_ids in *. simpl.
  rewrite map_app. simpl. split; [|split; [exact Hm|]].
  - apply NoDup_app; [exact Hc|repeat constructor; auto|].
    intros x Hx [<-|[]]. exact (E Hx).
  - eapply Forall_impl; [|exact Hr]. intros m Hin. apply in_or_app. auto.
Qed.

Lemma keeps_insertMessage m : Store.keeps Store.well_formed (Db.insertMessage m).
Proof.
  intros d d' [Hc [Hm Hr]]. unfold Db.insertMessage.
  destruct (Db.has_message d (MessageRow.id m)) eqn:E; [discriminate|].
  destruct (Db.has_chat d (MessageRow.chatId m)) eqn:F; [|discriminate].
  intros H. injection H as <-. apply has_message_false in E.
  apply has_chat_true in F.
  unfold Store.well_formed, Spec.chat_ids, Spec.message_ids in *. simpl.
  rewrite map_app. simpl. split; [exact Hc|split].
  - apply NoDup_app; [exact Hm|repeat constructor; auto|].
    intros x Hx [<-|[]]. exact (E Hx).
  - apply Forall_app. split; [exact Hr|]. repeat constructor. exact F.
Qed.

(** Rewriting chat rows without touching their ids or the messages. *)
Lemma well_formed_map_chats (f : ChatRow.t -> ChatRow.t) d :
  (forall c, ChatRow.id (f c) = ChatRow.id c) ->
  Store.well_formed d ->
  Store.well_formed (Db.mkDb (map f (Db.chats d)) (Db.messages d)).
Proof.
  intros Hf H. unfold Store.well_formed, Spec.chat_ids, Spec.message_ids in *.
  simpl. rewrite map_map.
  rewrite (map_ext (fun c => ChatRow.id (f c)) ChatRow.id Hf). exact H.
Qed.

Lemma keeps_updateChat ts cid : Store.keeps Store.well_formed (Db.updateChat ts cid).
Proof.
  intros d d' Hd H. unfold Db.updateChat in H. injection H as <-.
  apply well_formed_map_chats; [|exact Hd].
  intros c. destruct (String.eqb (ChatRow.id c) cid); reflexivity.
Qed.

Lemma keeps_refresh cid :
  Store.keeps Store.well_formed (Db.refreshLastMessageAt cid).
Proof.
  intros d d' Hd. unfold Db.refreshLastMessageAt.
  destruct (Db.getLastMessage cid d) as [t|]; [|congruence].
  destruct (t =? 0); [congruence|]. intros H. injection H as <-.
  apply well_formed_map_chats; [|exact Hd].
  intros c. destruct (String.eqb (ChatRow.id c) cid); reflexivity.
Qed.

Lemma run_statements_keeps (P : Db.Database -> Prop) body :
  Forall (Store.keeps P) body ->
  forall d d', P d -> Spec.run_statements body d = Ok d' -> P d'.
Proof.
  induction 1 as [|s body Hs _ IH]; intros d d' Hd; simpl.
  - congruence.
  - destruct (s d) as [d1|] eqn:E; [|discriminate]. apply IH. eapply Hs; eauto.
Qed.

Lemma transaction_keeps (P : Db.Database -> Prop) body d :
  Forall (Store.keeps P) body -> P d -> P (snd (Db.transaction body d)).
Proof.
  intros Hb Hd. rewrite transaction_run.
  destruct (Spec.run_statements body d) as [d'|] eqn:E; simpl; [|exact Hd].
  eapply run_statements_keeps; eauto.
Qed.

Lemma seed_messages_keep e now chatId n : forall u r,
  Forall (Store.keeps Store.well_formed) (Db.seed_messages e now chatId n u r).
Proof.
  induction n as [|n IH]; intros u r; simpl; constructor;
    [apply keeps_insertMessage|apply IH].
Qed.

Lemma seed_chats_keep e now cs : forall u r,
  Forall (Store.keeps Store.well_formed) (Db.seed_chats e now cs u r).
Proof.
  induction cs as [|[cid ctitle] cs IH]; intros u r; simpl; constructor;
    [apply keeps_insertChat|].
  apply Forall_app. split; [apply seed_messages_keep|apply IH].
Qed.

Lemma seedData_keeps e now d :
  Store.well_formed d -> Store.well_formed (snd (Db.seedData e now d)).
Proof.
  intros Hd. unfold Db.seedData. apply transaction_keeps; [|exact Hd].
  unfold Db.seedData_body. apply Forall_app. split; [apply seed_chats_keep|].
  apply Forall_forall. intros s Hs. apply in_map_iff in Hs.
  destruct Hs as [c [<- _]]. apply keeps_refresh.
Qed.

Lemma addMessage_keeps uuid now chatId sender body ts d :
  Store.well_formed d ->
  Store.well_formed (snd (Db.addMessage uuid now chatId sender body ts d)).
Proof.
  intros Hd. unfold Db.addMessage. apply transaction_keeps; [|exact Hd].
  unfold Db.addMessage_body.
  apply Forall_cons; [apply keeps_insertMessage|].
  apply Forall_cons; [apply keeps_updateChat|apply Forall_nil].
Qed.

(** X5.  Every write keeps the store well formed: if chat ids are
    unique, message ids are unique and every message belongs to a chat
    that exists, the same holds after [addMessage], [markChatAsRead],
    [seedData], [initializeDatabase] and a tick of the emitter, whether
    the call returns or throws. *)
Theorem writes_keep_well_formed
        (e : Entropy) (t : Broker.Tick) (s : Broker.Server)
        uuid now chatId sender body ts (d : Db.Database) :
  Store.well_formed d ->
  Broker.db s = d ->
  Store.well_formed (snd (Db.addMessage uuid now chatId sender body ts d))
  /\ Store.well_formed (Db.markChatAsRead chatId d)
  /\ Store.well_formed (snd (Db.seedData e now d))
  /\ Store.well_formed (snd (Db.initializeDatabase e now d))
  /\ Store.well_formed (Broker.db (Broker.emit t s)).
Proof.
  intros Hd Hs. split; [apply addMessage_keeps, Hd|].
  split; [|split; [apply seedData_keeps, Hd|split]].
  - unfold Db.markChatAsRead. apply well_formed_map_chats; [|exact Hd].
    intros c. destruct (String.eqb (ChatRow.id c) chatId); reflexivity.
  - unfold Db.initializeDatabase.
    destruct (Z.of_nat (List.length (Db.chats d)) =? 0);
      [apply seedData_keeps, Hd|exact Hd].
  - subst d. unfold Broker.emit.
    destruct (Broker.isEmittingMessages s); simpl; [|exact Hd].
    destruct (Broker.random_chat_id _ _) as [cid|]; [|exact Hd].
    pose proof (addMessage_keeps (Broker.addMessage_uuid t)
                  (Broker.addMessage_now t) cid
                  (pick Broker.senders (Broker.random_sender t))
                  (pick Broker.messageTexts (Broker.random_text t))
                  (Broker.tick_now t) (Broker.db s) Hd) as H.
    destruct (Db.addMessage _ _ _ _ _ _ _) as [[|] d']; simpl in *;
      [|exact H].
    unfold Broker.broadcast. simpl.
    destruct (Broker.clients s); exact H.
Qed.

Lemma writes_keep_well_formed_witness :
  let d := two_chats_one_message in
  Store.well_formed (snd (Db.addMessage "m2" 5000 "a" "Bob" "Hello" 3000 d))
  /\ Store.well_formed (Db.markChatAsRead "a" d)
  /\ Store.well_formed (snd (Db.seedData Spec.tally 5000 d))
  /\ Store.well_formed (snd (Db.initializeDatabase Spec.tally 5000 d))
  /\ Store.well_formed
       (Broker.db (Broker.emit a_tick
                     (Broker.mkServer two_chats_one_message None true []))).
Proof.
  apply (writes_keep_well_formed Spec.tally a_tick
           (Broker.mkServer two_chats_one_message None true [])
           "m2" 5000 "a" "Bob" "Hello" 3000 two_chats_one_message);
    [|reflexivity].
  unfold Store.well_formed. simpl. repeat split.
  - repeat constructor; simpl; intuition discriminate.
  - repeat constructor; simpl; intuition discriminate.
  - apply Forall_cons; [simpl; auto|apply Forall_nil].
Defined.

(** ** Seeding: how much is written *)

Lemma floor_mul_bounds r n : 0 < n -> 0 <= floor_mul r n < n.
Proof.
  intros Hn. unfold floor_mul.
  pose proof (Z.mod_pos_bound r (2 ^ 53) ltac:(lia)) as Hr.
  split.
  - apply Z.div_pos; nia.
  - apply Z.div_lt_upper_bound; [lia|nia].
Qed.

Lemma messageCountPerChat_bounds e r :
  (100 <= Db.messageCountPerChat e r <= 149)%nat.
Proof.
  unfold Db.messageCountPerChat.
  pose proof (floor_mul_bounds (random e r) 50 ltac:(lia)). lia.
Qed.

Lemma seed_messages_count e now chatId n : forall u r d d',
  Spec.run_statements (Db.seed_messages e now chatId n u r) d = Ok d' ->
  Db.chats d' = Db.chats d
  /\ List.length (Db.messages d') = (List.length (Db.messages d) + n)%nat.
Proof.
  induction n as [|n IH]; intros u r d d'; simpl.
  - intros H. injection H as <-. split; [reflexivity|lia].
  - unfold Db.insertMessage at 1. simpl.
    destruct (Db.has_message d (uuidv4 e u)); [discriminate|].
    destruct (Db.has_chat d chatId); [|discriminate].
    intros H. apply IH in H. simpl in H. destruct H as [Hc Hm].
    split; [exact Hc|]. rewrite Hm, length_app. simpl. lia.
Qed.

Lemma seed_chats_count e now cs : forall u r d d',
  Spec.run_statements (Db.seed_chats e now cs u r) d = Ok d' ->
  List.length (Db.chats d') = (List.length (Db.chats d) + List.length cs)%nat
  /\ (List.length (Db.messages d) + 100 * List.length cs
      <= List.length (Db.messages d')
      <= List.length (Db.messages d) + 149 * List.length cs)%nat.
Proof.
  induction cs as [|[cid ctitle] cs IH]; intros u r d d'.
  - simpl. intros H. injection H as <-. lia.
  - cbn [Db.seed_chats Spec.run_statements app].
    unfold Db.insertChat at 1. cbn [ChatRow.id].
    destruct (Db.has_chat d cid); [discriminate|].
    rewrite run_statements_app.
    destruct (Spec.run_statements (Db.seed_messages _ _ _ _ _ _) _)
      as [d1|] eqn:E1; [|discriminate].
    apply seed_messages_count in E1. simpl in E1. destruct E1 as [Hc1 Hm1].
    intros H. apply IH in H. destruct H as [Hc Hm].
    pose proof (messageCountPerChat_bounds e r).
    rewrite Hc1, length_app in Hc. simpl in *. lia.
Qed.

Lemma refresh_count cs : forall d d',
  Spec.run_statements
    (map (fun c : string * string => Db.refreshLastMessageAt (fst c)) cs) d
  = Ok d' ->
  List.length (Db.chats d') = List.length (Db.chats d)
  /\ Db.messages d' = Db.messages d.
Proof.
  induction cs as [|c cs IH]; intros d d'; simpl.
  - intros H. injection H as <-. auto.
  - unfold Db.refreshLastMessageAt at 1.
    destruct (Db.getLastMessage (fst c) d) as [t|]; [|apply IH].
    destruct (t =? 0); [apply IH|].
    intros H. apply IH in H. simpl in H. rewrite length_map in H. exact H.
Qed.

Lemma seedData_outcome (e : Entropy) (now : Z) (d : Db.Database) :
  match Db.seedData e now d with
  | (Ok _, d') =>
      Z.of_nat (List.length (Db.chats d'))
      = Z.of_nat (List.length (Db.chats d)) + 200
      /\ Z.of_nat (List.length (Db.messages d)) + 20000
         <= Z.of_nat (List.length (Db.messages d'))
         <= Z.of_nat (List.length (Db.messages d)) + 29800
  | (Throw _, d') => d' = d
  end.
Proof.
  unfold Db.seedData. rewrite transaction_run. unfold Db.seedData_body.
  rewrite run_statements_app.
  destruct (Spec.run_statements (Db.seed_chats _ _ _ _ _) d) as [d1|] eqn:E1;
    [|reflexivity].
  destruct (Spec.run_statements (map _ _) d1) as [d2|] eqn:E2; [|reflexivity].
  apply seed_chats_count in E1. apply refresh_count in E2.
  unfold Db.generated_chats in E1. rewrite length_map, length_seq in E1.
  destruct E1 as [Hc Hm], E2 as [Hc2 Hm2]. rewrite Hc2, Hm2. lia.
Qed.

(** X6.  [seedData] writes all or nothing: when it returns, the store
    has exactly 200 more chats and between 20000 and 29800 more messages
    (100 to 149 for each new chat); when it throws, the store is as it
    was. *)
Theorem seedData_all_or_nothing (e : Entropy) (now : Z) (d : Db.Database) :
  match Db.seedData e now d with
  | (Ok _, d') =>
      Z.of_nat (List.length (Db.chats d'))
      = Z.of_nat (List.length (Db.chats d)) + 200
      /\ Z.of_nat (List.length (Db.messages d)) + 20000
         <= Z.of_nat (List.length (Db.messages d'))
         <= Z.of_nat (List.length (Db.messages d)) + 29800
  | (Throw _, d') => d' = d
  end.
Proof.
  pose proof (seedData_outcome e now d) as H.
  destruct (Db.seedData e now d) as [[u|err] d']; exact H.
Qed.

(** X7.  Once [initializeDatabase] has returned, calling it again, with
    whatever uuids and clock, changes nothing: the store it leaves is
    never empty. *)
Theorem initializeDatabase_once (e1 e2 : Entropy) (now1 now2 : Z)
        (d : Db.Database) :
  fst (Db.initializeDatabase e1 now1 d) = Ok tt ->
  Db.chats (snd (Db.initializeDatabase e1 now1 d)) <> []
  /\ Db.initializeDatabase e2 now2 (snd (Db.initializeDatabase e1 now1 d))
     = (Ok tt, snd (Db.initializeDatabase e1 now1 d)).
Proof.
  intros Hok.
  assert (Hne : (0 < List.length
                       (Db.chats (snd (Db.initializeDatabase e1 now1 d))))%nat).
  { unfold Db.initializeDatabase in *.
    destruct (Z.eqb_spec (Z.of_nat (List.length (Db.chats d))) 0); simpl; [|lia].
    pose proof (seedData_outcome e1 now1 d) as H.
    destruct (Db.seedData e1 now1 d) as [[[]|] d']; simpl in *;
      [lia|discriminate]. }
  split.
  - intros C. rewrite C in Hne. simpl in Hne. lia.
  - unfold Db.initializeDatabase at 1.
    destruct (Z.eqb_spec (Z.of_nat (List.length
               (Db.chats (snd (Db.initializeDatabase e1 now1 d))))) 0);
      [lia|reflexivity].
Qed.

Lemma initializeDatabase_once_witness :
  Db.chats (snd (Db.initializeDatabase Spec.tally 5000 Spec.one_chat_store)) <> []
  /\ Db.initializeDatabase Spec.tally 6000
       (snd (Db.initializeDatabase Spec.tally 5000 Spec.one_chat_store))
     = (Ok tt, snd (Db.initializeDatabase Spec.tally 5000 Spec.one_chat_store)).
Proof.
  apply (initializeDatabase_once Spec.tally Spec.tally 5000 6000
           Spec.one_chat_store).
  reflexivity.
Defined.

(** ** The store: search finds what is there *)

(** X8.  With a query of at most 49998 bytes, of which at most 50
    messages of the chat match the pattern, [searchMessages] returns, and
    it returns every match and nothing else: a message is in the result
    exactly when it is the projection of a row of that chat whose body
    matches; and when the query has no [%], no [_] and no NUL, exactly
    when it is the projection of a row of that chat whose body, read up
    to its first NUL, contains the query character by character up to
    the case of ASCII letters. *)
Theorem searchMessages_complete (chatId q : string) (d : Db.Database) :
  Spec.fits q ->
  Z.of_nat (List.length (Store.matching chatId q d)) <= 50 ->
  exists rs,
    Db.searchMessages chatId q d = Ok rs
    /\ List.length rs = List.length (Store.matching chatId q d)
    /\ (forall m,
          In m rs
          <-> exists r, In r (Db.messages d)
                        /\ MessageRow.chatId r = chatId
                        /\ Sqlite.like ("%" ++ q ++ "%") (MessageRow.body r)
                           = true
                        /\ m = Db.message_of_row r)
    /\ (Spec.plain q = true ->
        forall m,
          In m rs
          <-> exists r, In r (Db.messages d)
                        /\ MessageRow.chatId r = chatId
                        /\ Spec.text_contains q (MessageRow.body r) = true
                        /\ m = Db.message_of_row r).
Proof.
  intros Hq Hle. eexists. split; [apply searchMessages_fits, Hq|].
  assert (E : limit_offset 50 0
                (order_by_desc MessageRow.ts (Store.matching chatId q d))
              = order_by_desc MessageRow.ts (Store.matching chatId q d)).
  { unfold limit_offset.
    change (50 <? 0) with false. change (skipn (Z.to_nat 0) ?l) with l.
    cbv iota. apply firstn_all2. rewrite order_by_desc_length. lia. }
  rewrite E.
  assert (Hin : forall m,
    In m (map Db.message_of_row
              (order_by_desc MessageRow.ts (Store.matching chatId q d)))
    <-> exists r, In r (Db.messages d)
                  /\ MessageRow.chatId r = chatId
                  /\ Sqlite.like ("%" ++ q ++ "%") (MessageRow.body r) = true
                  /\ m = Db.message_of_row r).
  { intros m. rewrite in_map_iff. split.
    - intros [r [<- Hr]]. apply order_by_desc_In in Hr.
      unfold Store.matching in Hr. apply filter_In in Hr.
      destruct Hr as [Hr H]. apply andb_true_iff in H.
      destruct H as [H1 H2]. apply String.eqb_eq in H1.
      exists r. auto.
    - intros [r [Hr [H1 [H2 ->]]]]. exists r. split; [reflexivity|].
      apply order_by_desc_In. unfold Store.matching. apply filter_In.
      split; [exact Hr|]. rewrite H2, <- H1, String.eqb_refl. reflexivity. }
  split; [|split].
  - rewrite length_map. apply order_by_desc_length.
  - exact Hin.
  - intros Hp m. rewrite Hin. split.
    + intros [r [Hr [H1 [H2 ->]]]]. exists r.
      rewrite like_contains in H2 by exact Hp. auto.
    + intros [r [Hr [H1 [H2 ->]]]]. exists r.
      rewrite <- like_contains in H2 by exact Hp. auto.
Qed.

Lemma searchMessages_complete_witness :
  exists rs,
    Db.searchMessages "a" "THERE" two_chats_one_message = Ok rs
    /\ List.length rs
       = List.length (Store.matching "a" "THERE" two_chats_one_message)
    /\ (forall m,
          In m rs
          <-> exists r, In r (Db.messages two_chats_one_message)
                        /\ MessageRow.chatId r = "a"
                        /\ Sqlite.like ("%" ++ "THERE" ++ "%") (MessageRow.body r)
                           = true
                        /\ m = Db.message_of_row r)
    /\ (Spec.plain "THERE" = true ->
        forall m,
          In m rs
          <-> exists r, In r (Db.messages two_chats_one_message)
                        /\ MessageRow.chatId r = "a"
                        /\ Spec.text_contains "THERE" (MessageRow.body r) = true
                        /\ m = Db.message_of_row r).
Proof.
  apply (searchMessages_complete "a" "THERE" two_chats_one_message).
  - vm_compute. discriminate.
  - vm_compute. discriminate.
Defined.

(** The search of the witness finds the one message of the chat, whose
    body has the query in small letters. *)
Example searchMessages_finds_there :
  Db.searchMessages "a" "THERE" two_chats_one_message
  = Ok [ Message.mk "m1" "a" 1000 "Alice" "Hi there" ]
  /\ Spec.plain "THERE" = true
  /\ Db.searchMessages "a" "THEIR" two_chats_one_message = Ok [].
Proof. vm_compute. repeat split. Qed.

(** ** The chat list and the message view *)

Lemma StronglySorted_snoc {A} (R : A -> A -> Prop) l x :
  StronglySorted R l -> Forall (fun y => R y x) l ->
  StronglySorted R (l ++ [x]).
Proof.
  induction 1 as [|y l Hs IH Hy]; intros Hx; simpl.
  - repeat constructor.
  - inversion Hx; subst. constructor; [apply IH; assumption|].
    apply Forall_app. split; [exact Hy|repeat constructor; assumption].
Qed.

Lemma StronglySorted_rev {A} (R : A -> A -> Prop) l :
  StronglySorted R l -> StronglySorted (fun a b => R b a) (rev l).
Proof.
  induction 1 as [|x l Hs IH Hx]; simpl; [constructor|].
  apply StronglySorted_snoc; [exact IH|].
  apply Forall_forall. intros y Hy. apply in_rev in Hy.
  rewrite Forall_forall in Hx. auto.
Qed.

Lemma getMessages_oldest_first chatId limit offset d :
  StronglySorted (fun a b => Message.ts a <= Message.ts b)
                 (rev (Db.getMessages chatId limit offset d)).
Proof.
  pose proof (StronglySorted_rev _ _ (getMessages_sorted chatId limit offset d))
    as H.
  eapply StronglySorted_map with (f := fun m : Message.t => m) in H.
  - rewrite map_id in H. exact H.
  - unfold Spec.message_not_older. intros a b Hab. simpl in Hab. lia.
Qed.

(** X9.  Selecting a chat selects it, marks it read in the store when
    the list showed unread messages for it (and leaves the store alone
    otherwise), and replaces the messages on display by the first page of
    the chat turned round: at most 50 messages of that chat, oldest
    first.  The message offset is left at 0. *)
Theorem handleSelectChat_effect (chat : Chat.t) (x : Ui.App) :
  let x' := Ui.handleSelectChat chat x in
  Redux.ChatsSlice.selectedId (Redux.chats (Ui.state x')) = Some (Chat.id chat)
  /\ Ui.db x' = (if 0 <? Chat.unreadCount chat
                 then Db.markChatAsRead (Chat.id chat) (Ui.db x)
                 else Ui.db x)
  /\ Ui.shown x'
     = rev (Db.getMessages (Chat.id chat) (Some 50) (Some 0) (Ui.db x))
  /\ StronglySorted (fun a b => Message.ts a <= Message.ts b) (Ui.shown x')
  /\ Forall (fun m => Message.chatId m = Chat.id chat) (Ui.shown x')
  /\ (List.length (Ui.shown x') <= 50)%nat
  /\ Redux.MessagesSlice.offset (Redux.messages (Ui.state x')) = 0.
Proof.
  unfold Ui.handleSelectChat, Ui.shown, Ui.dispatch. simpl.
  destruct (0 <? Chat.unreadCount chat); simpl;
    (split; [reflexivity|]); (split; [reflexivity|]);
    (split; [reflexivity|]);
    (split; [apply getMessages_oldest_first|]);
    (split; [apply Forall_rev, getMessages_chatId|]);
    (split; [|reflexivity]);
    rewrite length_rev; unfold Ipc.getMessages, Db.getMessages;
    rewrite length_map; cbn [default_arg];
    match goal with |- (List.length (limit_offset ?a ?o ?l) <= _)%nat =>
      pose proof (limit_offset_length a o l ltac:(lia)) as H end;
    lia.
Qed.

(** X10.  [setMessages] leaves the offset at 0, so the first "load
    older" after a chat was selected asks for the page at offset 0 again:
    the messages on display are then the first page twice over, and only
    then does the offset move on, by the length of that page. *)
Theorem first_load_older_repeats_page (chat : Chat.t) (x : Ui.App) :
  Chat.id chat <> "" ->
  let x1 := Ui.handleSelectChat chat x in
  let x2 := Ui.handleLoadOlderMessages x1 in
  Ui.shown x2 = (Ui.shown x1 ++ Ui.shown x1)%list
  /\ Redux.MessagesSlice.offset (Redux.messages (Ui.state x2))
     = Z.of_nat (List.length (Ui.shown x1))
  /\ Ui.db x2 = Ui.db x1.
Proof.
  intros Hid. destruct chat as [[|a cid] ctitle clast cunread];
    [contradiction Hid; reflexivity|].
  unfold Ui.handleLoadOlderMessages, Ui.handleSelectChat, Ui.shown, Ui.dispatch.
  simpl. destruct (0 <? cunread); simpl; rewrite length_rev; repeat split.
Qed.

Lemma first_load_older_repeats_page_witness :
  let chat := Chat.mk "a" "Chat a" 1000 0 in
  let x := Ui.mkApp two_chats_one_message Redux.initialState in
  let x1 := Ui.handleSelectChat chat x in
  let x2 := Ui.handleLoadOlderMessages x1 in
  Ui.shown x2 = (Ui.shown x1 ++ Ui.shown x1)%list
  /\ Redux.MessagesSlice.offset (Redux.messages (Ui.state x2))
     = Z.of_nat (List.length (Ui.shown x1))
  /\ Ui.db x2 = Ui.db x1.
Proof.
  apply (first_load_older_repeats_page (Chat.mk "a" "Chat a" 1000 0)
           (Ui.mkApp two_chats_one_message Redux.initialState)).
  simpl. discriminate.
Defined.

(** X11.  [setChats] moves neither the offset nor [hasMore], so from a
    chat list that is idle at offset 0 with more to load (as it is when
    the component mounts) [loadChats] shows the first 50 chats of the
    store and is back in the same situation: loading more any number of
    times shows those first 50 chats again, never a later one. *)
Theorem loadChats_stays_on_first_page (n : nat) (x : Ui.App) :
  Redux.ChatsSlice.isLoading (Redux.chats (Ui.state x)) = false ->
  Redux.ChatsSlice.hasMore (Redux.chats (Ui.state x)) = true ->
  Redux.ChatsSlice.offset (Redux.chats (Ui.state x)) = 0 ->
  let x' := Nat.iter (S n) Ui.loadChats x in
  Ui.listed x' = Db.getChats (Some 50) (Some 0) (Ui.db x)
  /\ x' = Ui.loadChats x
  /\ Redux.ChatsSlice.offset (Redux.chats (Ui.state x')) = 0.
Proof.
  intros Hl Hm Ho.
  assert (Hone : forall y,
             Redux.ChatsSlice.isLoading (Redux.chats (Ui.state y)) = false ->
             Redux.ChatsSlice.hasMore (Redux.chats (Ui.state y)) = true ->
             Redux.ChatsSlice.offset (Redux.chats (Ui.state y)) = 0 ->
             Ui.loadChats y
             = Ui.mkApp (Ui.db y)
                 (Redux.on_chats
                    (fun s => Redux.ChatsSlice.mk
                                (Db.getChats (Some 50) (Some 0) (Ui.db y))
                                (Redux.ChatsSlice.selectedId s) false 0 true)
                    (Ui.state y))).
  { intros [dy [cn [it sel ld off hm] ms se]]. simpl.
    intros -> -> ->. reflexivity. }
  assert (Hfix : Ui.loadChats (Ui.loadChats x) = Ui.loadChats x).
  { rewrite (Hone x Hl Hm Ho). rewrite Hone by reflexivity. reflexivity. }
  assert (Hall : Nat.iter (S n) Ui.loadChats x = Ui.loadChats x).
  { induction n as [|n IH]; [reflexivity|].
    change (Nat.iter (S (S n)) Ui.loadChats x)
      with (Ui.loadChats (Nat.iter (S n) Ui.loadChats x)).
    rewrite IH. exact Hfix. }
  cbv zeta. rewrite Hall, (Hone x Hl Hm Ho). repeat split.
Qed.

Lemma loadChats_stays_on_first_page_witness :
  let x := Ui.mkApp two_chats_one_message Redux.initialState in
  let x' := Nat.iter 3 Ui.loadChats x in
  Ui.listed x' = Db.getChats (Some 50) (Some 0) (Ui.db x)
  /\ x' = Ui.loadChats x
  /\ Redux.ChatsSlice.offset (Redux.chats (Ui.state x')) = 0.
Proof.
  apply (loadChats_stays_on_first_page 2
           (Ui.mkApp two_chats_one_message Redux.initialState));
    reflexivity.
Defined.

(** ** The Redux store *)

Lemma update_first_split {A} (p : A -> bool) (f : A -> A) l1 x l2 :
  Forall (fun y => p y = false) l1 -> p x = true ->
  Redux.update_first p f (l1 ++ x :: l2) = (l1 ++ f x :: l2)%list.
Proof.
  intros H1 Hx. induction H1 as [|y l1 Hy _ IH]; simpl.
  - rewrite Hx. reflexivity.
  - rewrite Hy, IH. reflexivity.
Qed.

Lemma update_first_none {A} (p : A -> bool) (f : A -> A) l :
  find p l = None -> Redux.update_first p f l = l.
Proof.
  induction l as [|x l IH]; simpl; [reflexivity|].
  destruct (p x); [discriminate|]. intros H. rewrite IH by exact H. reflexivity.
Qed.

(** X12.  [updateChatLastMessage] for a chat the list does not hold
    changes nothing.  For a chat it holds, the first entry with that id
    gets the new [lastMessageAt] and the list is sorted by
    [lastMessageAt], newest first, with the same chats as before; if the
    new timestamp is newer than every [lastMessageAt] in the list, that
    chat is now first. *)
Theorem updateChatLastMessage_effect (chatId : string) (ts : Z)
        (s : Redux.ChatsSlice.t) :
  let s' := Redux.updateChatLastMessage chatId ts s in
  match find (Redux.is_chat chatId) (Redux.ChatsSlice.items s) with
  | None => s' = s
  | Some c =>
      let c' := Chat.mk (Chat.id c) (Chat.title c) ts (Chat.unreadCount c) in
      StronglySorted Spec.chat_not_older (Redux.ChatsSlice.items s')
      /\ Permutation (map Chat.id (Redux.ChatsSlice.items s'))
                     (map Chat.id (Redux.ChatsSlice.items s))
      /\ In c' (Redux.ChatsSlice.items s')
      /\ (Forall (fun y => Chat.lastMessageAt y < ts) (Redux.ChatsSlice.items s)
          -> hd_error (Redux.ChatsSlice.items s') = Some c')
  end.
Proof.
  unfold Redux.updateChatLastMessage.
  destruct (find _ _) as [c|] eqn:E; [|reflexivity].
  apply find_split in E. destruct E as [l1 [l2 [Hl [H1 Hc]]]].
  unfold Redux.with_items. simpl. rewrite Hl.
  rewrite (update_first_split _ _ _ _ _ H1 Hc).
  split; [apply (order_by_desc_sorted Chat.lastMessageAt)|].
  split; [|split].
  - rewrite order_by_desc_perm, !map_app. reflexivity.
  - apply order_by_desc_In, in_or_app. right. left. reflexivity.
  - intros Hall. apply Forall_app in Hall. destruct Hall as [Ha Hb].
    inversion Hb as [|? ? _ Hb']; subst.
    rewrite (order_by_desc_newest Chat.lastMessageAt); [reflexivity| |].
    + exact Ha.
    + eapply Forall_impl; [|exact Hb']. simpl. intros. lia.
Qed.

(** X13.  From the first attempt on, the backoff delay lies between
    1000 and 30000 ms, never shrinks from one attempt to the next, is
    [1000 * 2^(attempt - 1)] for attempts 1 to 5 and 30000 from attempt 6
    on; the client's delay and the store's [backoffDelay] are the same
    function of the attempt number. *)
Theorem backoff_bounds (attempt : Z) :
  1 <= attempt ->
  1000 <= Redux.backoff attempt <= 30000
  /\ Redux.backoff attempt <= Redux.backoff (attempt + 1)
  /\ Redux.backoff attempt
     = (if attempt <=? 5 then 1000 * 2 ^ (attempt - 1) else 30000)
  /\ Client.reconnect_delay attempt = Redux.backoff attempt
  /\ Redux.ConnectionSlice.backoffDelay
       (Redux.incrementReconnectAttempt
          (Redux.ConnectionSlice.mk Redux.reconnecting (attempt - 1) 1000))
     = Redux.backoff attempt.
Proof.
  intros Ha. unfold Redux.backoff, Client.reconnect_delay,
    Redux.incrementReconnectAttempt. simpl Redux.ConnectionSlice.backoffDelay.
  replace (attempt - 1 + 1) with attempt by lia.
  assert (H1 : 1 <= 2 ^ (attempt - 1))
    by (apply (Z.pow_le_mono_r 2 0 (attempt - 1)); lia).
  assert (Hm : 2 ^ (attempt - 1) <= 2 ^ (attempt + 1 - 1))
    by (apply Z.pow_le_mono_r; lia).
  split; [lia|]. split; [lia|]. split; [|unfold Redux.backoff; repeat split].
  destruct (Z.leb_spec attempt 5).
  - assert (Hc : attempt = 1 \/ attempt = 2 \/ attempt = 3 \/ attempt = 4
                 \/ attempt = 5) by lia.
    destruct Hc as [->|[->|[->|[->| ->]]]]; reflexivity.
  - assert (H5 : 2 ^ 5 <= 2 ^ (attempt - 1))
      by (apply Z.pow_le_mono_r; lia).
    change (2 ^ 5) with 32 in H5. lia.
Qed.

Lemma backoff_bounds_witness :
  1000 <= Redux.backoff 7 <= 30000
  /\ Redux.backoff 7 <= Redux.backoff (7 + 1)
  /\ Redux.backoff 7 = (if 7 <=? 5 then 1000 * 2 ^ (7 - 1) else 30000)
  /\ Client.reconnect_delay 7 = Redux.backoff 7
  /\ Redux.ConnectionSlice.backoffDelay
       (Redux.incrementReconnectAttempt
          (Redux.ConnectionSlice.mk Redux.reconnecting (7 - 1) 1000))
     = Redux.backoff 7.
Proof. apply (backoff_bounds 7). lia. Defined.

(** ** The connection client: what holds in every state *)

Lemma reconnect_delay_range a :
  0 <= a -> 1000 <= Client.reconnect_delay (a + 1) <= 30000.
Proof.
  intros Ha. unfold Client.reconnect_delay.
  replace (a + 1 - 1) with a by lia.
  assert (1 <= 2 ^ a) by (apply (Z.pow_le_mono_r 2 0 a); lia). lia.
Qed.

Lemma backoff_range a : 0 <= a -> 1000 <= Redux.backoff (a + 1) <= 30000.
Proof. exact (reconnect_delay_range a). Qed.

Lemma NoDup_map_filter {A B} (g : A -> B) (f : A -> bool) l :
  NoDup (map g l) -> NoDup (map g (filter f l)).
Proof.
  induction l as [|x l IH]; simpl; [auto|]. intros H.
  apply NoDup_cons_iff in H. destruct H as [Hx Hl].
  destruct (f x); simpl; [|auto]. constructor; [|auto].
  intros C. apply Hx. apply in_map_iff in C. destruct C as [y [E Hy]].
  apply filter_In in Hy. rewrite <- E. apply in_map, Hy.
Qed.

Lemma timers_ok_clear hb next t ts :
  Health.timers_ok hb next ts ->
  Health.timers_ok hb next
    (filter (fun x => negb (Nat.eqb (Client.timer_id x) t)) ts).
Proof.
  intros [Hf Hn]. split; [|apply NoDup_map_filter, Hn].
  apply Forall_forall. intros x Hx. apply filter_In in Hx.
  rewrite Forall_forall in Hf. apply Hf, Hx.
Qed.

Lemma timers_ok_forget t next ts :
  Health.timers_ok (Some t) next ts ->
  Health.timers_ok None next
    (filter (fun x => negb (Nat.eqb (Client.timer_id x) t)) ts).
Proof.
  intros [Hf Hn]. split; [|apply NoDup_map_filter, Hn].
  apply Forall_forall. intros x Hx. apply filter_In in Hx.
  destruct Hx as [Hin Hne]. rewrite Forall_forall in Hf.
  destruct (Hf x Hin) as [Hid Hk]. split; [exact Hid|].
  destruct (Client.kind x); [|exact Hk].
  destruct Hk as [_ Hk]. injection Hk as ->.
  rewrite Nat.eqb_refl in Hne. discriminate.
Qed.

Lemma timers_ok_add_reconnect hb next ts d :
  Health.timers_ok hb next ts -> 1000 <= d <= 30000 ->
  Health.timers_ok hb (S next) (ts ++ [Client.mkTimer next Client.Reconnect d]).
Proof.
  intros [Hf Hn] Hd. split.
  - apply Forall_app. split.
    + eapply Forall_impl; [|exact Hf]. intros x [Hid Hk]. split; [lia|exact Hk].
    + repeat constructor; simpl; lia.
  - rewrite map_app. simpl. apply NoDup_app; [exact Hn|repeat constructor; auto|].
    intros i Hi [<-|[]]. apply in_map_iff in Hi. destruct Hi as [x [E Hx]].
    rewrite Forall_forall in Hf. destruct (Hf x Hx) as [Hid _]. lia.
Qed.

Lemma timers_ok_add_heartbeat next ts :
  Health.timers_ok None next ts ->
  Health.timers_ok (Some next) (S next)
    (ts ++ [Client.mkTimer next Client.Heartbeat 10000]).
Proof.
  intros [Hf Hn]. split.
  - apply Forall_app. split.
    + eapply Forall_impl; [|exact Hf]. intros x [Hid Hk]. split; [lia|].
      destruct (Client.kind x); [|exact Hk]. destruct Hk as [_ Hk]. discriminate.
    + repeat constructor; simpl; auto.
  - rewrite map_app. simpl. apply NoDup_app; [exact Hn|repeat constructor; auto|].
    intros i Hi [<-|[]]. apply in_map_iff in Hi. destruct Hi as [x [E Hx]].
    rewrite Forall_forall in Hf. destruct (Hf x Hx) as [Hid _]. lia.
Qed.

Lemma ok_clearHeartbeat w :
  Health.ok w ->
  Health.ok (Client.clearHeartbeat w)
  /\ Client.heartbeatTimeout (Client.client (Client.clearHeartbeat w)) = None
  /\ Client.redux (Client.clearHeartbeat w) = Client.redux w
  /\ Client.store (Client.client (Client.clearHeartbeat w))
     = Client.store (Client.client w).
Proof.
  destruct w as [[ws ra hb rt st mx] rx socks tms nt fr th].
  unfold Health.ok, Client.clearHeartbeat. simpl. intros [Hc Ht].
  destruct hb as [t|]; simpl; repeat split; try apply Hc; try apply Ht.
  - apply (timers_ok_forget t nt tms Ht).
  - apply (timers_ok_forget t nt tms Ht).
Qed.

Lemma ok_resetHeartbeat w : Health.ok w -> Health.ok (Client.resetHeartbeat w).
Proof.
  intros H. destruct (ok_clearHeartbeat w H) as [[Hc Ht] [Hhb _]].
  unfold Client.resetHeartbeat.
  destruct (Client.clearHeartbeat w) as [[ws ra hb rt st mx] rx socks tms nt fr th].
  simpl in *. subst hb. split; [exact Hc|].
  apply timers_ok_add_heartbeat, Ht.
Qed.

Lemma ok_scheduleReconnect w : Health.ok w -> Health.ok (Client.scheduleReconnect w).
Proof.
  destruct w as [[ws ra hb rt st mx] rx socks tms nt fr th].
  unfold Health.ok, Client.scheduleReconnect. simpl.
  intros [[Hmx [Hra [Hle [Hns Hbd]]]] Ht]. simpl in *. subst mx.
  destruct (Z.leb_spec 10 ra);
    [split; [unfold Health.counters_ok; simpl; auto|exact Ht]|].
  unfold Client.dispatch_if_store. simpl.
  destruct st as [[]|]; simpl.
  - split.
    + unfold Health.counters_ok. simpl. repeat split; try lia; try discriminate;
        apply backoff_range; lia.
    + apply timers_ok_add_reconnect; [exact Ht|apply reconnect_delay_range; lia].
  - split.
    + unfold Health.counters_ok. simpl. specialize (Hns eq_refl).
      repeat split; auto; lia.
    + apply timers_ok_add_reconnect; [exact Ht|apply reconnect_delay_range; lia].
Qed.

Lemma ok_attemptConnection w : Health.ok w -> Health.ok (Client.attemptConnection w).
Proof.
  intros H. unfold Client.attemptConnection.
  destruct (Client.WebSocket_throws w); [apply ok_scheduleReconnect, H|exact H].
Qed.

Lemma ok_with_sockets f w : Health.ok w -> Health.ok (Client.with_sockets f w).
Proof. intros H. exact H. Qed.

Lemma ok_clearTimeout t w : Health.ok w -> Health.ok (Client.clearTimeout t w).
Proof.
  intros [Hc Ht]. split; [exact Hc|]. simpl. apply timers_ok_clear, Ht.
Qed.

Lemma ok_set_state p w :
  Health.ok w ->
  Health.ok (Client.dispatch_if_store (Redux.SetConnectionState p) w).
Proof.
  destruct w as [[ws ra hb rt st mx] rx socks tms nt fr th].
  unfold Health.ok, Client.dispatch_if_store. simpl. intros [Hc Ht].
  destruct st as [[]|]; simpl; [|auto]. split; [|exact Ht].
  destruct Hc as [Hmx [Hra [Hle [Hns Hbd]]]]. simpl in *.
  unfold Health.counters_ok. destruct p; simpl; repeat split;
    try lia; try discriminate; auto.
Qed.

Lemma ok_chats_only (f : Redux.AppState -> Redux.AppState) w :
  (forall s, Redux.connection (f s) = Redux.connection s) ->
  Health.ok w -> Health.ok (Client.with_redux f w).
Proof.
  intros Hf [Hc Ht]. split; [|exact Ht].
  unfold Health.counters_ok in *. simpl. rewrite Hf. exact Hc.
Qed.

Lemma ok_on_newMessage data w : Health.ok w -> Health.ok (Client.on_newMessage data w).
Proof.
  intros H. unfold Client.on_newMessage.
  destruct (Client.selected_is _ _);
    apply ok_chats_only; try reflexivity; apply ok_chats_only; try reflexivity;
    exact H.
Qed.

Lemma ok_reconnect_callback w :
  Health.ok w -> Health.ok (Client.reconnect_callback w).
Proof.
  intros H. unfold Client.reconnect_callback. apply ok_attemptConnection.
  destruct w as [[ws ra hb rt st mx] rx socks tms nt fr th].
  destruct H as [[Hmx [Hra [Hle [Hns Hbd]]]] Ht]. simpl in *.
  split; [|exact Ht]. unfold Health.counters_ok. simpl.
  destruct st as [[]|]; simpl.
  - set (a := Redux.ConnectionSlice.reconnectAttempt (Redux.connection rx)) in *.
    destruct (Z.eqb_spec a 0); repeat split; try lia; try discriminate; auto.
  - specialize (Hns eq_refl). repeat split; auto; lia.
Qed.

Lemma ok_step e w : Health.ok w -> Health.ok (Client.step e w).
Proof.
  intros H. destruct e as [| | |s|s d|s|s|t]; simpl.
  - unfold Client.connect. apply ok_attemptConnection.
    destruct w as [[ws ra hb rt st mx] rx socks tms nt fr th].
    destruct H as [[Hmx [Hra [Hle [Hns Hbd]]]] Ht]. simpl in *.
    split; [|exact Ht]. unfold Health.counters_ok. simpl.
    repeat split; try lia; try discriminate; auto.
  - unfold Client.disconnect.
    destruct (ok_clearHeartbeat w H) as [H1 _].
    set (w1 := Client.clearHeartbeat w) in *.
    assert (H2 : Health.ok (match Client.reconnectTimeout (Client.client w1) with
                            | Some t => Client.clearTimeout t w1
                            | None => w1
                            end))
      by (destruct (Client.reconnectTimeout _); [apply ok_clearTimeout|]; exact H1).
    destruct (Client.ws _) as [s|]; [|exact H2].
    unfold Client.socket_close.
    destruct (Client.readyState _ s) as [[]|]; exact H2.
  - unfold Client.simulateConnectionDrop.
    destruct (Client.ws _) as [s|]; [|exact H].
    unfold Client.socket_close. destruct (Client.readyState w s) as [[]|]; exact H.
  - destruct (Client.readyState w s) as [[]|]; try exact H.
    unfold Client.onopen. apply ok_resetHeartbeat, ok_set_state. exact H.
  - destruct (Client.readyState w s) as [[]|]; try exact H.
    unfold Client.onmessage. destruct d as [|ty data]; [exact H|].
    destruct (String.eqb ty "connected"); [exact H|].
    apply ok_resetHeartbeat.
    destruct (Client.store _); [|exact H].
    destruct (String.eqb ty "newMessage"); [apply ok_on_newMessage|]; exact H.
  - destruct (Client.readyState w s) as [[]|]; try exact H;
      apply ok_set_state; exact H.
  - destruct (Client.readyState w s) as [[]|]; try exact H;
      unfold Client.onclose; apply ok_scheduleReconnect, ok_set_state;
      apply (ok_clearHeartbeat (Client.with_sockets _ w)); exact H.
  - unfold Client.fire. destruct (find _ _) as [x|]; [|exact H].
    destruct (Client.kind x).
    + unfold Client.heartbeat_callback.
      pose proof (ok_clearTimeout t w H) as H1.
      destruct (Client.ws _) as [s|]; [|exact H1].
      destruct (is_open _); exact H1.
    + apply ok_reconnect_callback, ok_clearTimeout, H.
Qed.

Lemma ok_fresh throws : Health.ok (Health.fresh throws).
Proof.
  unfold Health.ok, Health.counters_ok, Health.timers_ok. simpl.
  repeat split; try lia; constructor.
Qed.

Lemma ok_run es : forall w, Health.ok w -> Health.ok (Client.run es w).
Proof.
  unfold Client.run. induction es as [|e es IH]; intros w H; simpl; [exact H|].
  apply IH, ok_step, H.
Qed.

(** X14.  Whatever happens to a client, in whatever order (calls,
    socket events, timeouts, a constructor that throws): the attempt the
    store reports is never negative, never above the client's own
    counter, and neither exceeds 10; the reported [backoffDelay] and the
    delay of every reconnection that is pending lie between 1000 and
    30000 ms. *)
Theorem attempts_and_delays_in_range (throws : bool) (es : list Client.Event) :
  let w := Client.run es (Health.fresh throws) in
  0 <= Spec.reported_attempt w <= Client.reconnectAttempt (Client.client w)
  /\ Client.reconnectAttempt (Client.client w) <= 10
  /\ 1000 <= Spec.reported_backoff w <= 30000
  /\ Forall (fun d => 1000 <= d <= 30000) (Client.pending_reconnects w).
Proof.
  destruct (ok_run es _ (ok_fresh throws)) as [[_ [Hra [Hle [_ Hbd]]]] [Ht _]].
  cbv zeta. split; [exact Hra|]. split; [exact Hle|]. split; [exact Hbd|].
  unfold Client.pending_reconnects. apply Forall_forall. intros d Hd.
  apply in_map_iff in Hd. destruct Hd as [x [<- Hx]]. apply filter_In in Hx.
  destruct Hx as [Hin Hk]. rewrite Forall_forall in Ht.
  destruct (Ht x Hin) as [_ H]. destruct (Client.kind x); [discriminate|exact H].
Qed.

Lemma one_heartbeat hb next ts :
  Health.timers_ok hb next ts ->
  (List.length (filter Health.is_heartbeat ts) <= 1)%nat.
Proof.
  intros [Hf Hn]. induction ts as [|x ts IH]; simpl; [lia|].
  inversion Hf as [|? ? Hx Hf']; subst. simpl in Hn.
  apply NoDup_cons_iff in Hn. destruct Hn as [Hnx Hn'].
  specialize (IH Hf' Hn').
  destruct (Health.is_heartbeat x) eqn:E; [|exact IH]. simpl.
  destruct (filter Health.is_heartbeat ts) as [|y l] eqn:F; [simpl; lia|].
  exfalso. apply Hnx.
  assert (Hy : In y (filter Health.is_heartbeat ts)) by (rewrite F; left; auto).
  apply filter_In in Hy. destruct Hy as [Hyin Hyk].
  rewrite Forall_forall in Hf'. destruct (Hf' y Hyin) as [_ Hky].
  destruct Hx as [_ Hkx]. unfold Health.is_heartbeat in E, Hyk.
  destruct (Client.kind x); [|discriminate].
  destruct (Client.kind y); [|discriminate].
  destruct Hkx as [_ Hkx], Hky as [_ Hky]. rewrite Hkx in Hky.
  injection Hky as Hky. rewrite Hky. apply in_map, Hyin.
Qed.

(** X15.  Heartbeat timeouts do not pile up: in every state a client
    can reach there is at most one heartbeat timeout pending, it lasts
    10000 ms, and it is the one the client holds in [heartbeatTimeout]. *)
Theorem at_most_one_heartbeat (throws : bool) (es : list Client.Event) :
  let w := Client.run es (Health.fresh throws) in
  (List.length (Health.pending_heartbeats w) <= 1)%nat
  /\ Forall (fun x => Client.delay x = 10000
                      /\ Client.heartbeatTimeout (Client.client w)
                         = Some (Client.timer_id x))
            (Health.pending_heartbeats w).
Proof.
  destruct (ok_run es _ (ok_fresh throws)) as [_ Ht]. cbv zeta.
  split; [exact (one_heartbeat _ _ _ Ht)|].
  unfold Health.pending_heartbeats. apply Forall_forall. intros x Hx.
  apply filter_In in Hx. destruct Hx as [Hin Hk]. destruct Ht as [Ht _].
  rewrite Forall_forall in Ht. destruct (Ht x Hin) as [_ H].
  unfold Health.is_heartbeat in Hk.
  destruct (Client.kind x); [exact H|discriminate].
Qed.

(** ** The connection client: single events *)

(** X16.  When a socket the client is connecting opens and the store is
    attached, the store reports [connected] with attempt 0 and delay 1000
    whatever they were, and a heartbeat timeout of 10000 ms is set and
    remembered; the client's own attempt counter keeps its value. *)
Theorem socket_open_resets_store (w : Client.World) (s : nat) :
  Client.readyState w s = Some CONNECTING ->
  Client.store (Client.client w) = Some Client.the_store ->
  let w' := Client.step (Client.SocketOpen s) w in
  Spec.connection_state w' = Redux.connected
  /\ Spec.reported_attempt w' = 0
  /\ Spec.reported_backoff w' = 1000
  /\ Client.readyState w' s = Some OPEN
  /\ Client.heartbeatTimeout (Client.client w') = Some (Client.next_timer w)
  /\ In (Client.mkTimer (Client.next_timer w) Client.Heartbeat 10000)
        (Client.timers w')
  /\ Client.reconnectAttempt (Client.client w')
     = Client.reconnectAttempt (Client.client w).
Proof.
  destruct w as [[ws ra hb rt st mx] rx socks tms nt fr th].
  unfold Client.readyState. simpl. intros Hs ->. cbv zeta.
  unfold Client.step, Client.readyState. simpl. rewrite Hs.
  unfold Client.onopen, Client.resetHeartbeat, Client.clearHeartbeat,
    Client.dispatch_if_store, Client.readyState, Spec.connection_state,
    Spec.reported_attempt, Spec.reported_backoff. simpl.
  destruct hb as [h|]; simpl;
    repeat split; try (eapply nth_error_set_nth; eauto);
    apply in_or_app; right; left; reflexivity.
Qed.

Lemma socket_open_resets_store_witness :
  let w := Spec.backoff_elapses (Spec.connection_fails (Spec.started true)) in
  let w' := Client.step (Client.SocketOpen 1) w in
  Spec.connection_state w' = Redux.connected
  /\ Spec.reported_attempt w' = 0
  /\ Spec.reported_backoff w' = 1000
  /\ Client.readyState w' 1 = Some OPEN
  /\ Client.heartbeatTimeout (Client.client w') = Some (Client.next_timer w)
  /\ In (Client.mkTimer (Client.next_timer w) Client.Heartbeat 10000)
        (Client.timers w')
  /\ Client.reconnectAttempt (Client.client w')
     = Client.reconnectAttempt (Client.client w).
Proof.
  apply (socket_open_resets_store
           (Spec.backoff_elapses (Spec.connection_fails (Spec.started true))) 1);
    reflexivity.
Defined.

Lemma update_first_map {A B} (g : A -> B) (p : A -> bool) (f : A -> A) l :
  (forall x, g (f x) = g x) -> map g (Redux.update_first p f l) = map g l.
Proof.
  intros Hg. induction l as [|x l IH]; simpl; [reflexivity|].
  destruct (p x); simpl; [rewrite Hg|rewrite IH]; reflexivity.
Qed.

Lemma updateChatLastMessage_keeps_unread chatId ts s :
  Permutation
    (map (fun c => (Chat.id c, Chat.unreadCount c))
         (Redux.ChatsSlice.items (Redux.updateChatLastMessage chatId ts s)))
    (map (fun c => (Chat.id c, Chat.unreadCount c)) (Redux.ChatsSlice.items s)).
Proof.
  unfold Redux.updateChatLastMessage.
  destruct (find _ _); [|reflexivity]. simpl.
  rewrite order_by_desc_perm, update_first_map; reflexivity.
Qed.

(** X17.  A [newMessage] for the chat that is selected is put at the
    end of the messages on display with the id, timestamp, sender and
    body of the frame; no chat's unread counter changes and the
    connection state is not touched. *)
Theorem newMessage_for_selected_chat (w : Client.World) (s : nat)
        (data : NewMessage) :
  Client.readyState w s = Some OPEN ->
  Client.store (Client.client w) = Some Client.the_store ->
  Client.selected_is (ev_chatId data) (Client.redux w) = true ->
  let w' := Client.step (Client.SocketMessage s (Client.Json "newMessage" data)) w in
  Redux.MessagesSlice.items (Redux.messages (Client.redux w'))
  = (Redux.MessagesSlice.items (Redux.messages (Client.redux w))
     ++ [Message.mk (ev_messageId data) (ev_chatId data) (ev_ts data)
                    (ev_sender data) (ev_body data)])%list
  /\ Permutation
       (map (fun c => (Chat.id c, Chat.unreadCount c))
            (Redux.ChatsSlice.items (Redux.chats (Client.redux w'))))
       (map (fun c => (Chat.id c, Chat.unreadCount c))
            (Redux.ChatsSlice.items (Redux.chats (Client.redux w))))
  /\ Redux.connection (Client.redux w') = Redux.connection (Client.redux w).
Proof.
  destruct w as [[ws ra hb rt st mx] rx socks tms nt fr th].
  unfold Client.readyState. simpl. intros Hs -> Hsel. cbv zeta.
  unfold Client.step, Client.readyState. simpl. rewrite Hs.
  unfold Client.onmessage. simpl.
  unfold Client.on_newMessage. simpl. rewrite Hsel.
  unfold Client.resetHeartbeat, Client.clearHeartbeat. simpl.
  destruct hb as [h|]; simpl; (split; [reflexivity|]);
    (split; [apply updateChatLastMessage_keeps_unread|reflexivity]).
Qed.

Lemma newMessage_for_selected_chat_witness :
  let data := mkNewMessage "c2" "m9" 3000 "Bob" "Hello" in
  let w := showing_unread 3 in
  let w' := Client.step (Client.SocketMessage 0 (Client.Json "newMessage" data)) w in
  Redux.MessagesSlice.items (Redux.messages (Client.redux w'))
  = (Redux.MessagesSlice.items (Redux.messages (Client.redux w))
     ++ [Message.mk (ev_messageId data) (ev_chatId data) (ev_ts data)
                    (ev_sender data) (ev_body data)])%list
  /\ Permutation
       (map (fun c => (Chat.id c, Chat.unreadCount c))
            (Redux.ChatsSlice.items (Redux.chats (Client.redux w'))))
       (map (fun c => (Chat.id c, Chat.unreadCount c))
            (Redux.ChatsSlice.items (Redux.chats (Client.redux w))))
  /\ Redux.connection (Client.redux w') = Redux.connection (Client.redux w).
Proof.
  apply (newMessage_for_selected_chat (showing_unread 3) 0
           (mkNewMessage "c2" "m9" 3000 "Bob" "Hello")); reflexivity.
Defined.

(** X18.  Frames that carry nothing for the lists leave the Redux store
    exactly as it is: a frame that does not parse, any frame whose type
    is not [newMessage], and a [newMessage] for a chat that is neither in
    the chat list nor selected.  A frame that does not parse and the
    server's greeting do not even restart the heartbeat. *)
Theorem other_frames_leave_store (w : Client.World) (s : nat) (ty : string)
        (data : NewMessage) :
  ty <> "newMessage"
  \/ (find (Redux.is_chat (ev_chatId data))
           (Redux.ChatsSlice.items (Redux.chats (Client.redux w))) = None
      /\ Client.selected_is (ev_chatId data) (Client.redux w) = false) ->
  Client.redux (Client.step (Client.SocketMessage s (Client.Json ty data)) w)
  = Client.redux w
  /\ Client.step (Client.SocketMessage s Client.Malformed) w = w
  /\ Client.step (Client.SocketMessage s
                    (Client.Json "connected" data)) w = w.
Proof.
  intros H.
  assert (Hr : forall v, Client.redux (Client.resetHeartbeat v) = Client.redux v).
  { intros v. unfold Client.resetHeartbeat, Client.clearHeartbeat.
    destruct (Client.heartbeatTimeout (Client.client v)); reflexivity. }
  split; [|split].
  - simpl. destruct (Client.readyState w s) as [[]|]; try reflexivity.
    unfold Client.onmessage. destruct (String.eqb ty "connected"); [reflexivity|].
    rewrite Hr. destruct (Client.store (Client.client w)); [|reflexivity].
    destruct (String.eqb_spec ty "newMessage") as [->|Hne]; [|reflexivity].
    destruct H as [H|[Hfind Hsel]]; [contradiction H; reflexivity|].
    unfold Client.on_newMessage. rewrite Hsel. simpl.
    destruct (Client.redux w) as [cn [it sel ld off hm] ms se]. simpl in *.
    unfold Redux.on_chats, Redux.updateChatLastMessage,
      Redux.updateChatUnreadCount, Redux.with_items. simpl.
    rewrite Hfind. simpl. rewrite update_first_none by exact Hfind. reflexivity.
  - simpl. destruct (Client.readyState w s) as [[]|]; reflexivity.
  - simpl. destruct (Client.readyState w s) as [[]|]; reflexivity.
Qed.

Lemma other_frames_leave_store_witness :
  let data := mkNewMessage "c7" "m9" 3000 "Bob" "Hello" in
  let w := showing_unread 3 in
  Client.redux (Client.step (Client.SocketMessage 0
                               (Client.Json "newMessage" data)) w)
  = Client.redux w
  /\ Client.step (Client.SocketMessage 0 Client.Malformed) w = w
  /\ Client.step (Client.SocketMessage 0 (Client.Json "connected" data)) w = w.
Proof.
  apply (other_frames_leave_store (showing_unread 3) 0 "newMessage"
           (mkNewMessage "c7" "m9" 3000 "Bob" "Hello")).
  right. split; reflexivity.
Defined.

(** ** The connection client: recovery after a drop *)

Lemma length_set_nth {A} n (x : A) l : List.length (set_nth n x l) = List.length l.
Proof.
  revert n. induction l as [|y l IH]; intros [|n]; simpl; auto.
Qed.

Lemma nth_error_last {A} (l : list A) x :
  nth_error (l ++ [x]) (List.length l) = Some x.
Proof. induction l as [|y l IH]; simpl; auto. Qed.

Lemma find_fresh_timer next l y :
  Forall (fun x => (Client.timer_id x < next)%nat) l ->
  Client.timer_id y = next ->
  find (fun x => Nat.eqb (Client.timer_id x) next) (l ++ [y]) = Some y
  /\ filter (fun x => negb (Nat.eqb (Client.timer_id x) next)) (l ++ [y]) = l.
Proof.
  intros Hl Hy. induction Hl as [|x l Hx _ [IH1 IH2]]; simpl.
  - rewrite Hy, Nat.eqb_refl. auto.
  - destruct (Nat.eqb_spec (Client.timer_id x) next); [lia|]. simpl.
    rewrite IH1, IH2. auto.
Qed.

Lemma timers_below hb next ts :
  Health.timers_ok hb next ts ->
  Forall (fun x => (Client.timer_id x < next)%nat) ts.
Proof.
  intros [H _]. eapply Forall_impl; [|exact H]. intros x [Hx _]. exact Hx.
Qed.

(** X19.  A client in a state it can reach, holding an open socket and
    the store and with attempts left, recovers from a dropped
    connection: after [simulateConnectionDrop] and the close event the
    store reports [reconnecting] and a reconnection is pending with the
    backoff delay of the next attempt; when that timeout runs out a new
    socket is constructed, and when it opens the store reports
    [connected] with attempt 0 and the client is connected on the new
    socket. *)
Theorem drop_then_recover (w : Client.World) (s : nat) :
  Health.ok w ->
  Client.ws (Client.client w) = Some s ->
  Client.readyState w s = Some OPEN ->
  Client.store (Client.client w) = Some Client.the_store ->
  Client.reconnectAttempt (Client.client w) < 10 ->
  Client.WebSocket_throws w = false ->
  let s' := List.length (Client.sockets w) in
  let w2 := Client.run [Client.CallSimulateConnectionDrop; Client.SocketClose s] w in
  let w4 := Client.run [Client.TimerElapsed (Client.next_timer w);
                        Client.SocketOpen s'] w2 in
  Spec.connection_state w2 = Redux.reconnecting
  /\ In (Client.reconnect_delay (Client.reconnectAttempt (Client.client w) + 1))
        (Client.pending_reconnects w2)
  /\ Client.readyState w2 s = Some CLOSED
  /\ Spec.connection_state w4 = Redux.connected
  /\ Spec.reported_attempt w4 = 0
  /\ Client.ws (Client.client w4) = Some s'
  /\ Client.isConnected w4 = true.
Proof.
  intros Hok Hws Hopen Hst Hlt Hth.
  destruct w as [[ws ra hb rt st mx] rx socks tms nt fr th].
  unfold Client.readyState in Hopen. simpl in Hws, Hopen, Hst, Hlt, Hth.
  destruct Hok as [[Hmx [Hra [_ _]]] Ht]. simpl in Hmx, Hra, Ht.
  subst ws st th mx.
  assert (Hclosing : nth_error (set_nth s CLOSING socks) s = Some CLOSING)
    by (eapply nth_error_set_nth; eauto).
  assert (Hclosed : nth_error (set_nth s CLOSED (set_nth s CLOSING socks)) s
                    = Some CLOSED)
    by (eapply nth_error_set_nth; eauto).
  set (tms' := match hb with
               | Some h => filter (fun x => negb (Nat.eqb (Client.timer_id x) h)) tms
               | None => tms
               end).
  assert (Hbelow : Forall (fun x => (Client.timer_id x < nt)%nat) tms').
  { unfold tms'. destruct hb as [h|]; [|eapply timers_below; eauto].
    eapply timers_below, timers_ok_clear; eauto. }
  set (new := Client.mkTimer nt Client.Reconnect (Client.reconnect_delay (ra + 1))).
  destruct (find_fresh_timer nt tms' new Hbelow eq_refl) as [Hfind Hfilter].
  set (a := Redux.ConnectionSlice.reconnectAttempt (Redux.connection rx)) in *.
  assert (Hjs : js_or (Some (a + 1)) 0 = a + 1).
  { unfold js_or. destruct (Z.eqb_spec (a + 1) 0); [lia|reflexivity]. }
  set (socks2 := set_nth s CLOSED (set_nth s CLOSING socks)).
  assert (Hlen : List.length socks2 = List.length socks)
    by (unfold socks2; rewrite !length_set_nth; reflexivity).
  cbv zeta. unfold Client.run. cbn [fold_left Client.sockets Client.next_timer].
  set (c0 := Client.mkClient (Some s) ra hb rt (Some Client.the_store) 10).
  assert (E1 : Client.step Client.CallSimulateConnectionDrop
                 (Client.mkWorld c0 rx socks tms nt fr false)
               = Client.mkWorld c0 rx (set_nth s CLOSING socks) tms nt fr false).
  { unfold Client.step, Client.simulateConnectionDrop, Client.socket_close,
      Client.readyState. simpl. rewrite Hopen. reflexivity. }
  rewrite E1. clear E1.
  set (rx2 := Redux.dispatch Redux.IncrementReconnectAttempt
                (Redux.dispatch (Redux.SetConnectionState Redux.reconnecting) rx)).
  assert (E2 : Client.step (Client.SocketClose s)
                 (Client.mkWorld c0 rx (set_nth s CLOSING socks) tms nt fr false)
               = Client.mkWorld
                   (Client.mkClient (Some s) (ra + 1) None (Some nt)
                                    (Some Client.the_store) 10)
                   rx2 socks2 (tms' ++ [new]) (S nt) fr false).
  { unfold Client.step, Client.readyState. simpl. rewrite Hclosing.
    unfold Client.onclose, Client.clearHeartbeat, Client.scheduleReconnect,
      Client.dispatch_if_store. unfold tms'.
    destruct hb as [h|]; simpl; (destruct (Z.leb_spec 10 ra); [lia|]);
      reflexivity. }
  rewrite E2. clear E2.
  assert (Hrx2 : Redux.ConnectionSlice.reconnectAttempt (Redux.connection rx2)
                 = a + 1) by reflexivity.
  assert (E3 : Client.step (Client.TimerElapsed nt)
                 (Client.mkWorld
                    (Client.mkClient (Some s) (ra + 1) None (Some nt)
                                     (Some Client.the_store) 10)
                    rx2 socks2 (tms' ++ [new]) (S nt) fr false)
               = Client.mkWorld
                   (Client.mkClient (Some (List.length socks)) (a + 1) None
                                    (Some nt) (Some Client.the_store) 10)
                   rx2 (socks2 ++ [CONNECTING]) tms' (S nt) fr false).
  { unfold Client.step, Client.fire. cbn [Client.timers]. rewrite Hfind.
    cbn [Client.kind new]. unfold Client.reconnect_callback, Client.clearTimeout.
    cbn [Client.timers]. rewrite Hfilter.
    cbn [Client.with_client Client.client Client.store Client.redux
         Client.set_reconnectAttempt].
    rewrite Hrx2, Hjs.
    unfold Client.attemptConnection. simpl. rewrite Hlen. reflexivity. }
  rewrite E3. clear E3.
  set (w3 := Client.mkWorld
               (Client.mkClient (Some (List.length socks)) (a + 1) None
                                (Some nt) (Some Client.the_store) 10)
               rx2 (socks2 ++ [CONNECTING]) tms' (S nt) fr false).
  assert (E4 : Client.step (Client.SocketOpen (List.length socks)) w3
               = Client.onopen
                   (Client.with_sockets (set_nth (List.length socks) OPEN) w3)).
  { unfold Client.step, Client.readyState, w3. cbn [Client.sockets].
    rewrite <- Hlen, nth_error_last. reflexivity. }
  rewrite E4. clear E4. unfold w3.
  unfold Client.onopen, Client.resetHeartbeat, Client.clearHeartbeat,
    Client.dispatch_if_store, Client.isConnected, Client.readyState,
    Spec.connection_state, Spec.reported_attempt, Client.pending_reconnects.
  simpl.
  split; [reflexivity|]. split.
  { rewrite filter_app, map_app. apply in_or_app. right. left. reflexivity. }
  split; [exact Hclosed|]. split; [reflexivity|]. split; [reflexivity|].
  split; [reflexivity|].
  erewrite nth_error_set_nth; [reflexivity|].
  rewrite <- Hlen. apply nth_error_last.
Qed.


Lemma drop_then_recover_witness :
  let w := connected_world in
  let s' := List.length (Client.sockets w) in
  let w2 := Client.run [Client.CallSimulateConnectionDrop; Client.SocketClose 0] w in
  let w4 := Client.run [Client.TimerElapsed (Client.next_timer w);
                        Client.SocketOpen s'] w2 in
  Spec.connection_state w2 = Redux.reconnecting
  /\ In (Client.reconnect_delay (Client.reconnectAttempt (Client.client w) + 1))
        (Client.pending_reconnects w2)
  /\ Client.readyState w2 0 = Some CLOSED
  /\ Spec.connection_state w4 = Redux.connected
  /\ Spec.reported_attempt w4 = 0
  /\ Client.ws (Client.client w4) = Some s'
  /\ Client.isConnected w4 = true.
Proof.
  apply (drop_then_recover connected_world 0); try reflexivity.
  apply (ok_run [Client.CallConnect; Client.SocketOpen 0;
                 Client.SocketMessage 0
                   (Client.Json "connected" (mkNewMessage "" "" 0 "" ""))]
                (Health.fresh false) (ok_fresh false)).
Defined.

(** ** The broker: who gets what *)

Lemma pick_In arr r : arr <> [] -> In (pick arr r) arr.
Proof.
  intros Hne. unfold pick. apply nth_In.
  assert (0 < Z.of_nat (List.length arr))
    by (destruct arr; [contradiction|simpl; lia]).
  pose proof (floor_mul_bounds r (Z.of_nat (List.length arr)) ltac:(lia)). lia.
Qed.

Lemma random_chat_id_some r d :
  Db.chats d <> [] ->
  exists cid, Broker.random_chat_id r d = Some cid /\ In cid (Spec.chat_ids d).
Proof.
  intros Hne. unfold Broker.random_chat_id.
  assert (0 < Z.of_nat (List.length (Db.chats d)))
    by (destruct (Db.chats d); [contradiction|simpl; lia]).
  pose proof (floor_mul_bounds r (Z.of_nat (List.length (Db.chats d)))
                ltac:(lia)) as Hb.
  destruct (nth_error (Db.chats d) _) as [c|] eqn:E.
  - exists (ChatRow.id c). split; [reflexivity|].
    apply in_map. eapply nth_error_In, E.
  - apply nth_error_None in E. lia.
Qed.

Lemma broadcast_from_In i cs ev j e :
  In (j, e) (Broker.broadcast_from i cs ev)
  <-> e = ev /\ (i <= j)%nat /\ nth_error cs (j - i) = Some OPEN.
Proof.
  revert i. induction cs as [|r cs IH]; intros i; simpl.
  - split; [tauto|]. intros [_ [_ H]]. destruct (j - i)%nat; discriminate.
  - assert (Hrest : In (j, e) (Broker.broadcast_from (S i) cs ev)
                    <-> e = ev /\ (S i <= j)%nat
                        /\ nth_error (r :: cs) (j - i) = Some OPEN).
    { rewrite IH. split; intros [He [Hle Hn]]; (split; [exact He|]);
        (split; [exact Hle|]).
      - replace (j - i)%nat with (S (j - S i)) by lia. exact Hn.
      - replace (j - i)%nat with (S (j - S i)) in Hn by lia. exact Hn. }
    destruct r; simpl; rewrite ?Hrest.
    all: split;
      [ intros H; repeat match goal with
                         | H : _ \/ _ |- _ => destruct H
                         | H : (_, _) = (_, _) |- _ => injection H as <- <-
                         end;
        try (destruct H as [He [Hle Hn]]; split; [exact He|]; split;
             [lia|exact Hn]);
        try (split; [reflexivity|]; split; [lia|]; rewrite Nat.sub_diag;
             reflexivity)
      | intros [He [Hle Hn]];
        destruct (Nat.eq_dec i j) as [<-|Hne];
        [ rewrite Nat.sub_diag in Hn; simpl in Hn;
          first [discriminate | left; subst e; reflexivity]
        | try right; split; [exact He|]; split; [lia|exact Hn] ] ].
Qed.

Lemma broadcast_from_NoDup i cs ev :
  NoDup (map fst (Broker.broadcast_from i cs ev)).
Proof.
  revert i. induction cs as [|r cs IH]; intros i; simpl; [constructor|].
  destruct r; simpl; try apply IH. constructor; [|apply IH].
  intros C. apply in_map_iff in C. destruct C as [[j e] [Hj Hin]].
  simpl in Hj. subst j. apply broadcast_from_In in Hin. lia.
Qed.

(** X20.  A tick of an emitter that is running, on a store that holds a
    chat, with a fresh id for the row, always stores its message and
    reaches every open session exactly once and no other: the chat is one
    of the store, the sender and the body are from the two fixed lists,
    and the frames added are one per session that is open, each carrying
    the same event. *)
Theorem emit_reaches_open_sessions (t : Broker.Tick) (s : Broker.Server)
        (cs : list ReadyState) :
  Broker.isEmittingMessages s = true ->
  Broker.clients s = Some cs ->
  Db.chats (Broker.db s) <> [] ->
  Db.has_message (Broker.db s) (Broker.addMessage_uuid t) = false ->
  exists chatId sender body new,
    In chatId (Spec.chat_ids (Broker.db s))
    /\ In sender Broker.senders
    /\ In body Broker.messageTexts
    /\ Broker.db (Broker.emit t s)
       = Spec.inserted_and_updated (Broker.addMessage_uuid t)
           (Broker.addMessage_now t) chatId sender body (Broker.tick_now t)
           (Broker.db s)
    /\ Broker.sent (Broker.emit t s) = (Broker.sent s ++ new)%list
    /\ NoDup (map fst new)
    /\ forall j e,
         In (j, e) new
         <-> nth_error cs j = Some OPEN
             /\ e = mkNewMessage chatId (Broker.tick_uuid t) (Broker.tick_now t)
                                 sender body.
Proof.
  intros Hem Hcs Hne Hfresh.
  destruct (random_chat_id_some (Broker.random_chat t) (Broker.db s) Hne)
    as [cid [Hcid Hin]].
  exists cid, (pick Broker.senders (Broker.random_sender t)),
         (pick Broker.messageTexts (Broker.random_text t)).
  eexists. split; [exact Hin|].
  split; [apply pick_In; discriminate|]. split; [apply pick_In; discriminate|].
  unfold Broker.emit. rewrite Hem, Hcid. simpl.
  rewrite addMessage_outcome, Hfresh.
  assert (Hc : Db.has_chat (Broker.db s) cid = true) by (apply has_chat_true, Hin).
  rewrite Hc. unfold Broker.broadcast. simpl. rewrite Hcs. simpl.
  split; [reflexivity|]. split; [reflexivity|].
  split; [apply broadcast_from_NoDup|].
  intros j e. rewrite broadcast_from_In, Nat.sub_0_r. split.
  - intros [He [_ Hn]]. auto.
  - intros [Hn He]. split; [exact He|]. split; [lia|exact Hn].
Qed.

Lemma emit_reaches_open_sessions_witness :
  exists chatId sender body new,
    In chatId (Spec.chat_ids (Broker.db one_chat_server))
    /\ In sender Broker.senders
    /\ In body Broker.messageTexts
    /\ Broker.db (Broker.emit a_tick one_chat_server)
       = Spec.inserted_and_updated (Broker.addMessage_uuid a_tick)
           (Broker.addMessage_now a_tick) chatId sender body
           (Broker.tick_now a_tick) (Broker.db one_chat_server)
    /\ Broker.sent (Broker.emit a_tick one_chat_server)
       = (Broker.sent one_chat_server ++ new)%list
    /\ NoDup (map fst new)
    /\ forall j e,
         In (j, e) new
         <-> nth_error [OPEN; CLOSED; OPEN] j = Some OPEN
             /\ e = mkNewMessage chatId (Broker.tick_uuid a_tick)
                                 (Broker.tick_now a_tick) sender body.
Proof.
  apply (emit_reaches_open_sessions a_tick one_chat_server [OPEN; CLOSED; OPEN]);
    try reflexivity.
  simpl. discriminate.
Defined.

(** ** The broker: starting and stopping *)

Lemma emit_keeps_flag k s :
  Broker.isEmittingMessages (Broker.emit k s) = Broker.isEmittingMessages s.
Proof.
  unfold Broker.emit. destruct (Broker.isEmittingMessages s) eqn:E; simpl;
    [|exact E].
  destruct (Broker.random_chat_id _ _); [|exact E].
  destruct (Db.addMessage _ _ _ _ _ _ _) as [[|] d']; simpl;
    [|first [reflexivity | exact E]].
  unfold Broker.broadcast. simpl.
  destruct (Broker.clients s); simpl; first [reflexivity | exact E].
Qed.

Lemma emitter_shape_call c m :
  match Emitter.messageEmitterInterval m with
  | Some i => Emitter.running m = [i]
              /\ Broker.isEmittingMessages (Emitter.server m) = true
  | None => Emitter.running m = []
            /\ Broker.isEmittingMessages (Emitter.server m) = false
  end ->
  match Emitter.messageEmitterInterval (Emitter.call c m) with
  | Some i => Emitter.running (Emitter.call c m) = [i]
              /\ Broker.isEmittingMessages (Emitter.server (Emitter.call c m))
                 = true
  | None => Emitter.running (Emitter.call c m) = []
            /\ Broker.isEmittingMessages (Emitter.server (Emitter.call c m))
               = false
  end.
Proof.
  destruct m as [srv [i|] run nx]; simpl; intros [Hr He]; subst run;
    destruct c as [| |j k]; simpl;
    unfold Emitter.stopMessageEmitter, Emitter.resumeMessageEmitter,
      Emitter.startMessageEmitter, Emitter.tick; simpl;
    try rewrite Nat.eqb_refl; simpl; auto.
  - destruct (Nat.eqb j i); simpl; rewrite ?emit_keeps_flag; auto.
Qed.

(** X21.  Once the server is started, however it is stopped and resumed
    and whichever intervals run out in between: either exactly one
    interval is running, it is the one held in [messageEmitterInterval]
    and the emitter is marked as emitting; or no interval is running, the
    emitter is marked as not emitting and an interval running out leaves
    the store and the sessions untouched. *)
Theorem emitter_has_one_interval (d : Db.Database) (cs : list Emitter.Call) :
  let m := Emitter.calls cs (Emitter.startWebSocketServer (Emitter.loaded d)) in
  match Emitter.messageEmitterInterval m with
  | Some i => Emitter.running m = [i]
              /\ Broker.isEmittingMessages (Emitter.server m) = true
  | None => Emitter.running m = []
            /\ Broker.isEmittingMessages (Emitter.server m) = false
            /\ forall j k, Emitter.tick j k m = m
  end.
Proof.
  cbv zeta.
  assert (H : forall m,
             match Emitter.messageEmitterInterval m with
             | Some i => Emitter.running m = [i]
                         /\ Broker.isEmittingMessages (Emitter.server m) = true
             | None => Emitter.running m = []
                       /\ Broker.isEmittingMessages (Emitter.server m) = false
             end ->
             match Emitter.messageEmitterInterval (Emitter.calls cs m) with
             | Some i => Emitter.running (Emitter.calls cs m) = [i]
                         /\ Broker.isEmittingMessages
                              (Emitter.server (Emitter.calls cs m)) = true
             | None => Emitter.running (Emitter.calls cs m) = []
                       /\ Broker.isEmittingMessages
                            (Emitter.server (Emitter.calls cs m)) = false
             end).
  { unfold Emitter.calls. induction cs as [|c cs IH]; intros m Hm; simpl;
      [exact Hm|]. apply IH, emitter_shape_call, Hm. }
  specialize (H (Emitter.startWebSocketServer (Emitter.loaded d))
                (conj eq_refl eq_refl)).
  destruct (Emitter.messageEmitterInterval _) as [i|]; [exact H|].
  destruct H as [Hr He]. split; [exact Hr|]. split; [exact He|].
  intros j k. unfold Emitter.tick. rewrite Hr. reflexivity.
Qed.

(** ** The logging helper *)

Lemma substring_0_length n s :
  String.length (substring 0 n s) = Nat.min n (String.length s).
Proof.
  revert s. induction n as [|n IH]; intros [|c s]; simpl; auto.
Qed.

Lemma substring_0_all n s :
  (String.length s <= n)%nat -> substring 0 n s = s.
Proof.
  revert s. induction n as [|n IH]; intros [|c s]; simpl; auto; intros H.
  - lia.
  - rewrite IH by lia. reflexivity.
Qed.

Lemma substring_0_prefix n s : String.prefix (substring 0 n s) s = true.
Proof.
  revert s. induction n as [|n IH]; intros [|c s]; simpl; auto.
  destruct (ascii_dec c c) as [_|C]; [apply IH|contradiction].
Qed.

Lemma string_length_append a b :
  String.length (a ++ b) = (String.length a + String.length b)%nat.
Proof. induction a as [|c a IH]; simpl; congruence. Qed.

(** X22.  [sanitizeForLogging] never shows more than the first
    [maxLength] characters of the data: the empty string is logged as
    ["[empty]"], whatever [maxLength] is; data that is not empty and
    fits is logged as it is; and longer data is cut to a prefix of
    [maxLength] characters (none for a negative [maxLength]) followed by
    ["..."].  So the result has 7 characters for empty data and at most
    [max(maxLength, 0) + 3] otherwise, and it is never empty. *)
Theorem sanitizeForLogging_cuts (data : string) (maxLength : option Z) :
  let n := default_arg 20 maxLength in
  let out := Security.sanitizeForLogging data maxLength in
  (data = "" -> out = "[empty]")
  /\ (data <> "" ->
      String.prefix (substring 0 (Z.to_nat n) data) data = true
      /\ (if n <? Z.of_nat (String.length data)
          then out = (substring 0 (Z.to_nat n) data ++ "...")%string
               /\ Z.of_nat (String.length out) = Z.max n 0 + 3
          else out = data /\ Z.of_nat (String.length out) <= Z.max n 0))
  /\ 0 < Z.of_nat (String.length out) <= Z.max 7 (Z.max n 0 + 3).
Proof.
  cbv zeta. unfold Security.sanitizeForLogging.
  destruct (String.eqb_spec data "") as [->|Hd].
  - split; [reflexivity|]. split; [intros N; contradiction|]. simpl. lia.
  - split; [intros E; contradiction|].
    assert (Hlen : 0 < Z.of_nat (String.length data))
      by (destruct data; [contradiction|simpl; lia]).
    destruct (Z.ltb_spec (default_arg 20 maxLength)
                         (Z.of_nat (String.length data))).
    + assert (L : Z.of_nat (String.length
                    (substring 0 (Z.to_nat (default_arg 20 maxLength)) data
                     ++ "..."))
                  = Z.max (default_arg 20 maxLength) 0 + 3).
      { rewrite string_length_append, substring_0_length. simpl. lia. }
      split; [intros _; split; [apply substring_0_prefix|]|].
      * split; [reflexivity|exact L].
      * rewrite L. lia.
    + assert (E : substring 0 (Z.to_nat (default_arg 20 maxLength)) data = data)
        by (apply substring_0_all; lia).
      rewrite E.
      assert (E' : (data ++ "")%string = data).
      { clear. induction data as [|c s IH]; simpl; congruence. }
      rewrite E'.
      split; [intros _; split; [rewrite <- E at 1; apply substring_0_prefix|]|].
      * split; [reflexivity|lia].
      * lia.
Qed.

(** In numbers: empty data with a small [maxLength] is logged in 7
    characters; a secret of 11 characters is cut to 4 and the dots. *)
Example sanitizeForLogging_examples :
  Security.sanitizeForLogging "" (Some 2) = "[empty]"
  /\ Security.sanitizeForLogging "hunter2hunt" (Some 4) = "hunt..."
  /\ Security.sanitizeForLogging "hunter2" None = "hunter2"
  /\ Security.sanitizeForLogging "hunter2" (Some (-1)) = "...".
Proof. vm_compute. repeat split. Qed.

(** ** The store: a write to one chat and the others *)

(** X23.  [addMessage] for one chat does not show in any other chat:
    whether it returns or throws, every page of messages of another chat
    and the row of every other chat are what they were. *)
Theorem addMessage_leaves_other_chats
        uuid now chatId sender body ts (other : string)
        (limit offset : option Z) (d : Db.Database) :
  other <> chatId ->
  let d' := snd (Db.addMessage uuid now chatId sender body ts d) in
  Db.getMessages other limit offset d' = Db.getMessages other limit offset d
  /\ Spec.getChat other d' = Spec.getChat other d.
Proof.
  intros Hne. rewrite addMessage_outcome.
  destruct (Db.has_message d uuid); [split; reflexivity|].
  destruct (Db.has_chat d chatId); [|split; reflexivity].
  cbv zeta. unfold Db.getMessages, Spec.getChat, Spec.inserted_and_updated. simpl.
  split.
  - rewrite filter_app. simpl.
    assert (E : String.eqb chatId other = false)
      by (apply String.eqb_neq; congruence).
    rewrite E, app_nil_r. reflexivity.
  - induction (Db.chats d) as [|c l IH]; simpl; [reflexivity|].
    destruct (String.eqb_spec (ChatRow.id c) chatId) as [Hc|Hc]; simpl.
    + assert (E : String.eqb (ChatRow.id c) other = false)
        by (apply String.eqb_neq; congruence).
      rewrite E. exact IH.
    + destruct (String.eqb (ChatRow.id c) other); [reflexivity|exact IH].
Qed.

Lemma addMessage_leaves_other_chats_witness :
  let d' := snd (Db.addMessage "m2" 5000 "a" "Bob" "Hello" 3000
                   two_chats_one_message) in
  Db.getMessages "b" (Some 10) (Some 0) d'
  = Db.getMessages "b" (Some 10) (Some 0) two_chats_one_message
  /\ Spec.getChat "b" d' = Spec.getChat "b" two_chats_one_message.
Proof.
  apply (addMessage_leaves_other_chats "m2" 5000 "a" "Bob" "Hello" 3000 "b"
           (Some 10) (Some 0) two_chats_one_message).
  discriminate.
Defined.

(** ** The connection client: giving up *)

(** X24.  A client whose attempt counter has reached the limit gives up
    without leaving the [reconnecting] state: when its socket closes, no
    timeout is added (so no further attempt is scheduled), both attempt
    counters stay as they are, and the store reports [reconnecting]. *)
Theorem exhausted_client_gives_up (w : Client.World) (s : nat) :
  Client.maxReconnectAttempts (Client.client w)
  <= Client.reconnectAttempt (Client.client w) ->
  Client.readyState w s = Some OPEN ->
  Client.store (Client.client w) = Some Client.the_store ->
  let w' := Client.step (Client.SocketClose s) w in
  incl (Client.timers w') (Client.timers w)
  /\ Client.next_timer w' = Client.next_timer w
  /\ Client.reconnectAttempt (Client.client w')
     = Client.reconnectAttempt (Client.client w)
  /\ Spec.reported_attempt w' = Spec.reported_attempt w
  /\ Spec.connection_state w' = Redux.reconnecting.
Proof.
  intros Hmax Hopen Hst.
  destruct w as [[ws ra hb rt st mx] rx socks tms nt fr th].
  unfold Client.readyState in Hopen. simpl in Hmax, Hopen, Hst. subst st.
  cbv zeta. unfold Client.step, Client.readyState. simpl. rewrite Hopen.
  unfold Client.onclose, Client.clearHeartbeat, Client.scheduleReconnect,
    Client.dispatch_if_store, Spec.reported_attempt, Spec.connection_state.
  destruct hb as [h|]; simpl;
    (destruct (Z.leb_spec mx ra); [|lia]); simpl; repeat split;
    try apply incl_refl.
  intros x Hx. apply filter_In in Hx. apply Hx.
Qed.

Lemma exhausted_client_gives_up_witness :
  let w := Client.step (Client.SocketOpen 10)
             (Spec.backoff_elapses
                (Spec.after_failures 10 (Spec.started false))) in
  let w' := Client.step (Client.SocketClose 10) w in
  incl (Client.timers w') (Client.timers w)
  /\ Client.next_timer w' = Client.next_timer w
  /\ Client.reconnectAttempt (Client.client w')
     = Client.reconnectAttempt (Client.client w)
  /\ Spec.reported_attempt w' = Spec.reported_attempt w
  /\ Spec.connection_state w' = Redux.reconnecting.
Proof.
  apply (exhausted_client_gives_up
           (Client.step (Client.SocketOpen 10)
              (Spec.backoff_elapses
                 (Spec.after_failures 10 (Spec.started false)))) 10).
  - vm_compute. discriminate.
  - vm_compute. reflexivity.
  - vm_compute. reflexivity.
Defined.

(** ** The store: search and case *)

Lemma lower_string_length s :
  String.length (Text.lower_string s) = String.length s.
Proof. induction s as [|a s IH]; simpl; congruence. Qed.

Lemma chars_lower s :
  forall open,
    Sqlite.chars_from open (Text.lower_string s)
    = map Sqlite.tolower (Sqlite.chars_from open s).
Proof.
  induction s as [|a s IH]; intros open.
  - destruct open as [c|]; simpl; [|reflexivity].
    rewrite tolower_high by apply utf8_close_high. reflexivity.
  - cbn [Text.lower_string Sqlite.chars_from].
    rewrite !byte_continuation, byte_lower.
    pose proof (byte_range a) as Hr. apply andb_true_iff in Hr.
    destruct Hr as [Hr0 Hr1]. apply Z.leb_le in Hr0. apply Z.ltb_lt in Hr1.
    set (b := Sqlite.byte a) in *.
    assert (Hhigh : 128 <= b -> Sqlite.tolower b = b)
      by apply tolower_high.
    assert (Hlow : b < 128 -> 0 < b -> 0 < Sqlite.tolower b < 128).
    { intros H1 H2. unfold Sqlite.tolower. compare_all; lia. }
    assert (Hzero : b = 0 -> Sqlite.tolower b = 0) by (intros ->; reflexivity).
    assert (Hstart :
      (if Sqlite.tolower b =? 0 then []
       else if Sqlite.tolower b <? 0xc0
            then Sqlite.tolower b
                 :: Sqlite.chars_from None (Text.lower_string s)
            else Sqlite.chars_from (Some (Sqlite.utf8_trans1 (Sqlite.tolower b)))
                                   (Text.lower_string s))
      = map Sqlite.tolower
            (if b =? 0 then []
             else if b <? 0xc0 then b :: Sqlite.chars_from None s
                  else Sqlite.chars_from (Some (Sqlite.utf8_trans1 b)) s)).
    { destruct (Z.eqb_spec b 0) as [E|E].
      - rewrite (Hzero E). reflexivity.
      - destruct (Z.ltb_spec b 128) as [L|L].
        + specialize (Hlow L ltac:(lia)).
          destruct (Z.eqb_spec (Sqlite.tolower b) 0); [lia|].
          destruct (Z.ltb_spec (Sqlite.tolower b) 0xc0); [|lia].
          destruct (Z.ltb_spec b 0xc0); [|lia].
          simpl. rewrite IH. reflexivity.
        + rewrite (Hhigh L).
          destruct (Z.eqb_spec b 0); [lia|].
          destruct (b <?  0xc0); simpl; rewrite IH; [|reflexivity].
          rewrite (Hhigh L). reflexivity. }
    destruct open as [c|]; [|exact Hstart].
    destruct (Z.le_gt_cases 128 b) as [L|L].
    + pose proof (Hhigh L) as Eb. rewrite Eb in *.
      destruct ((128 <=? b) && (b <? 192)); [apply IH|].
      cbn [map].
      rewrite (tolower_high (Sqlite.utf8_close c)) by apply utf8_close_high.
      f_equal. exact Hstart.
    + assert (E1 : (128 <=? b) = false) by (apply Z.leb_gt; lia).
      assert (E2 : (128 <=? Sqlite.tolower b) = false).
      { apply Z.leb_gt. destruct (Z.eqb_spec b 0) as [E|N].
        - rewrite (Hzero E). lia.
        - apply Hlow; lia. }
      rewrite E1, E2. cbn [andb map].
      rewrite (tolower_high (Sqlite.utf8_close c)) by apply utf8_close_high.
      f_equal. exact Hstart.
Qed.

Lemma search_ext rest rest' c c' :
  (forall s, rest s = rest' s) ->
  (forall d, Sqlite.stops c d = Sqlite.stops c' d) ->
  forall s, Sqlite.search rest c s = Sqlite.search rest' c' s.
Proof.
  intros Hr Hc. induction s as [|d s IH]; [reflexivity|].
  simpl. rewrite Hc, Hr, IH. reflexivity.
Qed.

Lemma patternCompare_lower p :
  forall star s,
    Sqlite.patternCompare_from star (map Sqlite.tolower p) s
    = Sqlite.patternCompare_from star p s.
Proof.
  induction p as [|c p IH]; intros star s; [reflexivity|].
  cbn [map Sqlite.patternCompare_from].
  rewrite tolower_percent, tolower_underscore.
  destruct (c =? 37); [apply IH|].
  destruct star.
  - destruct (c =? 95).
    + destruct s; [reflexivity|apply IH].
    + apply search_ext; [apply IH|].
      intros d. rewrite !stops_same, !same_fold, tolower_tolower. reflexivity.
  - destruct s as [|d s]; [reflexivity|].
    rewrite !same_fold, tolower_tolower, IH. reflexivity.
Qed.

Lemma like_lower_pattern p s : Sqlite.like (Text.lower_string p) s = Sqlite.like p s.
Proof.
  unfold Sqlite.like, Sqlite.chars, Sqlite.patternCompare.
  rewrite chars_lower, patternCompare_lower. reflexivity.
Qed.

Lemma lower_string_pattern q :
  Text.lower_string ("%" ++ q ++ "%") = ("%" ++ Text.lower_string q ++ "%")%string.
Proof.
  change ("%" ++ q ++ "%")%string with (String "%"%char (q ++ "%")).
  change ("%" ++ Text.lower_string q ++ "%")%string
    with (String "%"%char (Text.lower_string q ++ "%")).
  cbn [Text.lower_string]. f_equal.
  induction q as [|c q IH]; [reflexivity|]. simpl. rewrite IH. reflexivity.
Qed.

Lemma where_body_like_ext p p' rows :
  String.length p = String.length p' ->
  (forall s, Sqlite.like p s = Sqlite.like p' s) ->
  Db.where_body_like p rows = Db.where_body_like p' rows.
Proof.
  intros Hlen Hlike. induction rows as [|m rows IH]; [reflexivity|].
  simpl. unfold Sqlite.likeFunc. rewrite Hlen, Hlike, IH. reflexivity.
Qed.

(** X25.  Search does not look at the case of ASCII letters in the
    query: a query and the same query with its capitals made small give
    the same result on every store. *)
Theorem searchMessages_ignores_query_case (chatId q : string) (d : Db.Database) :
  Db.searchMessages chatId (Text.lower_string q) d = Db.searchMessages chatId q d.
Proof.
  unfold Db.searchMessages.
  rewrite (where_body_like_ext ("%" ++ Text.lower_string q ++ "%")
                               ("%" ++ q ++ "%")); [reflexivity| |].
  - rewrite <- lower_string_pattern. apply lower_string_length.
  - intros s. rewrite <- lower_string_pattern. apply like_lower_pattern.
Qed.
